(** * ts-transform-async-to-mobx-keystone-flow: the transformer of
    [src/index.ts]

    A shallow embedding of the TypeScript custom transformer that rewrites
    [autoFlow] async functions into [mobx-keystone] generator flows and
    [autoModel] classes into [model] classes, followed by the properties of
    the transformer that the specification states.

    The syntax tree is the host compiler's [ts.Node]; the transformer only
    inspects a handful of node kinds, which get a constructor of their own
    below.  Every other kind is an [OtherNode]: a kind and its children in
    source order.

    The visitor of the source is a closure over three variables of
    [visitSourceFile] ([transformed], [className] and
    [functionsToAddDecoratorsTo]) and it may throw: here it is a function
    into a state and exception monad.  The functions of the host that the
    transformer calls ([ts.visitEachChild], the node tests, the factory,
    [ts.isAsyncFunction]) are part of the embedding; the source text of a
    node, which the host reads from the parsed file, is a parameter, and
    so is the outcome of [getFullText], which fails on a node that is not
    in the parsed file. *)

From Stdlib Require Import String Ascii List Bool Arith Lia.
Import ListNotations.
Local Open Scope string_scope.
Local Open Scope list_scope.

Set Implicit Arguments.

(* ------------------------------------------------------------------ *)
(** ** Strings: the JavaScript string methods the transformer calls *)

Module JsString.

(** [s.startsWith(p)] *)
Fixpoint startsWith (s p : string) : bool :=
  match p with
  | EmptyString => true
  | String c p' =>
      match s with
      | EmptyString => false
      | String d s' => Ascii.eqb c d && startsWith s' p'
      end
  end.

(** [s.includes(p)] *)
Fixpoint includes (s p : string) : bool :=
  startsWith s p ||
  match s with
  | EmptyString => false
  | String _ s' => includes s' p
  end.

(** [xs.includes(x)] on an array of strings *)
Definition arrayIncludes (xs : list string) (x : string) : bool :=
  existsb (String.eqb x) xs.

End JsString.

(* ------------------------------------------------------------------ *)
(** ** Syntax kinds and nodes *)

Module SyntaxKind.

(** The kinds of tokens and of the nodes the transformer does not look
    into.  The function-like kinds are the ones of [ts.isFunctionLike]. *)
Inductive t : Set :=
(* tokens *)
| AsteriskToken | QuestionToken | ExclamationToken
| EqualsGreaterThanToken | DotDotDotToken
(* modifier keywords *)
| AbstractKeyword | AccessorKeyword | AsyncKeyword | ConstKeyword
| DeclareKeyword | DefaultKeyword | ExportKeyword | OverrideKeyword
| PrivateKeyword | ProtectedKeyword | PublicKeyword | ReadonlyKeyword
| StaticKeyword
(* function-like declarations and signatures *)
| FunctionDeclaration | Constructor | GetAccessor | SetAccessor
| MethodSignature | CallSignature | ConstructSignature | IndexSignature
| FunctionType | ConstructorType | JSDocFunctionType | JSDocSignature
(* statements and expressions that are only traversed *)
| Block | ReturnStatement | ExpressionStatement | VariableStatement
| VariableDeclarationList | VariableDeclaration | IfStatement
| ClassExpression | ObjectLiteralExpression | PropertyAssignment
| ArrayLiteralExpression | BinaryExpression | ParenthesizedExpression
| NewExpression | ComputedPropertyName | NumericLiteral | ThisKeyword
| HeritageClause | TypeParameter | KeywordType.

(** The kinds [ts.isFunctionLike] accepts, among the kinds of [OtherNode]
    (methods, function expressions and arrow functions are nodes of
    their own). *)
Definition isFunctionLikeKind (k : t) : bool :=
  match k with
  | FunctionDeclaration | Constructor | GetAccessor | SetAccessor
  | MethodSignature | CallSignature | ConstructSignature | IndexSignature
  | FunctionType | ConstructorType | JSDocFunctionType | JSDocSignature =>
      true
  | _ => false
  end.

End SyntaxKind.

(** The predicates "all elements" of lists and options, for the nested
    induction principle of [Node]. *)
Scheme All for list.
Scheme All for option.

(** [ts.Node].  An optional child is an [option]; a [NodeArray] is a list,
    and an absent array ([undefined]) is the empty list: the transformer
    reads arrays through [?.] and [?? []] only. *)
Inductive Node : Type :=
| ClassDeclaration (modifiers : list Node) (name : option Node)
    (typeParameters heritageClauses members : list Node)
| PropertyDeclaration (modifiers : list Node) (name : Node)
    (questionOrExclamationToken type initializer : option Node)
| MethodDeclaration (modifiers : list Node) (asteriskToken : option Node)
    (name : Node) (questionToken : option Node)
    (typeParameters parameters : list Node) (type body : option Node)
| FunctionExpression (modifiers : list Node) (asteriskToken name : option Node)
    (typeParameters parameters : list Node) (type : option Node) (body : Node)
| ArrowFunction (modifiers typeParameters parameters : list Node)
    (type : option Node) (equalsGreaterThanToken body : Node)
| ParameterDeclaration (modifiers : list Node) (dotDotDotToken : option Node)
    (name : Node) (questionToken type initializer : option Node)
| CallExpression (expression : Node) (typeArguments arguments : list Node)
| PropertyAccessExpression (expression name : Node)
| AwaitExpression (expression : Node)
| YieldExpression (asteriskToken expression : option Node)
| Decorator (expression : Node)
| Identifier (text : string)
| UniqueName (text : string)
| StringLiteral (text : string)
| Token (kind : SyntaxKind.t)
| TypeReferenceNode (typeName : Node) (typeArguments : list Node)
| ImportDeclaration (modifiers : list Node) (importClause : option Node)
    (moduleSpecifier : Node)
| ImportClause (isTypeOnly : bool) (name namedBindings : option Node)
| NamespaceImport (name : Node)
| OtherNode (kind : SyntaxKind.t) (childNodes : list Node).

(** [ts.SourceFile]: the root of a unit.  It is never a child of a node. *)
Record SourceFile : Type := updateSourceFile {
  fileName : string;
  statements : list Node;
  isDeclarationFile : bool;
  referencedFiles : list string;
  typeReferenceDirectives : list string;
  hasNoDefaultLib : bool;
  libReferenceDirectives : list string
}.

(* ------------------------------------------------------------------ *)
(** ** Node tests of the host ([ts.isXxx]) *)

Definition isClassDeclaration (n : Node) : bool :=
  match n with ClassDeclaration _ _ _ _ _ => true | _ => false end.

Definition isPropertyDeclaration (n : Node) : bool :=
  match n with PropertyDeclaration _ _ _ _ _ => true | _ => false end.

Definition isMethodDeclaration (n : Node) : bool :=
  match n with MethodDeclaration _ _ _ _ _ _ _ _ => true | _ => false end.

Definition isArrowFunction (n : Node) : bool :=
  match n with ArrowFunction _ _ _ _ _ _ => true | _ => false end.

Definition isFunctionExpression (n : Node) : bool :=
  match n with FunctionExpression _ _ _ _ _ _ _ => true | _ => false end.

Definition isCallExpression (n : Node) : bool :=
  match n with CallExpression _ _ _ => true | _ => false end.

Definition isAwaitExpression (n : Node) : bool :=
  match n with AwaitExpression _ => true | _ => false end.

Definition isDecorator (n : Node) : bool :=
  match n with Decorator _ => true | _ => false end.

(** A generated unique name is an identifier node too. *)
Definition isIdentifier (n : Node) : bool :=
  match n with Identifier _ | UniqueName _ => true | _ => false end.

(** [node.text] of an identifier. *)
Definition identifierText (n : Node) : string :=
  match n with Identifier t | UniqueName t => t | _ => "" end.

(** [ts.isFunctionLike] *)
Definition isFunctionLike (n : Node) : bool :=
  match n with
  | MethodDeclaration _ _ _ _ _ _ _ _
  | FunctionExpression _ _ _ _ _ _ _
  | ArrowFunction _ _ _ _ _ _ => true
  | OtherNode k _ => SyntaxKind.isFunctionLikeKind k
  | _ => false
  end.

(** [x.kind === ts.SyntaxKind.AsyncKeyword] *)
Definition isAsyncKeyword (n : Node) : bool :=
  match n with Token SyntaxKind.AsyncKeyword => true | _ => false end.

(* ------------------------------------------------------------------ *)
(** ** Completions: a visitor reads and writes the three variables that
    [visitSourceFile] closes over, and may throw *)

Inductive Exception : Set :=
| Error (message : string)
| TypeError (message : string).

(** The two ways in which [node.getFullText()] fails in the host.  A node
    that a factory update has rebuilt has the positions of the original
    and no parent: [getSourceFile()] is [undefined] and reading its text
    is a type error.  A node that the factory has made has no position:
    the assertion of a real position fails. *)
Inductive TextFailure : Set :=
| NoSourceFile
| NoRealPosition.

Definition textFailureException (failure : TextFailure) : Exception :=
  match failure with
  | NoSourceFile =>
      TypeError "Cannot read properties of undefined (reading 'text')"
  | NoRealPosition =>
      Error ("Debug Failure. False expression: "
             ++ "Node must have a real position for this operation")%string
  end.

(** What [node.getFullText()] gives: the text, or a failure. *)
Inductive FullText : Set :=
| HasText (text : string)
| NoText (failure : TextFailure).

Record State : Set := mkState {
  transformed : bool;
  className : string;
  functionsToAddDecoratorsTo : list string
}.

Inductive Completion (A : Type) : Type :=
| Normal (value : A) (state : State)
| Thrown (e : Exception).
Arguments Thrown {A} e.

Class Monad (m : Type -> Type) : Type := {
  ret : forall {A}, A -> m A;
  bind : forall {A B}, m A -> (A -> m B) -> m B
}.

Declare Scope monad_scope.
Delimit Scope monad_scope with monad.
Notation "x <- c1 ;; c2" := (bind c1 (fun x => c2))
  (at level 61, c1 at next level, right associativity) : monad_scope.
Notation "c1 ;; c2" := (bind c1 (fun _ => c2))
  (at level 61, right associativity) : monad_scope.
Local Open Scope monad_scope.

(** Visitors without effects. *)
Definition Id (A : Type) : Type := A.

#[export] Instance Monad_Id : Monad Id := {
  ret := fun A (a : A) => a;
  bind := fun A B (a : Id A) (f : A -> Id B) => f a
}.

(** Visitors with the closed-over variables and exceptions. *)
Definition M (A : Type) : Type := State -> Completion A.

#[export] Instance Monad_M : Monad M := {
  ret := fun A (a : A) (s : State) => Normal a s;
  bind := fun A B (c : M A) (f : A -> M B) (s : State) =>
    match c s with
    | Normal a s' => f a s'
    | Thrown e => Thrown e
    end
}.

Definition throw {A : Type} (e : Exception) : M A := fun _ => Thrown e.
Definition get : M State := fun s => Normal s s.
Definition setTransformed (b : bool) : M unit :=
  fun s => Normal tt (mkState b (className s) (functionsToAddDecoratorsTo s)).
Definition setClassName (c : string) : M unit :=
  fun s => Normal tt (mkState (transformed s) c (functionsToAddDecoratorsTo s)).
(** [functionsToAddDecoratorsTo.push(x)] *)
Definition pushFunctionToAddDecoratorsTo (x : string) : M unit :=
  fun s => Normal tt
    (mkState (transformed s) (className s)
       (functionsToAddDecoratorsTo s ++ [x])).

(* ------------------------------------------------------------------ *)
(** ** [ts.visitEachChild] *)

Section VisitEachChild.

Context {m : Type -> Type} {Mm : Monad m}.
Variable visitor : Node -> m Node.

(** [visitNodes]: the visitor on every node of an array, in order. *)
Definition visitNodes : list Node -> m (list Node) :=
  fix go (l : list Node) : m (list Node) :=
    match l with
    | [] => ret []
    | x :: xs => x' <- visitor x ;; xs' <- go xs ;; ret (x' :: xs')
    end.

(** [visitNode] on an optional child. *)
Definition visitNode (o : option Node) : m (option Node) :=
  match o with
  | None => ret None
  | Some x => x' <- visitor x ;; ret (Some x')
  end.

(** The visitor on each child of [node], in source order, and the node
    rebuilt from the results.  Token children (asterisk, question mark,
    arrow, dots) are not offered to the visitor: no token visitor is
    passed.  Identifiers, literals and tokens have no children. *)
Definition visitEachChild (node : Node) : m Node :=
  match node with
  | ClassDeclaration modifiers name typeParameters heritageClauses members =>
      modifiers' <- visitNodes modifiers ;;
      name' <- visitNode name ;;
      typeParameters' <- visitNodes typeParameters ;;
      heritageClauses' <- visitNodes heritageClauses ;;
      members' <- visitNodes members ;;
      ret (ClassDeclaration modifiers' name' typeParameters'
             heritageClauses' members')
  | PropertyDeclaration modifiers name token type initializer =>
      modifiers' <- visitNodes modifiers ;;
      name' <- visitor name ;;
      type' <- visitNode type ;;
      initializer' <- visitNode initializer ;;
      ret (PropertyDeclaration modifiers' name' token type' initializer')
  | MethodDeclaration modifiers asteriskToken name questionToken
      typeParameters parameters type body =>
      modifiers' <- visitNodes modifiers ;;
      name' <- visitor name ;;
      typeParameters' <- visitNodes typeParameters ;;
      parameters' <- visitNodes parameters ;;
      type' <- visitNode type ;;
      body' <- visitNode body ;;
      ret (MethodDeclaration modifiers' asteriskToken name' questionToken
             typeParameters' parameters' type' body')
  | FunctionExpression modifiers asteriskToken name typeParameters
      parameters type body =>
      modifiers' <- visitNodes modifiers ;;
      name' <- visitNode name ;;
      typeParameters' <- visitNodes typeParameters ;;
      parameters' <- visitNodes parameters ;;
      type' <- visitNode type ;;
      body' <- visitor body ;;
      ret (FunctionExpression modifiers' asteriskToken name'
             typeParameters' parameters' type' body')
  | ArrowFunction modifiers typeParameters parameters type arrow body =>
      modifiers' <- visitNodes modifiers ;;
      typeParameters' <- visitNodes typeParameters ;;
      parameters' <- visitNodes parameters ;;
      type' <- visitNode type ;;
      body' <- visitor body ;;
      ret (ArrowFunction modifiers' typeParameters' parameters' type'
             arrow body')
  | ParameterDeclaration modifiers dotDotDotToken name questionToken type
      initializer =>
      modifiers' <- visitNodes modifiers ;;
      name' <- visitor name ;;
      type' <- visitNode type ;;
      initializer' <- visitNode initializer ;;
      ret (ParameterDeclaration modifiers' dotDotDotToken name'
             questionToken type' initializer')
  | CallExpression expression typeArguments arguments =>
      expression' <- visitor expression ;;
      typeArguments' <- visitNodes typeArguments ;;
      arguments' <- visitNodes arguments ;;
      ret (CallExpression expression' typeArguments' arguments')
  | PropertyAccessExpression expression name =>
      expression' <- visitor expression ;;
      name' <- visitor name ;;
      ret (PropertyAccessExpression expression' name')
  | AwaitExpression expression =>
      expression' <- visitor expression ;;
      ret (AwaitExpression expression')
  | YieldExpression asteriskToken expression =>
      expression' <- visitNode expression ;;
      ret (YieldExpression asteriskToken expression')
  | Decorator expression =>
      expression' <- visitor expression ;;
      ret (Decorator expression')
  | Identifier _ | UniqueName _ | StringLiteral _ | Token _ => ret node
  | TypeReferenceNode typeName typeArguments =>
      typeName' <- visitor typeName ;;
      typeArguments' <- visitNodes typeArguments ;;
      ret (TypeReferenceNode typeName' typeArguments')
  | ImportDeclaration modifiers importClause moduleSpecifier =>
      modifiers' <- visitNodes modifiers ;;
      importClause' <- visitNode importClause ;;
      moduleSpecifier' <- visitor moduleSpecifier ;;
      ret (ImportDeclaration modifiers' importClause' moduleSpecifier')
  | ImportClause isTypeOnly name namedBindings =>
      name' <- visitNode name ;;
      namedBindings' <- visitNode namedBindings ;;
      ret (ImportClause isTypeOnly name' namedBindings')
  | NamespaceImport name =>
      name' <- visitor name ;;
      ret (NamespaceImport name')
  | OtherNode kind childNodes =>
      childNodes' <- visitNodes childNodes ;;
      ret (OtherNode kind childNodes')
  end.

End VisitEachChild.

(* ------------------------------------------------------------------ *)
(** ** The factory calls that build the adapter references *)

(** [ts.factory.createUniqueName("mobxKs", Optimistic | FileLevel)] *)
Definition createUniqueName (text : string) : Node := UniqueName text.

Definition createMobxKsPropertyAccessExpression
    (mobxKsNamespaceImport : Node) (name : string) : Node :=
  PropertyAccessExpression mobxKsNamespaceImport (Identifier name).

Definition autoFlow : string := "autoFlow".
Definition modelFlow : string := "modelFlow".

(* ------------------------------------------------------------------ *)
(** ** [createNewFunctionBlock] *)

(** The visitor of [createNewFunctionBlock]: an await expression becomes
    [yield* _awaitExpression(operand)], a function-like node is returned
    as it is, and every other node is rebuilt from its visited children. *)
Fixpoint replaceYieldAndCheckNested (_awaitExpression : Node) (node : Node)
    {struct node} : Node :=
  match node with
  | AwaitExpression expression =>
      YieldExpression (Some (Token SyntaxKind.AsteriskToken))
        (Some (CallExpression _awaitExpression [] [expression]))
  | _ =>
      if isFunctionLike node then node
      else visitEachChild (m := Id)
             (replaceYieldAndCheckNested _awaitExpression) node
  end.

(** [createNewFunctionBlock]: the function with its body rewritten and
    every other part kept. *)
Definition createNewFunctionBlock (fn : Node) (_awaitExpression : Node)
    : Node :=
  match fn with
  | ArrowFunction modifiers typeParameters parameters type arrow body =>
      ArrowFunction modifiers typeParameters parameters type arrow
        (replaceYieldAndCheckNested _awaitExpression body)
  | FunctionExpression modifiers asteriskToken name typeParameters parameters
      type body =>
      FunctionExpression modifiers asteriskToken name typeParameters
        parameters type (replaceYieldAndCheckNested _awaitExpression body)
  | _ => fn
  end.

(* ------------------------------------------------------------------ *)
(** ** [addImportMobxStatement] *)

Definition addImportMobxStatement (source : SourceFile) (mobxPackage : string)
    (mobxNamespaceImport : Node) : SourceFile :=
  let importFlowStatement :=
    ImportDeclaration []
      (Some (ImportClause false None
               (Some (NamespaceImport mobxNamespaceImport))))
      (StringLiteral mobxPackage) in
  updateSourceFile (fileName source)
    (importFlowStatement :: statements source)
    (isDeclarationFile source) (referencedFiles source)
    (typeReferenceDirectives source) (hasNoDefaultLib source)
    (libReferenceDirectives source).

(* ------------------------------------------------------------------ *)
(** ** Decorators *)

Definition isSpecificDecorator (decorator : Node) (name : string) : bool :=
  match decorator with
  | Decorator expression =>
      isIdentifier expression && String.eqb (identifierText expression) name
  | _ => false
  end.

Definition hasDecorator (decorators : list Node) (name : string) : bool :=
  negb (Nat.eqb
          (length (filter (fun x => isSpecificDecorator x name) decorators))
          0).

(** [ensureDecorators]: the [reduce] drops the async keyword and every
    [@autoFlow]; the [unshift] puts a decorator of [modelFlowExpression]
    in front unless [hasDecorator] finds [modelFlow]. *)
Definition ensureDecorators (modifiers : list Node) (modelFlowExpression : Node)
    : list Node :=
  let res :=
    fold_left
      (fun acc x =>
         if isAsyncKeyword x then acc
         else if isSpecificDecorator x autoFlow then acc
         else acc ++ [x])
      modifiers [] in
  if negb (hasDecorator res modelFlow)
  then Decorator modelFlowExpression :: res
  else res.

(** [node.modifiers] and [node.initializer]. *)
Definition nodeModifiers (n : Node) : list Node :=
  match n with
  | ClassDeclaration ms _ _ _ _ | PropertyDeclaration ms _ _ _ _
  | MethodDeclaration ms _ _ _ _ _ _ _ | FunctionExpression ms _ _ _ _ _ _
  | ArrowFunction ms _ _ _ _ _ | ParameterDeclaration ms _ _ _ _ _
  | ImportDeclaration ms _ _ => ms
  | _ => []
  end.

Definition nodeInitializer (n : Node) : option Node :=
  match n with
  | PropertyDeclaration _ _ _ _ i | ParameterDeclaration _ _ _ _ _ i => i
  | _ => None
  end.

(** [node.questionToken] of a property declaration: the token after the
    name when it is a question mark. *)
Definition propertyQuestionToken (token : option Node) : option Node :=
  match token with
  | Some (Token SyntaxKind.QuestionToken) => token
  | _ => None
  end.

(** [transformPropertyDeclaration]: the update passes [node.questionToken]
    for the token after the name. *)
Definition transformPropertyDeclaration (node : Node)
    (newFunctionBlock : option Node) (modelFlowExpression : Node) : Node :=
  match node with
  | PropertyDeclaration modifiers name token type _ =>
      let newModifiers := ensureDecorators modifiers modelFlowExpression in
      PropertyDeclaration newModifiers name (propertyQuestionToken token) type
        newFunctionBlock
  | _ => node
  end.

(* ------------------------------------------------------------------ *)
(** ** [transformFunction] *)

Definition errorMessage (message : string) : string :=
  "[ts-transform-async-to-mobx-keystone-flow]: " ++ message.

(** [isAsyncFunction] is the host's [ts.isAsyncFunction], which the source
    calls after checking that the host exports it: the node is a function
    with a body, without an asterisk token and with the async modifier.
    An arrow function and a function expression always have a body; a
    method may have none.  The transformer asks for arrow functions and
    function expressions only; function declarations, which the host's
    test accepts too, are not told apart from other nodes here. *)
Definition isAsyncFunction (node : Node) : bool :=
  match node with
  | FunctionExpression modifiers asteriskToken _ _ _ _ _
  | MethodDeclaration modifiers asteriskToken _ _ _ _ _ (Some _) =>
      existsb isAsyncKeyword modifiers &&
      match asteriskToken with Some _ => false | None => true end
  | ArrowFunction modifiers _ _ _ _ _ => existsb isAsyncKeyword modifiers
  | _ => false
  end.

Definition fnParameters (fn : Node) : list Node :=
  match fn with
  | ArrowFunction _ _ parameters _ _ _
  | FunctionExpression _ _ _ _ parameters _ _
  | MethodDeclaration _ _ _ _ _ parameters _ _ => parameters
  | _ => []
  end.

Definition fnBody (fn : Node) : option Node :=
  match fn with
  | ArrowFunction _ _ _ _ _ body | FunctionExpression _ _ _ _ _ _ body =>
      Some body
  | MethodDeclaration _ _ _ _ _ _ _ body => body
  | _ => None
  end.

(** [x.name] of a parameter. *)
Definition parameterName (x : Node) : option Node :=
  match x with
  | ParameterDeclaration _ _ name _ _ _ => Some name
  | _ => None
  end.

(** The constants at the head of [visitSourceFile]: the unique name of the
    namespace import and the four references into it. *)
Definition mobxNamespaceImport : Node := createUniqueName "mobxKs".
Definition _asyncExpression : Node :=
  createMobxKsPropertyAccessExpression mobxNamespaceImport "_async".
Definition _awaitExpression : Node :=
  createMobxKsPropertyAccessExpression mobxNamespaceImport "_await".
Definition modelFlowExpression : Node :=
  createMobxKsPropertyAccessExpression mobxNamespaceImport modelFlow.
Definition modelExpression : Node :=
  createMobxKsPropertyAccessExpression mobxNamespaceImport "model".

(** The options of the factory; [options?: Partial<Options>] leaves both
    optional. *)
Record Options : Type := mkOptions {
  mobxKeystonePackage : option string;
  generateModelNameFromFilename : option (string -> string)
}.

Section Transformer.

(** The source text of a node: [node.getText()] and [node.getFullText()].
    The host reads it from the text of the parsed unit.  [getText] is
    only called on nodes of the input.  [getFullText] is called on the
    function of an error message, which [createNewFunctionBlock] may have
    rebuilt and which, for a method, the factory has made: the host then
    fails, and tells so here. *)
Variable getText : Node -> string.
Variable getFullText : Node -> FullText.

(** [transformFunction].  The message of the error for a function that
    is not async is built from [fn.getFullText()]: when that call fails,
    its exception is the one thrown.  [fn] is an arrow function or a
    function expression by its type, so it has a body; the last branch
    stands for a node without a body, which no caller passes. *)
Definition transformFunction (fn : Node) (asyncIdentifier : Node)
    (className : string) : M Node :=
  if negb (isAsyncFunction fn) then
    match getFullText fn with
    | HasText text =>
        throw (Error (errorMessage
          ("Could not resolve expression as async function: " ++ text)))
    | NoText failure => throw (textFailureException failure)
    end
  else
    let hasThisParam :=
      find (fun x =>
              match parameterName x with
              | Some name => String.eqb (getText name) "this"
              | None => false
              end) (fnParameters fn) in
    let additionalParams :=
      match hasThisParam with
      | Some _ => []
      | None =>
          [ParameterDeclaration [] None (Identifier "this") None
             (Some (TypeReferenceNode (Identifier className) [])) None]
      end in
    match fnBody fn with
    | Some body =>
        ret (CallExpression asyncIdentifier []
               [FunctionExpression []
                  (Some (Token SyntaxKind.AsteriskToken)) None []
                  (additionalParams ++ fnParameters fn) None body])
    | None => throw (TypeError "fn.body is not defined")
    end.

(* ---------------------------------------------------------------- *)
(** ** The visitor of [visitSourceFile] *)

(** The options and the unit with the import, which the visitor closes
    over. *)
Variable options : Options.
Variable resSource : SourceFile.

Definition isAutoModelDecorator (x : Node) : bool :=
  JsString.includes (getText x) "autoModel".

(** [modifiers.filter(x => x !== autoModelDecorator)], where
    [autoModelDecorator] is [modifiers.find(p)]: the nodes of an array
    are distinct objects, so the filter drops the found one only. *)
Fixpoint filterOutFound (p : Node -> bool) (modifiers : list Node)
    : list Node :=
  match modifiers with
  | [] => []
  | x :: xs => if p x then xs else x :: filterOutFound p xs
  end.

Definition modelName : string :=
  match generateModelNameFromFilename options with
  | Some f => f (fileName resSource)
  | None => fileName resSource
  end.

Definition modelDecorator : Node :=
  Decorator (CallExpression modelExpression [] [StringLiteral modelName]).

(** Lines 70-102: a class sets [className]; one with a modifier whose
    text includes [autoModel] loses it and gets the model decorator. *)
Definition visitClassDeclaration (node : Node) : M Node :=
  match node with
  | ClassDeclaration modifiers name typeParameters heritageClauses members =>
      setClassName (match name with
                    | Some n => getText n
                    | None => ""
                    end) ;;
      match find isAutoModelDecorator modifiers with
      | Some _ =>
          setTransformed true ;;
          ret (ClassDeclaration
                 (filterOutFound isAutoModelDecorator modifiers
                    ++ [modelDecorator])
                 name typeParameters heritageClauses members)
      | None => ret node
      end
  | _ => ret node
  end.

(** Lines 109-141: the visitor of the children of a property
    declaration.  [parent] is [node.parent], the property declaration
    whose children are visited. *)
Definition visitPropertyChild (parent : Node) (node : Node) : M Node :=
  match node with
  | CallExpression expression _ arguments =>
      if isIdentifier expression
         && JsString.startsWith (identifierText expression) autoFlow
      then
        match parent with
        | PropertyDeclaration _ name _ _ _ =>
            pushFunctionToAddDecoratorsTo (getText name)
        | _ => ret tt
        end ;;
        match arguments with
        | [] => throw (TypeError
                  "Cannot read properties of undefined (reading 'kind')")
        | fn :: _ =>
            if isArrowFunction fn || isFunctionExpression fn then
              setTransformed true ;;
              let newFunctionBlock :=
                createNewFunctionBlock fn _awaitExpression in
              s <- get ;;
              transformFunction newFunctionBlock _asyncExpression
                (className s)
            else ret node
        end
      else ret node
  | _ => ret node
  end.

(** Lines 147-163: the decorator for a property whose name was pushed. *)
Definition addDecorator (newNode : option Node) : M (option Node) :=
  match newNode with
  | Some (PropertyDeclaration _ name _ _ _ as newNode) =>
      s <- get ;;
      if JsString.arrayIncludes (functionsToAddDecoratorsTo s) (getText name)
      then
        let pd := if isPropertyDeclaration newNode
                  then Some newNode else None in
        match pd with
        | None =>
            throw (Error (errorMessage
                            "Could not resolve property declaration"))
        | Some pd =>
            ret (Some (transformPropertyDeclaration pd
                         (nodeInitializer newNode) modelFlowExpression))
        end
      else ret None
  | _ => ret None
  end.

(** Lines 168-190: a method with [@autoFlow] and a body becomes a
    property whose initializer is a function expression. *)
Definition methodToProperty (node : Node) : Node :=
  match node with
  | MethodDeclaration modifiers asteriskToken name questionToken
      typeParameters parameters type (Some body) =>
      if hasDecorator modifiers autoFlow then
        let functionExpression :=
          FunctionExpression modifiers asteriskToken
            (if isIdentifier name then Some name else None)
            typeParameters parameters type body in
        PropertyDeclaration modifiers name questionToken type
          (Some functionExpression)
      else node
  | _ => node
  end.

(** Lines 195-212: a property with [@autoFlow] and a function value. *)
Definition visitDecoratedProperty (node : Node) : M (option Node) :=
  match node with
  | PropertyDeclaration modifiers _ _ _ (Some fn) =>
      if hasDecorator modifiers autoFlow then
        if isArrowFunction fn || isFunctionExpression fn then
          setTransformed true ;;
          let newFn := createNewFunctionBlock fn _awaitExpression in
          s <- get ;;
          fn' <- transformFunction newFn _asyncExpression (className s) ;;
          ret (Some (transformPropertyDeclaration node (Some fn')
                       modelFlowExpression))
        else ret None
      else ret None
  | _ => ret None
  end.

(** The body of [visitor], with [self] for the recursive reference in
    the last line.  A [Some] from a step is its [return]. *)
Definition visitorBody (self : Node -> M Node) (node : Node) : M Node :=
  node <- visitClassDeclaration node ;;
  newNode <- (if isPropertyDeclaration node
              then n <- visitEachChild (visitPropertyChild node) node ;;
                   ret (Some n)
              else ret None) ;;
  returned <- addDecorator newNode ;;
  match returned with
  | Some result => ret result
  | None =>
      let node := methodToProperty node in
      returned <- visitDecoratedProperty node ;;
      match returned with
      | Some result => ret result
      | None => visitEachChild self node
      end
  end.

(** [visitor]: the recursion unfolded along the node.  The class case
    visits the children of the updated class: the kept modifiers, then
    the model decorator, which a visit leaves as it is (no class,
    property or method is inside it), then the other children.
    [visitor_unfold] below shows that [visitor] satisfies the equation
    of [visitorBody]. *)
Fixpoint visitor (node : Node) {struct node} : M Node :=
  match node with
  | ClassDeclaration modifiers name typeParameters heritageClauses members =>
      setClassName (match name with
                    | Some n => getText n
                    | None => ""
                    end) ;;
      match find isAutoModelDecorator modifiers with
      | Some _ =>
          setTransformed true ;;
          modifiers' <-
            (fix visitKept (l : list Node) : M (list Node) :=
               match l with
               | [] => ret []
               | x :: xs =>
                   if isAutoModelDecorator x then visitNodes visitor xs
                   else x' <- visitor x ;;
                        xs' <- visitKept xs ;;
                        ret (x' :: xs')
               end) modifiers ;;
          name' <- visitNode visitor name ;;
          typeParameters' <- visitNodes visitor typeParameters ;;
          heritageClauses' <- visitNodes visitor heritageClauses ;;
          members' <- visitNodes visitor members ;;
          ret (ClassDeclaration (modifiers' ++ [modelDecorator]) name'
                 typeParameters' heritageClauses' members')
      | None => visitEachChild visitor node
      end
  | PropertyDeclaration _ _ _ _ _ | MethodDeclaration _ _ _ _ _ _ _ _ =>
      newNode <- (if isPropertyDeclaration node
                  then n <- visitEachChild (visitPropertyChild node) node ;;
                       ret (Some n)
                  else ret None) ;;
      returned <- addDecorator newNode ;;
      match returned with
      | Some result => ret result
      | None =>
          returned <- visitDecoratedProperty (methodToProperty node) ;;
          match returned with
          | Some result => ret result
          | None => visitEachChild visitor node
          end
      end
  | _ => visitEachChild visitor node
  end.

End Transformer.

(* ------------------------------------------------------------------ *)
(** ** [visitSourceFile] *)

Definition initialState : State := mkState false "" [].

(** [options?.mobxKeystonePackage || "mobx-keystone"] *)
Definition mobxPackageOf (options : Options) : string :=
  match mobxKeystonePackage options with
  | Some p => if String.eqb p "" then "mobx-keystone" else p
  | None => "mobx-keystone"
  end.

(** What the transformer returns for a unit: the unit or an exception. *)
Inductive Outcome : Type :=
| Returns (file : SourceFile)
| Throws (e : Exception).

Definition visitSourceFile (getText : Node -> string)
    (getFullText : Node -> FullText) (source : SourceFile)
    (options : Options) : Outcome :=
  let resSource :=
    addImportMobxStatement source (mobxPackageOf options)
      mobxNamespaceImport in
  let visitor := visitor getText getFullText options resSource in
  match visitNodes visitor (statements resSource) initialState with
  | Thrown e => Throws e
  | Normal statements' s =>
      let convertToFlowResult :=
        updateSourceFile (fileName resSource) statements'
          (isDeclarationFile resSource) (referencedFiles resSource)
          (typeReferenceDirectives resSource) (hasNoDefaultLib resSource)
          (libReferenceDirectives resSource) in
      if transformed s then Returns convertToFlowResult else Returns source
  end.

(** [createTransformer(options)(context)(file)] *)
Definition createTransformer (getText : Node -> string)
    (getFullText : Node -> FullText) (options : Options)
    (file : SourceFile) : Outcome :=
  visitSourceFile getText getFullText file options.

(* ------------------------------------------------------------------ *)
(** ** The source text of units in canonical layout

    The closed examples below need the text of their nodes.  [sourceText]
    is the text of a name, a modifier, a simple expression or an arrow
    function written with no trivia inside. *)

Definition keywordText (k : SyntaxKind.t) : string :=
  match k with
  | SyntaxKind.AsteriskToken => "*"
  | SyntaxKind.QuestionToken => "?"
  | SyntaxKind.ExclamationToken => "!"
  | SyntaxKind.EqualsGreaterThanToken => "=>"
  | SyntaxKind.DotDotDotToken => "..."
  | SyntaxKind.AbstractKeyword => "abstract"
  | SyntaxKind.AccessorKeyword => "accessor"
  | SyntaxKind.AsyncKeyword => "async"
  | SyntaxKind.ConstKeyword => "const"
  | SyntaxKind.DeclareKeyword => "declare"
  | SyntaxKind.DefaultKeyword => "default"
  | SyntaxKind.ExportKeyword => "export"
  | SyntaxKind.OverrideKeyword => "override"
  | SyntaxKind.PrivateKeyword => "private"
  | SyntaxKind.ProtectedKeyword => "protected"
  | SyntaxKind.PublicKeyword => "public"
  | SyntaxKind.ReadonlyKeyword => "readonly"
  | SyntaxKind.StaticKeyword => "static"
  | SyntaxKind.ThisKeyword => "this"
  | _ => ""
  end.

Fixpoint sourceText (n : Node) : string :=
  match n with
  | Identifier t | UniqueName t => t
  | StringLiteral t => "'" ++ t ++ "'"
  | Token k => keywordText k
  | Decorator e => "@" ++ sourceText e
  | PropertyAccessExpression e name => sourceText e ++ "." ++ sourceText name
  | CallExpression e _ args =>
      sourceText e ++ "(" ++ String.concat ", " (map sourceText args) ++ ")"
  | AwaitExpression e => "await " ++ sourceText e
  | ParameterDeclaration _ _ name _ _ _ => sourceText name
  | ArrowFunction modifiers _ parameters _ _ body =>
      String.concat "" (map (fun x => (sourceText x ++ " ")%string) modifiers)
      ++ "(" ++ String.concat ", " (map sourceText parameters) ++ ") => "
      ++ sourceText body
  | OtherNode SyntaxKind.Block statements =>
      "{"
      ++ String.concat ""
           (map (fun x => (" " ++ sourceText x)%string) statements)
      ++ " }"
  | OtherNode SyntaxKind.ReturnStatement [e] =>
      "return " ++ sourceText e ++ ";"
  | OtherNode SyntaxKind.ExpressionStatement [e] => sourceText e ++ ";"
  | _ => ""
  end.

Definition noOptions : Options := mkOptions None None.

(** A unit with these statements and no directives. *)
Definition sourceUnit (path : string) (stmts : list Node) : SourceFile :=
  updateSourceFile path stmts false [] [] false [].

(** The host of the examples: every node has its canonical text.  No
    statement below depends on the text of a node that the transformer
    has made or rebuilt. *)
Definition sourceFullText (n : Node) : FullText := HasText (sourceText n).

Definition transform : SourceFile -> Options -> Outcome :=
  visitSourceFile sourceText sourceFullText.

(* ------------------------------------------------------------------ *)
(** ** Folds over the children that [visitEachChild] visits *)

(** A visitor that only collects: the function-like nodes met. *)
Definition Gather (A : Type) : Type := (list Node * A)%type.

#[export] Instance Monad_Gather : Monad Gather := {
  ret := fun A (a : A) => ([], a);
  bind := fun A B (c : Gather A) (f : A -> Gather B) =>
    (fst c ++ fst (f (snd c)), snd (f (snd c)))
}.

(** A visitor that only tests: the conjunction of the answers. *)
Definition Every (A : Type) : Type := (bool * A)%type.

#[export] Instance Monad_Every : Monad Every := {
  ret := fun A (a : A) => (true, a);
  bind := fun A B (c : Every A) (f : A -> Every B) =>
    (fst c && fst (f (snd c)), snd (f (snd c)))
}.

Definition forallChildren (p : Node -> bool) (node : Node) : bool :=
  fst (visitEachChild (m := Every) (fun c => (p c, c)) node).

(** The outermost function-like nodes of a tree, in source order: the
    nested functions of a function body. *)
Fixpoint nestedFunctions (node : Node) {struct node} : list Node :=
  if isFunctionLike node then [node]
  else fst (visitEachChild (m := Gather)
              (fun c => (nestedFunctions c, c)) node).

Definition optionToList (o : option Node) : list Node :=
  match o with Some x => [x] | None => [] end.

(** The children of a node that [visitEachChild] offers to the visitor,
    in the order of the visit. *)
Definition children (node : Node) : list Node :=
  match node with
  | ClassDeclaration modifiers name typeParameters heritageClauses members =>
      modifiers ++ optionToList name ++ typeParameters ++ heritageClauses
        ++ members
  | PropertyDeclaration modifiers name _ type initializer =>
      modifiers ++ [name] ++ optionToList type ++ optionToList initializer
  | MethodDeclaration modifiers _ name _ typeParameters parameters type body =>
      modifiers ++ [name] ++ typeParameters ++ parameters
        ++ optionToList type ++ optionToList body
  | FunctionExpression modifiers _ name typeParameters parameters type body =>
      modifiers ++ optionToList name ++ typeParameters ++ parameters
        ++ optionToList type ++ [body]
  | ArrowFunction modifiers typeParameters parameters type _ body =>
      modifiers ++ typeParameters ++ parameters ++ optionToList type ++ [body]
  | ParameterDeclaration modifiers _ name _ type initializer =>
      modifiers ++ [name] ++ optionToList type ++ optionToList initializer
  | CallExpression expression typeArguments arguments =>
      [expression] ++ typeArguments ++ arguments
  | PropertyAccessExpression expression name => [expression; name]
  | AwaitExpression expression => [expression]
  | YieldExpression _ expression => optionToList expression
  | Decorator expression => [expression]
  | Identifier _ | UniqueName _ | StringLiteral _ | Token _ => []
  | TypeReferenceNode typeName typeArguments => [typeName] ++ typeArguments
  | ImportDeclaration modifiers importClause moduleSpecifier =>
      modifiers ++ optionToList importClause ++ [moduleSpecifier]
  | ImportClause _ name namedBindings =>
      optionToList name ++ optionToList namedBindings
  | NamespaceImport name => [name]
  | OtherNode _ childNodes => childNodes
  end.

Section Triggers.

Variable getText : Node -> string.

(** A call of an identifier that starts with [autoFlow]. *)
Definition isAutoFlowCall (node : Node) : bool :=
  match node with
  | CallExpression expression _ _ =>
      isIdentifier expression
      && JsString.startsWith (identifierText expression) autoFlow
  | _ => false
  end.

(** The node is one the visitor rewrites: a class with a modifier whose
    text includes [autoModel], a property or a method with [@autoFlow],
    a property with a child that is an [autoFlow] call. *)
Definition triggerAt (node : Node) : bool :=
  match node with
  | ClassDeclaration modifiers _ _ _ _ =>
      existsb (isAutoModelDecorator getText) modifiers
  | PropertyDeclaration modifiers _ _ _ _ =>
      hasDecorator modifiers autoFlow || existsb isAutoFlowCall (children node)
  | MethodDeclaration modifiers _ _ _ _ _ _ _ =>
      hasDecorator modifiers autoFlow
  | _ => false
  end.

(** No node of the tree is a trigger. *)
Fixpoint quiet (node : Node) {struct node} : bool :=
  negb (triggerAt node)
  && fst (visitEachChild (m := Every) (fun c => (quiet c, c)) node).

End Triggers.

(* ------------------------------------------------------------------ *)
(** ** Assertions on completions *)

(** From a state in [P], [c] completes normally in [Q] or throws in [E]. *)
Definition hoare {A : Type} (P : State -> Prop) (c : M A)
    (Q : A -> State -> Prop) (E : Exception -> Prop) : Prop :=
  forall s, P s ->
    match c s with
    | Normal a s' => Q a s'
    | Thrown e => E e
    end.

(** What a visitor guarantees on one node: from a state in [I] it returns
    a node related to the visited one by [R], in a state in [I], or throws
    in [E]. *)
Definition visits (E : Exception -> Prop) (I : State -> Prop)
    (R : Node -> Node -> Prop) (f : Node -> M Node) (c : Node) : Prop :=
  hoare I (f c) (fun c' s => R c c' /\ I s) E.

Definition optionRel (R : Node -> Node -> Prop) (o o' : option Node) : Prop :=
  match o, o' with
  | Some x, Some x' => R x x'
  | None, None => True
  | _, _ => False
  end.

(** The visit returns the node as it is: nothing rewritten in it. *)
Definition same (c c' : Node) : Prop := c' = c.

(** A visitor that returns the node and leaves the state. *)
Definition leaves (f : Node -> M Node) (c : Node) : Prop :=
  forall s, f c s = Normal c s.

(** The invariant of a visit that rewrites nothing: no name is pushed and
    the flag keeps its value. *)
Definition untouched (b : bool) (s : State) : Prop :=
  functionsToAddDecoratorsTo s = [] /\ transformed s = b.

(** The error of line 155. *)
Definition unresolvedProperty : Exception :=
  Error (errorMessage "Could not resolve property declaration").

Definition otherError (e : Exception) : Prop := e <> unresolvedProperty.

(** The completion is the throw of line 155. *)
Definition throwsUnresolvedProperty {A : Type} (c : Completion A) : bool :=
  match c with
  | Thrown (Error message) =>
      String.eqb message (errorMessage "Could not resolve property declaration")
  | _ => false
  end.

Definition outcomeCompletion (o : Outcome) : Completion SourceFile :=
  match o with
  | Returns file => Normal file initialState
  | Throws e => Thrown e
  end.

(** A completion that is a throw. *)
Definition throws {A : Type} (c : Completion A) : Prop :=
  match c with
  | Normal _ _ => False
  | Thrown _ => True
  end.

(** The modifiers that the [reduce] of [ensureDecorators] keeps. *)
Definition keptModifier (x : Node) : bool :=
  negb (isAsyncKeyword x) && negb (isSpecificDecorator x autoFlow).

(** The adapter call that [transformFunction] returns for [fn]. *)
Definition flowCall (getText : Node -> string) (fn asyncIdentifier : Node)
    (className : string) (body : Node) : Node :=
  CallExpression asyncIdentifier []
    [FunctionExpression [] (Some (Token SyntaxKind.AsteriskToken)) None []
       (match find (fun x =>
                      match parameterName x with
                      | Some name => String.eqb (getText name) "this"
                      | None => false
                      end) (fnParameters fn) with
        | Some _ => []
        | None =>
            [ParameterDeclaration [] None (Identifier "this") None
               (Some (TypeReferenceNode (Identifier className) [])) None]
        end ++ fnParameters fn) None body].

(** A decorator written as a call or as a property access. *)
Definition isCallOrAccessDecorator (x : Node) : bool :=
  match x with
  | Decorator (CallExpression _ _ _)
  | Decorator (PropertyAccessExpression _ _) => true
  | _ => false
  end.

(** The wrapper-call path of a property is idle: no child is an
    [autoFlow] call and the name was not pushed. *)
Definition wrapperPathIdle (getText : Node -> string) (decl : Node)
    (s : State) : bool :=
  match decl with
  | PropertyDeclaration _ name _ _ _ =>
      negb (existsb isAutoFlowCall (children decl))
      && negb (JsString.arrayIncludes (functionsToAddDecoratorsTo s)
                 (getText name))
  | _ => true
  end.

(* ------------------------------------------------------------------ *)
(** ** Example units *)

Module Examples.

Definition asyncKeyword : Node := Token SyntaxKind.AsyncKeyword.
Definition arrowToken : Node := Token SyntaxKind.EqualsGreaterThanToken.
Definition asterisk : Node := Token SyntaxKind.AsteriskToken.

Definition parameter (x : string) : Node :=
  ParameterDeclaration [] None (Identifier x) None None None.

(** [this: className] *)
Definition thisParameter (className : string) : Node :=
  ParameterDeclaration [] None (Identifier "this") None
    (Some (TypeReferenceNode (Identifier className) [])) None.

Definition block (stmts : list Node) : Node :=
  OtherNode SyntaxKind.Block stmts.

Definition returnStatement (e : Node) : Node :=
  OtherNode SyntaxKind.ReturnStatement [e].

Definition expressionStatement (e : Node) : Node :=
  OtherNode SyntaxKind.ExpressionStatement [e].

(** [f(args)] *)
Definition call (f : string) (args : list Node) : Node :=
  CallExpression (Identifier f) [] args.

(** [@name] *)
Definition decorator (name : string) : Node := Decorator (Identifier name).

(** [async (params) => body] *)
Definition asyncArrow (params : list Node) (body : Node) : Node :=
  ArrowFunction [asyncKeyword] [] params None arrowToken body.

(** [(params) => body] *)
Definition plainArrow (params : list Node) (body : Node) : Node :=
  ArrowFunction [] [] params None arrowToken body.

(** [mods name = init] *)
Definition property (mods : list Node) (name : string) (init : Node) : Node :=
  PropertyDeclaration mods (Identifier name) None None (Some init).

(** [mods class name { members }] *)
Definition classDeclaration (mods : list Node) (name : string)
    (members : list Node) : Node :=
  ClassDeclaration mods (Some (Identifier name)) [] [] members.

(** [import * as mobxKs from 'package'] *)
Definition namespaceImport (package : string) : Node :=
  ImportDeclaration []
    (Some (ImportClause false None
             (Some (NamespaceImport mobxNamespaceImport))))
    (StringLiteral package).

(** [yield* mobxKs._await(e)] *)
Definition yieldAwait (e : Node) : Node :=
  YieldExpression (Some asterisk)
    (Some (CallExpression _awaitExpression [] [e])).

(** [mobxKs._async(function* (params) body)] *)
Definition asyncGenerator (params : list Node) (body : Node) : Node :=
  CallExpression _asyncExpression []
    [FunctionExpression [] (Some asterisk) None [] params None body].

(** [@mobxKs.model('name')] *)
Definition identityAnnotation (name : string) : Node :=
  Decorator (CallExpression modelExpression [] [StringLiteral name]).

(** [{ return await callApi(input); }] *)
Definition callApiBody : Node :=
  block [returnStatement
           (AwaitExpression (call "callApi" [Identifier "input"]))].

Definition emptyUnit : SourceFile := sourceUnit "x.ts" [].

(** A unit with no trigger: a class with a method decorated in call form
    and an await in it, and a property that is a call of another
    function. *)
Definition quietUnit : SourceFile :=
  sourceUnit "store.ts"
    [classDeclaration [Token SyntaxKind.ExportKeyword] "Store"
       [MethodDeclaration
          [Decorator (call "autoFlow" []); asyncKeyword] None
          (Identifier "load") None [] [] None
          (Some (block [returnStatement
                          (AwaitExpression (call "fetchAll" []))]));
        property [] "total" (call "compute" [Identifier "items"])]].

(** [@foo @autoFlow @modelFlow fn = async () => {}] *)
Definition annotatedProperty : Node :=
  property [decorator "foo"; decorator "autoFlow"; decorator "modelFlow"]
    "fn" (asyncArrow [] (block [])).

(** [@autoFlow async fn() {}] *)
Definition annotatedMethod : Node :=
  MethodDeclaration [decorator "autoFlow"; asyncKeyword] None
    (Identifier "fn") None [] [] None (Some (block [])).

(** [@autoModelLike class Test {}] *)
Definition lookalikeClass : Node :=
  classDeclaration [decorator "autoModelLike"] "Test" [].

(** [class Store { load = autoFlow(async () => {});
                   save = autoFlow(handler) }] *)
Definition unsupportedArgumentUnit : SourceFile :=
  sourceUnit "store.ts"
    [classDeclaration [] "Store"
       [property [] "load" (call "autoFlow" [asyncArrow [] (block [])]);
        property [] "save" (call "autoFlow" [Identifier "handler"])]].

(** [@autoFlow() async load() { return await fetchAll(); }] *)
Definition callFormMethod : Node :=
  MethodDeclaration [Decorator (call "autoFlow" []); asyncKeyword] None
    (Identifier "load") None [] [] None
    (Some (block [returnStatement (AwaitExpression (call "fetchAll" []))])).

(** [async () => await b()] *)
Definition nestedArrow : Node :=
  asyncArrow [] (AwaitExpression (call "b" [])).

(** [{ await a(); async () => await b(); }] *)
Definition outerBody : Node :=
  block [expressionStatement (AwaitExpression (call "a" []));
         expressionStatement nestedArrow].

(** [async () => { await a(); async () => await b(); }] *)
Definition outerArrow : Node := asyncArrow [] outerBody.

(** [() => {}] *)
Definition notAsync : Node := plainArrow [] (block []).

(** [@registered('autoModel') class Test {}] *)
Definition registeredClass : Node :=
  classDeclaration
    [Decorator (call "registered" [StringLiteral "autoModel"])] "Test" [].

(** [@autoFlow() fn = autoFlow(async () => {})] *)
Definition callFormWrapperProperty : Node :=
  property [Decorator (call "autoFlow" [])] "fn"
    (call "autoFlow" [asyncArrow [] (block [])]).

End Examples.

(* ------------------------------------------------------------------ *)
(** ** Notions for the properties of the visit as a whole *)

(** [node.kind].  The kinds of the nodes the transformer looks into,
    and the kind of a token or of an [OtherNode] as it is.  A generated
    unique name is an identifier. *)
Inductive NodeKind : Set :=
| ClassDeclarationKind | PropertyDeclarationKind | MethodDeclarationKind
| FunctionExpressionKind | ArrowFunctionKind | ParameterKind
| CallExpressionKind | PropertyAccessExpressionKind | AwaitExpressionKind
| YieldExpressionKind | DecoratorKind | IdentifierKind | StringLiteralKind
| TypeReferenceKind | ImportDeclarationKind | ImportClauseKind
| NamespaceImportKind
| TokenKind (k : SyntaxKind.t)
| OtherKind (k : SyntaxKind.t).

Definition kindOf (n : Node) : NodeKind :=
  match n with
  | ClassDeclaration _ _ _ _ _ => ClassDeclarationKind
  | PropertyDeclaration _ _ _ _ _ => PropertyDeclarationKind
  | MethodDeclaration _ _ _ _ _ _ _ _ => MethodDeclarationKind
  | FunctionExpression _ _ _ _ _ _ _ => FunctionExpressionKind
  | ArrowFunction _ _ _ _ _ _ => ArrowFunctionKind
  | ParameterDeclaration _ _ _ _ _ _ => ParameterKind
  | CallExpression _ _ _ => CallExpressionKind
  | PropertyAccessExpression _ _ => PropertyAccessExpressionKind
  | AwaitExpression _ => AwaitExpressionKind
  | YieldExpression _ _ => YieldExpressionKind
  | Decorator _ => DecoratorKind
  | Identifier _ | UniqueName _ => IdentifierKind
  | StringLiteral _ => StringLiteralKind
  | Token k => TokenKind k
  | TypeReferenceNode _ _ => TypeReferenceKind
  | ImportDeclaration _ _ _ => ImportDeclarationKind
  | ImportClause _ _ _ => ImportClauseKind
  | NamespaceImport _ => NamespaceImportKind
  | OtherNode k _ => OtherKind k
  end.

(** What a visit does to the kind of a node: it keeps it, or it turns a
    method with [@autoFlow] into a property. *)
Definition keepsKind (node node' : Node) : Prop :=
  kindOf node' = kindOf node
  \/ (kindOf node = MethodDeclarationKind
      /\ hasDecorator (nodeModifiers node) autoFlow = true
      /\ kindOf node' = PropertyDeclarationKind).

(** The closed-over variables only advance from [s] to [s']: a flag that
    is set stays set, and names are only pushed at the end of the list. *)
Definition advances (s s' : State) : Prop :=
  (transformed s = true -> transformed s' = true)
  /\ exists pushed,
       functionsToAddDecoratorsTo s'
       = functionsToAddDecoratorsTo s ++ pushed.

(** The node is a function that [transformFunction] accepts, or no
    function at all. *)
Definition safeFunction (fn : Node) : bool :=
  negb (isArrowFunction fn || isFunctionExpression fn) || isAsyncFunction fn.

(** A child of a property declaration on which the wrapper-call path
    does not throw: a call of an identifier that starts with [autoFlow]
    has a first argument, and an async one if it is a function. *)
Definition safeWrapperCall (node : Node) : bool :=
  match node with
  | CallExpression expression _ arguments =>
      if isIdentifier expression
         && JsString.startsWith (identifierText expression) autoFlow
      then match arguments with
           | [] => false
           | fn :: _ => safeFunction fn
           end
      else true
  | _ => true
  end.

(** The functions the visitor would convert at [node] are async: the
    first arguments of the wrapper calls among the children of a
    property, the function value of a property with [@autoFlow], a method
    with [@autoFlow] and a body. *)
Definition safeAt (node : Node) : bool :=
  match node with
  | PropertyDeclaration modifiers _ _ _ initializer =>
      forallb safeWrapperCall (children node)
      && (negb (hasDecorator modifiers autoFlow)
          || match initializer with
             | Some fn => safeFunction fn
             | None => true
             end)
  | MethodDeclaration modifiers _ _ _ _ _ _ (Some _) =>
      negb (hasDecorator modifiers autoFlow) || isAsyncFunction node
  | _ => true
  end.

(** Every node of the tree is safe. *)
Fixpoint noFailingSite (node : Node) {struct node} : bool :=
  safeAt node
  && fst (visitEachChild (m := Every) (fun c => (noFailingSite c, c)) node).

(** A visitor that returns [c] as it is and takes the state [s] to
    [g c s], from every state in [P], staying in [P]. *)
Definition stepsTo (P : State -> Prop) (g : Node -> State -> State)
    (f : Node -> M Node) (c : Node) : Prop :=
  forall s, P s -> f c s = Normal c (g c s) /\ P (g c s).

(** No await expression in the tree outside its function-like nodes:
    nothing for [replaceYieldAndCheckNested] to rewrite. *)
Fixpoint awaitFree (node : Node) {struct node} : bool :=
  if isFunctionLike node then true
  else negb (isAwaitExpression node)
       && fst (visitEachChild (m := Every) (fun c => (awaitFree c, c)) node).

(** The awaits outside the function-like nodes are flat: none of them has
    another one in its operand. *)
Fixpoint flatAwaits (node : Node) {struct node} : bool :=
  match node with
  | AwaitExpression expression => awaitFree expression
  | _ =>
      if isFunctionLike node then true
      else fst (visitEachChild (m := Every) (fun c => (flatAwaits c, c))
                  node)
  end.

(** The class declarations of a tree, in the order in which a visit of
    the tree meets them. *)
Fixpoint classDeclarations (node : Node) {struct node} : list Node :=
  (if isClassDeclaration node then [node] else [])
  ++ fst (visitEachChild (m := Gather)
            (fun c => (classDeclarations c, c)) node).

(** [ts.getNameOfDeclaration(node)?.getText() ?? ""] of a class. *)
Definition declaredName (getText : Node -> string) (node : Node) : string :=
  match node with
  | ClassDeclaration _ (Some n) _ _ _ => getText n
  | _ => ""
  end.

(** [className] after a visit of [node] that started with [c]: the name
    of the last class declaration met, if any. *)
Definition classNameAfter (getText : Node -> string) (node : Node)
    (c : string) : string :=
  last (map (declaredName getText) (classDeclarations node)) c.

(** No class declaration in the tree. *)
Definition noClassDeclaration (node : Node) : bool :=
  match classDeclarations node with
  | [] => true
  | _ :: _ => false
  end.

(** ** More example units *)

Module Scenarios.

Import Examples.

(** [class Outer { helper() { class Inner {} } }] *)
Definition outerWithInner : Node :=
  classDeclaration [] "Outer"
    [MethodDeclaration [] None (Identifier "helper") None [] [] None
       (Some (block [classDeclaration [] "Inner" []]))].

(** [class Outer { helper() { class Inner {} }
                   load = autoFlow(async () => {}) }] *)
Definition outerWithInnerAndFlow : Node :=
  classDeclaration [] "Outer"
    [MethodDeclaration [] None (Identifier "helper") None [] [] None
       (Some (block [classDeclaration [] "Inner" []]));
     property [] "load" (call "autoFlow" [asyncArrow [] (block [])])].

(** [load = autoFlow()] *)
Definition wrapperWithoutArgument : Node :=
  property [] "load" (call "autoFlow" []).

(** [load = 5]: a property that asks for nothing. *)
Definition plainLoad : Node :=
  property [] "load" (OtherNode SyntaxKind.NumericLiteral []).

(** [class A { load = autoFlow(async () => {}) }  class B { load = 5 }] *)
Definition sameNameUnit : SourceFile :=
  sourceUnit "stores.ts"
    [classDeclaration [] "A"
       [property [] "load" (call "autoFlow" [asyncArrow [] (block [])])];
     classDeclaration [] "B" [plainLoad]].

(** [await f(await g())] *)
Definition awaitInOperand : Node :=
  AwaitExpression (call "f" [AwaitExpression (call "g" [])]).

(** [@autoFlow async load<T>(id): Result { return await fetchOne(id); }] *)
Definition typedMethod : Node :=
  MethodDeclaration [decorator "autoFlow"; asyncKeyword] None
    (Identifier "load") None
    [OtherNode SyntaxKind.TypeParameter [Identifier "T"]]
    [parameter "id"]
    (Some (TypeReferenceNode (Identifier "Result") []))
    (Some (block [returnStatement
                    (AwaitExpression (call "fetchOne" [Identifier "id"]))])).

(** [@autoFlow async *load() {}] *)
Definition generatorMethod : Node :=
  MethodDeclaration [decorator "autoFlow"; asyncKeyword] (Some asterisk)
    (Identifier "load") None [] [] None (Some (block [])).

(** [class Store { load = autoFlowAction<void>(async (id) => {}, 1) }] *)
Definition prefixCallUnit : SourceFile :=
  sourceUnit "store.ts"
    [classDeclaration [] "Store"
       [property [] "load"
          (CallExpression (Identifier "autoFlowAction")
             [OtherNode SyntaxKind.KeywordType []]
             [asyncArrow [parameter "id"] (block []);
              OtherNode SyntaxKind.NumericLiteral []])]].

(** [class { load = autoFlow(async () => {}) }] as an expression: a class
    expression is no class declaration. *)
Definition classExpressionWithFlow : Node :=
  OtherNode SyntaxKind.ClassExpression
    [property [] "load" (call "autoFlow" [asyncArrow [] (block [])])].

(** [fn = autoFlow(async (input) => { return await callApi(input); })] *)
Definition callApiProperty : Node :=
  property [] "fn"
    (call "autoFlow" [asyncArrow [parameter "input"] callApiBody]).

(** [class Store { fn = autoFlow(async (input) =>
    { return await callApi(input); }); save = autoFlow(() => {}) }] *)
Definition storeWithPlainFunction : SourceFile :=
  sourceUnit "x.ts"
    [classDeclaration [] "Store"
       [callApiProperty; property [] "save" (call "autoFlow" [notAsync])]].

(** [class Store { load = autoFlow(async () => { class Inner {
    fn = autoFlow(async (input) => { return await callApi(input); }) } }) }]
    *)
Definition storeWithInnerClass : SourceFile :=
  sourceUnit "x.ts"
    [classDeclaration [] "Store"
       [property [] "load"
          (call "autoFlow"
             [asyncArrow []
                (block [classDeclaration [] "Inner" [callApiProperty]])])]].

(** [const limit = 5; class Store { count = 5; fn = autoFlow(async (input)
    => { return await callApi(input); }); reset() {} }  export {}] *)
Definition storeUnit : SourceFile :=
  sourceUnit "x.ts"
    [OtherNode SyntaxKind.VariableStatement
       [OtherNode SyntaxKind.VariableDeclarationList
          [OtherNode SyntaxKind.VariableDeclaration
             [Identifier "limit"; OtherNode SyntaxKind.NumericLiteral []]]];
     classDeclaration [] "Store"
       [property [] "count" (OtherNode SyntaxKind.NumericLiteral []);
        callApiProperty;
        MethodDeclaration [] None (Identifier "reset") None [] [] None
          (Some (block []))];
     expressionStatement (Identifier "done")].

End Scenarios.

(* ================================================================== *)
(** * Properties *)

(** ** The nested induction principle, over [children] *)

Lemma list_all_Forall (P : Node -> Prop) (l : list Node) :
  list_all P l -> Forall P l.
Proof. induction 1; constructor; assumption. Qed.

Lemma option_all_Forall (P : Node -> Prop) (o : option Node) :
  option_all P o -> Forall P (optionToList o).
Proof. destruct 1; simpl; repeat constructor; assumption. Qed.

Create HintDb nodes.
#[local] Hint Resolve list_all_Forall option_all_Forall : nodes.

Lemma Node_children_ind (P : Node -> Prop) :
  (forall n, Forall P (children n) -> P n) -> forall n, P n.
Proof.
  intros step; induction n using Node_ind; apply step; simpl;
    repeat first [ apply Forall_nil
                 | apply Forall_cons; [assumption|]
                 | apply Forall_app; split ];
    auto with nodes.
Qed.

(** ** Rules for [hoare] *)

Section HoareRules.

Context {A B : Type}.
Variable E : Exception -> Prop.

Lemma hoare_ret (P : State -> Prop) (Q : A -> State -> Prop) (a : A) :
  (forall s, P s -> Q a s) -> hoare P (ret a) Q E.
Proof. intros H s Hs; simpl; auto. Qed.

Lemma hoare_bind (P : State -> Prop) (R : A -> State -> Prop)
    (Q : B -> State -> Prop) (c : M A) (k : A -> M B) :
  hoare P c R E -> (forall a, hoare (R a) (k a) Q E) ->
  hoare P (bind c k) Q E.
Proof.
  intros Hc Hk s Hs; simpl. specialize (Hc s Hs).
  destruct (c s) as [a s'|e]; [apply (Hk a s' Hc)|exact Hc].
Qed.

Lemma hoare_pure (phi : Prop) (P : State -> Prop)
    (Q : A -> State -> Prop) (c : M A) :
  (phi -> hoare P c Q E) -> hoare (fun s => phi /\ P s) c Q E.
Proof. intros H s [Hphi Hs]; exact (H Hphi s Hs). Qed.

Lemma hoare_weaken (P P' : State -> Prop) (Q Q' : A -> State -> Prop)
    (c : M A) :
  hoare P' c Q' E -> (forall s, P s -> P' s) ->
  (forall a s, Q' a s -> Q a s) -> hoare P c Q E.
Proof.
  intros H HP HQ s Hs. specialize (H s (HP s Hs)).
  destruct (c s); auto.
Qed.

Lemma hoare_ext (P : State -> Prop) (Q : A -> State -> Prop) (c c' : M A) :
  (forall s, c s = c' s) -> hoare P c' Q E -> hoare P c Q E.
Proof. intros Heq H s Hs; rewrite Heq; exact (H s Hs). Qed.

End HoareRules.

Section VisitRules.

Variable E : Exception -> Prop.
Variable I : State -> Prop.
Variable R : Node -> Node -> Prop.
Variable f : Node -> M Node.

Lemma hoare_visitNodes (l : list Node) :
  Forall (visits E I R f) l ->
  hoare I (visitNodes f l) (fun l' s => Forall2 R l l' /\ I s) E.
Proof.
  induction 1 as [|x l Hx Hl IH]; simpl.
  - apply hoare_ret; auto.
  - eapply hoare_bind; [exact Hx|]. intros x'; apply hoare_pure; intros Hxx'.
    eapply hoare_bind; [exact IH|]. intros l'; apply hoare_pure; intros Hll'.
    apply hoare_ret; auto.
Qed.

Lemma hoare_visitNode (o : option Node) :
  Forall (visits E I R f) (optionToList o) ->
  hoare I (visitNode f o) (fun o' s => optionRel R o o' /\ I s) E.
Proof.
  destruct o as [x|]; simpl; intros H.
  - inversion H; subst.
    eapply hoare_bind; [eassumption|]. intros x'; apply hoare_pure; intros.
    apply hoare_ret; simpl; auto.
  - apply hoare_ret; simpl; auto.
Qed.

Hypothesis R_eq : forall c c', R c c' -> c' = c.

Lemma Forall2_R_eq (l l' : list Node) : Forall2 R l l' -> l' = l.
Proof. induction 1; f_equal; auto. Qed.

Lemma optionRel_eq (o o' : option Node) : optionRel R o o' -> o' = o.
Proof. destruct o, o'; simpl; intros H; try contradiction; f_equal; auto. Qed.

End VisitRules.

Ltac split_children H :=
  repeat match type of H with
         | Forall _ (_ ++ _) =>
             let H1 := fresh H in
             apply Forall_app in H; destruct H as [H1 H]
         | Forall _ (_ :: _) =>
             let H1 := fresh H in
             apply Forall_cons_iff in H; destruct H as [H1 H]
         end.

Ltac visit_step :=
  match goal with
  | |- hoare _ (bind (visitNodes _ _) _) _ _ =>
      eapply hoare_bind; [eapply hoare_visitNodes; eassumption|];
      intros ?; apply hoare_pure; intros ?
  | |- hoare _ (bind (visitNode _ _) _) _ _ =>
      eapply hoare_bind; [eapply hoare_visitNode; eassumption|];
      intros ?; apply hoare_pure; intros ?
  | H : visits _ _ _ ?f ?x |- hoare _ (bind (?f ?x) _) _ _ =>
      eapply hoare_bind; [exact H|];
      intros ?; apply hoare_pure; intros ?
  end.

(** [visitEachChild] keeps what the visitor guarantees on every child;
    when the visitor returns every child as it is, so does the descent. *)
Lemma hoare_visitEachChild (E : Exception -> Prop) (I : State -> Prop)
    (R : Node -> Node -> Prop) (f : Node -> M Node) (n : Node) :
  Forall (visits E I R f) (children n) ->
  hoare I (visitEachChild f n)
    (fun n' s => ((forall c c', R c c' -> c' = c) -> n' = n) /\ I s) E.
Proof.
  intros H; destruct n; simpl in H; split_children H;
    cbv beta iota delta [visitEachChild];
    repeat visit_step; apply hoare_ret; intros s Hs; (split; [|exact Hs]);
    intros Heq;
    repeat match goal with
           | H : Forall2 R _ _ |- _ => apply (@Forall2_R_eq _ Heq) in H; subst
           | H : optionRel R _ _ |- _ => apply (@optionRel_eq _ Heq) in H; subst
           | H : R _ _ |- _ => apply Heq in H; subst
           end; reflexivity.
Qed.

Lemma visitEachChild_leaves (f : Node -> M Node) (node : Node) (s : State) :
  Forall (leaves f) (children node) ->
  visitEachChild f node s = Normal node s.
Proof.
  intros H.
  pose proof (@hoare_visitEachChild (fun _ => False) (fun s' => s' = s) same
                f node) as Hh.
  assert (Forall (visits (fun _ => False) (fun s' => s' = s) same f)
            (children node)) as Hv.
  { eapply Forall_impl; [|exact H]. intros c Hc s' ->. rewrite Hc.
    split; reflexivity. }
  specialize (Hh Hv s eq_refl).
  destruct (visitEachChild f node s) as [n' s'|e]; [|contradiction].
  destruct Hh as [Hn ->]. rewrite Hn; [reflexivity|]. unfold same; auto.
Qed.

Lemma visitNodes_leaves (f : Node -> M Node) (l : list Node) (s : State) :
  Forall (leaves f) l -> visitNodes f l s = Normal l s.
Proof.
  induction 1 as [|x l Hx Hl IH]; [reflexivity|].
  cbn [visitNodes bind ret Monad_M]. rewrite Hx.
  cbn [visitNodes] in IH. rewrite IH. reflexivity.
Qed.

Lemma visitNode_leaves (f : Node -> M Node) (o : option Node) (s : State) :
  Forall (leaves f) (optionToList o) -> visitNode f o s = Normal o s.
Proof.
  destruct o as [x|]; [|reflexivity]. intros H. inversion H; subst.
  cbn [visitNode bind ret Monad_M]. rewrite H2. reflexivity.
Qed.

(** ** Equations of the monad, pointwise in the state *)

Lemma bind_ext {A B : Type} (c c' : M A) (k k' : A -> M B) (s : State) :
  (forall s, c s = c' s) -> (forall a s, k a s = k' a s) ->
  bind c k s = bind c' k' s.
Proof.
  intros Hc Hk; simpl. rewrite Hc. destruct (c' s); auto.
Qed.

Lemma bind_assoc {A B C : Type} (c : M A) (f : A -> M B) (k : B -> M C)
    (s : State) :
  bind (bind c f) k s = bind c (fun a => bind (f a) k) s.
Proof. simpl. destruct (c s); reflexivity. Qed.

Lemma visitNodes_app (f : Node -> M Node) (l1 l2 : list Node) (s : State) :
  visitNodes f (l1 ++ l2) s
  = (l1' <- visitNodes f l1 ;; l2' <- visitNodes f l2 ;; ret (l1' ++ l2')) s.
Proof.
  revert s; induction l1 as [|x l1 IH]; intros s; cbn.
  - destruct (visitNodes f l2 s); reflexivity.
  - destruct (f x s) as [x' s'|e]; [|reflexivity].
    cbn in IH. rewrite IH.
    destruct (visitNodes f l1 s') as [l1' s''|e]; [|reflexivity].
    destruct (visitNodes f l2 s'') as [l2' s3|e]; reflexivity.
Qed.

Lemma bind_throws {A B : Type} (c : M A) (k : A -> M B) (s : State) :
  (forall a s', throws (k a s')) -> throws (bind c k s).
Proof. intros H. cbn. destruct (c s); [apply H|exact Logic.I]. Qed.

Lemma throws_bind {A B : Type} (c : M A) (k : A -> M B) (s : State) :
  throws (c s) -> throws (bind c k s).
Proof. cbn. destruct (c s); [contradiction|auto]. Qed.

(** ** The folds agree with [children] *)

Lemma every_visitNodes (p : Node -> bool) (l : list Node) :
  visitNodes (m := Every) (fun c => (p c, c)) l = (forallb p l, l).
Proof.
  induction l as [|x l IH]; [reflexivity|].
  cbn [visitNodes forallb]. cbn [visitNodes] in IH. rewrite IH.
  cbn. rewrite andb_true_r. reflexivity.
Qed.

Lemma every_visitNode (p : Node -> bool) (o : option Node) :
  visitNode (m := Every) (fun c => (p c, c)) o
  = (forallb p (optionToList o), o).
Proof. destruct o; cbn; rewrite ?andb_true_r; reflexivity. Qed.

Lemma forallChildren_children (p : Node -> bool) (node : Node) :
  forallChildren p node = forallb p (children node).
Proof.
  unfold forallChildren.
  destruct node; cbv beta iota delta [visitEachChild children];
    cbn [bind ret Monad_Every];
    rewrite ?every_visitNodes, ?every_visitNode;
    cbn [fst snd];
    repeat first [rewrite forallb_app | progress cbn [forallb app]];
    rewrite ?andb_true_r, ?andb_assoc; reflexivity.
Qed.

Lemma gather_visitNodes (g : Node -> list Node) (l : list Node) :
  visitNodes (m := Gather) (fun c => (g c, c)) l = (flat_map g l, l).
Proof.
  induction l as [|x l IH]; [reflexivity|].
  cbn [visitNodes flat_map]. cbn [visitNodes] in IH. rewrite IH.
  cbn. rewrite app_nil_r. reflexivity.
Qed.

Lemma gather_visitNode (g : Node -> list Node) (o : option Node) :
  visitNode (m := Gather) (fun c => (g c, c)) o
  = (flat_map g (optionToList o), o).
Proof. destruct o; cbn; rewrite ?app_nil_r; reflexivity. Qed.

Lemma gather_children (g : Node -> list Node) (node : Node) :
  fst (visitEachChild (m := Gather) (fun c => (g c, c)) node)
  = flat_map g (children node).
Proof.
  destruct node; cbv beta iota delta [visitEachChild children];
    cbn [bind ret Monad_Gather];
    rewrite ?gather_visitNodes, ?gather_visitNode;
    cbn [fst snd];
    repeat first [rewrite flat_map_app | progress cbn [flat_map app]];
    rewrite ?app_nil_r, ?app_assoc; reflexivity.
Qed.

Lemma nestedFunctions_unfold (node : Node) :
  nestedFunctions node
  = if isFunctionLike node then [node]
    else flat_map nestedFunctions (children node).
Proof. rewrite <- gather_children. destruct node; reflexivity. Qed.

Lemma id_visitNodes (f : Node -> Node) (l : list Node) :
  visitNodes (m := Id) f l = map f l.
Proof.
  induction l as [|x l IH]; [reflexivity|]. cbn in *. rewrite IH. reflexivity.
Qed.

Lemma id_visitNode (f : Node -> Node) (o : option Node) :
  optionToList (visitNode (m := Id) f o) = map f (optionToList o).
Proof. destruct o; reflexivity. Qed.

Lemma id_children (f : Node -> Node) (node : Node) :
  children (visitEachChild (m := Id) f node) = map f (children node).
Proof.
  destruct node; cbv beta iota delta [visitEachChild];
    cbn [bind ret Monad_Id children];
    rewrite ?id_visitNodes; rewrite ?map_app; rewrite ?id_visitNode;
    reflexivity.
Qed.

Lemma id_isFunctionLike (f : Node -> Node) (node : Node) :
  isFunctionLike (visitEachChild (m := Id) f node) = isFunctionLike node.
Proof. destruct node; reflexivity. Qed.

(** ** The rewrite of awaits *)

Lemma replaceYieldAndCheckNested_unfold (aw node : Node) :
  replaceYieldAndCheckNested aw node
  = match node with
    | AwaitExpression expression =>
        YieldExpression (Some (Token SyntaxKind.AsteriskToken))
          (Some (CallExpression aw [] [expression]))
    | _ =>
        if isFunctionLike node then node
        else visitEachChild (m := Id) (replaceYieldAndCheckNested aw) node
    end.
Proof. destruct node; reflexivity. Qed.

Lemma replaceYield_functionLike (aw node : Node) :
  isFunctionLike node = true -> replaceYieldAndCheckNested aw node = node.
Proof.
  intros H. rewrite replaceYieldAndCheckNested_unfold.
  destruct node; try discriminate H; try reflexivity.
  rewrite H. reflexivity.
Qed.

Lemma replaceYield_nestedFunctions (aw node : Node) :
  nestedFunctions aw = [] ->
  nestedFunctions (replaceYieldAndCheckNested aw node) = nestedFunctions node.
Proof.
  intros Haw. induction node as [node IH] using Node_children_ind.
  destruct (isFunctionLike node) eqn:Hfl.
  - rewrite replaceYield_functionLike by exact Hfl. reflexivity.
  - assert (Hdescent :
      nestedFunctions
        (visitEachChild (m := Id) (replaceYieldAndCheckNested aw) node)
      = nestedFunctions node).
    { rewrite (nestedFunctions_unfold node), nestedFunctions_unfold.
      rewrite id_isFunctionLike, Hfl, id_children.
      clear Hfl. induction IH as [|c l Hc Hl IHl]; [reflexivity|].
      cbn [map flat_map]. rewrite Hc, IHl. reflexivity. }
    rewrite replaceYieldAndCheckNested_unfold. rewrite Hfl.
    destruct node; try exact Hdescent.
    rewrite (nestedFunctions_unfold (AwaitExpression node)).
    rewrite nestedFunctions_unfold.
    cbn. rewrite Haw. cbn. rewrite !app_nil_r. reflexivity.
Qed.

Lemma nestedFunctions_functionLike (node : Node) :
  Forall (fun n => isFunctionLike n = true) (nestedFunctions node).
Proof.
  induction node as [node IH] using Node_children_ind.
  rewrite nestedFunctions_unfold.
  destruct (isFunctionLike node) eqn:Hfl; [repeat constructor; exact Hfl|].
  clear Hfl. induction IH as [|c l Hc Hl IHl]; [constructor|].
  cbn [flat_map]. apply Forall_app. split; assumption.
Qed.

(** ** The annotation normalizer *)

Lemma reduce_keptModifier (modifiers acc : list Node) :
  fold_left
    (fun acc x =>
       if isAsyncKeyword x then acc
       else if isSpecificDecorator x autoFlow then acc
       else acc ++ [x])
    modifiers acc
  = acc ++ filter keptModifier modifiers.
Proof.
  revert acc; induction modifiers as [|x l IH]; intros acc;
    cbn [fold_left filter].
  - rewrite app_nil_r; reflexivity.
  - rewrite IH. unfold keptModifier at 2.
    destruct (isAsyncKeyword x); [reflexivity|].
    destruct (isSpecificDecorator x autoFlow); cbn [negb andb];
      [reflexivity|]. rewrite <- app_assoc. reflexivity.
Qed.

Lemma ensureDecorators_eq (modifiers : list Node) (e : Node) :
  ensureDecorators modifiers e
  = if hasDecorator (filter keptModifier modifiers) modelFlow
    then filter keptModifier modifiers
    else Decorator e :: filter keptModifier modifiers.
Proof.
  unfold ensureDecorators. rewrite reduce_keptModifier. cbn [app].
  destruct (hasDecorator _ modelFlow); reflexivity.
Qed.

Lemma hasDecorator_existsb (l : list Node) (name : string) :
  hasDecorator l name = existsb (fun x => isSpecificDecorator x name) l.
Proof.
  unfold hasDecorator. induction l as [|x l IH]; [reflexivity|].
  cbn [filter existsb]. destruct (isSpecificDecorator x name); [reflexivity|].
  exact IH.
Qed.

Lemma existsb_filter (p q : Node -> bool) (l : list Node) :
  existsb p (filter q l) = existsb (fun x => p x && q x) l.
Proof.
  induction l as [|x l IH]; [reflexivity|]. cbn [filter existsb].
  destruct (q x); cbn [existsb]; rewrite IH, ?andb_true_r, ?andb_false_r;
    reflexivity.
Qed.

Lemma hasDecorator_kept_modelFlow (modifiers : list Node) :
  hasDecorator (filter keptModifier modifiers) modelFlow
  = hasDecorator modifiers modelFlow.
Proof.
  rewrite !hasDecorator_existsb, existsb_filter.
  induction modifiers as [|x l IH]; [reflexivity|]. cbn [existsb].
  rewrite IH. f_equal.
  destruct x; try reflexivity. unfold keptModifier. cbn.
  destruct (isIdentifier x); [|reflexivity]. cbn.
  destruct (String.eqb_spec (identifierText x) modelFlow) as [->|];
    reflexivity.
Qed.

Lemma hasDecorator_kept_autoFlow (modifiers : list Node) :
  hasDecorator (filter keptModifier modifiers) autoFlow = false.
Proof.
  rewrite hasDecorator_existsb, existsb_filter.
  induction modifiers as [|x l IH]; [reflexivity|]. cbn [existsb].
  rewrite IH, orb_false_r. unfold keptModifier.
  destruct (isSpecificDecorator x autoFlow); cbn;
    rewrite ?andb_false_r; reflexivity.
Qed.

Lemma async_kept (modifiers : list Node) :
  existsb isAsyncKeyword (filter keptModifier modifiers) = false.
Proof.
  rewrite existsb_filter.
  induction modifiers as [|x l IH]; [reflexivity|]. cbn [existsb].
  rewrite IH, orb_false_r. unfold keptModifier.
  destruct (isAsyncKeyword x); reflexivity.
Qed.

(** What [ensureDecorators] guarantees with the flow reference of the
    namespace import. *)
Lemma ensureDecorators_spec (modifiers : list Node) :
  let res := ensureDecorators modifiers modelFlowExpression in
  hasDecorator res autoFlow = false
  /\ existsb isAsyncKeyword res = false
  /\ (hasDecorator modifiers modelFlow = false ->
      res = Decorator modelFlowExpression :: filter keptModifier modifiers)
  /\ (hasDecorator modifiers modelFlow = true ->
      res = filter keptModifier modifiers).
Proof.
  cbv zeta. rewrite ensureDecorators_eq, hasDecorator_kept_modelFlow.
  destruct (hasDecorator modifiers modelFlow).
  - repeat split; try discriminate;
      auto using hasDecorator_kept_autoFlow, async_kept.
  - repeat split; try discriminate.
    + rewrite hasDecorator_existsb. cbn [existsb].
      rewrite <- hasDecorator_existsb, hasDecorator_kept_autoFlow.
      reflexivity.
    + cbn [existsb]. rewrite async_kept. reflexivity.
Qed.

Lemma filter_keptModifier_idem (modifiers : list Node) :
  filter keptModifier (filter keptModifier modifiers)
  = filter keptModifier modifiers.
Proof.
  induction modifiers as [|x l IH]; [reflexivity|]. cbn [filter].
  destruct (keptModifier x) eqn:Hx; [|exact IH].
  cbn [filter]. rewrite Hx, IH. reflexivity.
Qed.

(** A second run changes nothing when a bare [@modelFlow] is there. *)
Lemma ensureDecorators_idempotent_present (modifiers : list Node) (e : Node) :
  hasDecorator modifiers modelFlow = true ->
  ensureDecorators (ensureDecorators modifiers e) e
  = ensureDecorators modifiers e.
Proof.
  intros H. rewrite (ensureDecorators_eq modifiers).
  rewrite hasDecorator_kept_modelFlow, H.
  rewrite ensureDecorators_eq, filter_keptModifier_idem.
  rewrite hasDecorator_kept_modelFlow, H. reflexivity.
Qed.

Lemma isSpecificDecorator_bare (x : Node) (name : string) :
  isSpecificDecorator x name = true ->
  exists e, x = Decorator e /\ isIdentifier e = true
            /\ identifierText e = name.
Proof.
  destruct x; try discriminate. cbn. intros H.
  apply andb_prop in H. destruct H as [Hid Heq].
  apply String.eqb_eq in Heq. eauto.
Qed.

Lemma isSpecificDecorator_call_or_access (x : Node) (name : string) :
  isCallOrAccessDecorator x = true -> isSpecificDecorator x name = false.
Proof.
  destruct x; try discriminate. destruct x; try discriminate; reflexivity.
Qed.

Lemma hasDecorator_no_bare (modifiers : list Node) (name : string) :
  forallb (fun x => isCallOrAccessDecorator x
                    || negb (isSpecificDecorator x name))
    modifiers = true ->
  hasDecorator modifiers name = false.
Proof.
  intros H. rewrite hasDecorator_existsb.
  induction modifiers as [|x l IH]; [reflexivity|].
  cbn [forallb] in H. apply andb_prop in H. destruct H as [Hx Hl].
  cbn [existsb]. rewrite (IH Hl), orb_false_r.
  apply orb_prop in Hx. destruct Hx as [Hx|Hx].
  - apply isSpecificDecorator_call_or_access. exact Hx.
  - apply negb_true_iff. exact Hx.
Qed.

Lemma existsb_app_false (p : Node -> bool) (l1 l2 : list Node) :
  existsb p (l1 ++ l2) = false ->
  existsb p l1 = false /\ existsb p l2 = false.
Proof. rewrite existsb_app. apply orb_false_iff. Qed.

Lemma arrayIncludes_snoc (xs : list string) (x : string) :
  JsString.arrayIncludes (xs ++ [x]) x = true.
Proof.
  unfold JsString.arrayIncludes. rewrite existsb_app. cbn [existsb].
  rewrite String.eqb_refl, orb_true_r. reflexivity.
Qed.

(** ** The function wrapper *)

Lemma function_not_autoFlowCall (fn : Node) :
  isArrowFunction fn || isFunctionExpression fn = true ->
  isAutoFlowCall fn = false.
Proof. destruct fn; try discriminate; reflexivity. Qed.

Lemma isAsyncFunction_createNewFunctionBlock (fn aw : Node) :
  isAsyncFunction (createNewFunctionBlock fn aw) = isAsyncFunction fn.
Proof. destruct fn; reflexivity. Qed.

Lemma not_async_without_keyword (fn : Node) :
  existsb isAsyncKeyword (nodeModifiers fn) = false ->
  isAsyncFunction fn = false.
Proof.
  destruct fn; try reflexivity; cbn; intros ->; try reflexivity.
  destruct body; reflexivity.
Qed.

Section VisitorFacts.

Variable getText : Node -> string.
Variable getFullText : Node -> FullText.
Variable options : Options.
Variable resSource : SourceFile.

#[local] Abbreviation v := (visitor getText getFullText options resSource).
#[local] Abbreviation md := (modelDecorator options resSource).
#[local] Abbreviation isAM := (isAutoModelDecorator getText).

Lemma transformFunction_async (fn asyncIdentifier : Node) (c : string)
    (s : State) :
  isArrowFunction fn || isFunctionExpression fn = true ->
  isAsyncFunction fn = true ->
  exists body,
    fnBody fn = Some body /\
    transformFunction getText getFullText fn asyncIdentifier c s
    = Normal (flowCall getText fn asyncIdentifier c body) s.
Proof.
  intros Hfn Hasync. unfold transformFunction. rewrite Hasync. cbn [negb].
  destruct fn; try discriminate Hfn; cbn [fnBody]; eexists;
    (split; [reflexivity|]); reflexivity.
Qed.

Lemma transformFunction_not_async (fn asyncIdentifier : Node) (c : string)
    (s : State) :
  isAsyncFunction fn = false ->
  transformFunction getText getFullText fn asyncIdentifier c s
  = Thrown
      match getFullText fn with
      | HasText text =>
          Error (errorMessage
            ("Could not resolve expression as async function: " ++ text))
      | NoText failure => textFailureException failure
      end.
Proof.
  intros H. unfold transformFunction. rewrite H. cbn [negb].
  destruct (getFullText fn); reflexivity.
Qed.

(** *** [visitor] and its body *)

(** A visit leaves the model decorator as it is. *)
Lemma visitor_modelDecorator (s : State) : v md s = Normal md s.
Proof. reflexivity. Qed.

Lemma visitNodes_snoc_modelDecorator (l : list Node) (s : State) :
  visitNodes v (l ++ [md]) s
  = (l' <- visitNodes v l ;; ret (l' ++ [md])) s.
Proof.
  rewrite visitNodes_app. apply bind_ext; [reflexivity|].
  intros l' s'. reflexivity.
Qed.

Lemma visitKept_eq (modifiers : list Node) (s : State) :
  (fix visitKept (l : list Node) : M (list Node) :=
     match l with
     | [] => ret []
     | x :: xs =>
         if isAM x then visitNodes v xs
         else x' <- v x ;; xs' <- visitKept xs ;; ret (x' :: xs')
     end) modifiers s
  = visitNodes v (filterOutFound isAM modifiers) s.
Proof.
  revert s; induction modifiers as [|x xs IH]; intros s; [reflexivity|].
  cbn [filterOutFound]. destruct (isAM x); [reflexivity|].
  cbn [visitNodes]. apply bind_ext; [reflexivity|]. intros x' s1.
  apply bind_ext; [exact IH|]. reflexivity.
Qed.

(** [visitor] on a class, with the children of the updated class. *)
Lemma visitor_class (modifiers : list Node) (name : option Node)
    (typeParameters heritageClauses members : list Node) (s : State) :
  v (ClassDeclaration modifiers name typeParameters heritageClauses members) s
  = (setClassName (match name with Some n => getText n | None => "" end) ;;
     match find isAM modifiers with
     | Some _ =>
         setTransformed true ;;
         visitEachChild v
           (ClassDeclaration (filterOutFound isAM modifiers ++ [md]) name
              typeParameters heritageClauses members)
     | None =>
         visitEachChild v
           (ClassDeclaration modifiers name typeParameters heritageClauses
              members)
     end) s.
Proof.
  cbn [visitor]. apply bind_ext; [reflexivity|]. intros _ s1.
  destruct (find isAM modifiers) eqn:Hfind; [|reflexivity].
  apply bind_ext; [reflexivity|]. intros _ s2.
  cbv beta iota delta [visitEachChild].
  etransitivity;
    [|symmetry; apply bind_ext;
       [intros; apply visitNodes_snoc_modelDecorator|reflexivity]].
  rewrite bind_assoc.
  apply bind_ext; [apply visitKept_eq|]. reflexivity.
Qed.

(** [visitor] satisfies the equation of the source: it is its body applied
    to itself. *)
Theorem visitor_unfold (node : Node) (s : State) :
  v node s = visitorBody getText getFullText options resSource v node s.
Proof.
  destruct node; try reflexivity.
  - rewrite visitor_class. unfold visitorBody.
    cbn [visitClassDeclaration]. rewrite bind_assoc.
    apply bind_ext; [reflexivity|]. intros _ s1.
    destruct (find isAM modifiers).
    + rewrite bind_assoc. apply bind_ext; [reflexivity|]. intros _ s2.
      reflexivity.
    + reflexivity.
  - unfold visitorBody.
    destruct body as [b|]; [|reflexivity].
    cbn. destruct (hasDecorator modifiers autoFlow) eqn:Hdec; cbn;
      rewrite ?Hdec; [|reflexivity].
    destruct (transformFunction _ _ _ _ _ _); reflexivity.
Qed.

(** *** No visit throws the error of the unresolved property *)

#[local] Abbreviation noUnresolved c :=
  (hoare (fun _ => True) c (fun _ _ => True) otherError).

Lemma transformFunction_state (fn asyncIdentifier : Node) (c : string)
    (s : State) :
  match transformFunction getText getFullText fn asyncIdentifier c s with
  | Normal _ s' => s' = s
  | Thrown e => otherError e
  end.
Proof.
  unfold transformFunction.
  destruct (negb (isAsyncFunction fn)).
  - destruct (getFullText fn) as [text|[]]; cbn;
      unfold otherError, unresolvedProperty, errorMessage; discriminate.
  - destruct (fnBody fn); cbn; [reflexivity|discriminate].
Qed.

Lemma transformFunction_other (fn asyncIdentifier : Node) (c : string) :
  noUnresolved (transformFunction getText getFullText fn asyncIdentifier c).
Proof.
  intros s _. pose proof (transformFunction_state fn asyncIdentifier c s) as H.
  destruct (transformFunction _ _ _ _ _ _); auto.
Qed.

Lemma visitPropertyChild_other (parent node : Node) :
  noUnresolved (visitPropertyChild getText getFullText parent node).
Proof.
  destruct node; try (apply hoare_ret; auto).
  cbn [visitPropertyChild].
  destruct (isIdentifier node && _); [|apply hoare_ret; auto].
  eapply hoare_bind with (R := fun _ _ => True).
  { destruct parent; intros s _; exact Logic.I. }
  intros _. destruct arguments as [|fn args].
  { intros s _; cbn. discriminate. }
  destruct (isArrowFunction fn || isFunctionExpression fn);
    [|apply hoare_ret; auto].
  eapply hoare_bind with (R := fun _ _ => True); [intros s _; exact Logic.I|].
  intros _. eapply hoare_bind with (R := fun _ _ => True);
    [intros s _; exact Logic.I|].
  intros s1. apply transformFunction_other.
Qed.

Lemma addDecorator_other (newNode : option Node) :
  noUnresolved (addDecorator getText newNode).
Proof.
  destruct newNode as [[]|]; try (apply hoare_ret; auto).
  intros s _; cbn.
  destruct (JsString.arrayIncludes _ _); exact Logic.I.
Qed.

Lemma visitDecoratedProperty_other (node : Node) :
  noUnresolved (visitDecoratedProperty getText getFullText node).
Proof.
  destruct node; try (apply hoare_ret; auto).
  destruct initializer as [fn|]; [|apply hoare_ret; auto].
  cbn [visitDecoratedProperty].
  destruct (hasDecorator modifiers autoFlow); [|apply hoare_ret; auto].
  destruct (isArrowFunction fn || isFunctionExpression fn);
    [|apply hoare_ret; auto].
  eapply hoare_bind with (R := fun _ _ => True); [intros s _; exact Logic.I|].
  intros _. eapply hoare_bind with (R := fun _ _ => True);
    [intros s _; exact Logic.I|].
  intros s1. eapply hoare_bind; [apply transformFunction_other|].
  intros fn'. apply hoare_ret; auto.
Qed.

Lemma Forall_filterOutFound (P : Node -> Prop) (p : Node -> bool)
    (l : list Node) :
  Forall P l -> Forall P (filterOutFound p l).
Proof.
  induction 1 as [|x l Hx Hl IH]; simpl; [constructor|].
  destruct (p x); [assumption|constructor; assumption].
Qed.

Lemma visitor_other (node : Node) : noUnresolved (v node).
Proof.
  induction node as [node IH] using Node_children_ind.
  assert (Hdescent : noUnresolved (visitEachChild v node)).
  { eapply hoare_weaken;
      [apply (@hoare_visitEachChild otherError (fun _ => True)
                (fun _ _ => True) v node)| |]; auto.
    eapply Forall_impl; [|exact IH]. intros c Hc.
    eapply hoare_weaken; [exact Hc| |]; auto. }
  assert (Hsteps : noUnresolved
    (newNode <- (if isPropertyDeclaration node
                 then n <- visitEachChild
                             (visitPropertyChild getText getFullText node)
                             node ;;
                      ret (Some n)
                 else ret None) ;;
     returned <- addDecorator getText newNode ;;
     match returned with
     | Some result => ret result
     | None =>
         returned <- visitDecoratedProperty getText getFullText
                       (methodToProperty node) ;;
         match returned with
         | Some result => ret result
         | None => visitEachChild v node
         end
     end)).
  { eapply hoare_bind with (R := fun _ _ => True).
    - destruct (isPropertyDeclaration node); [|apply hoare_ret; auto].
      eapply hoare_bind with (R := fun _ _ => True);
        [|intros; apply hoare_ret; auto].
      eapply hoare_weaken;
        [apply (@hoare_visitEachChild otherError (fun _ => True)
                  (fun _ _ => True) _ node)| |]; auto.
      apply Forall_forall. intros c _.
      eapply hoare_weaken; [apply visitPropertyChild_other| |]; auto.
    - intros newNode.
      eapply hoare_bind; [apply addDecorator_other|].
      intros [r|]; [apply hoare_ret; auto|].
      eapply hoare_bind; [apply visitDecoratedProperty_other|].
      intros [r|]; [apply hoare_ret; auto|exact Hdescent]. }
  destruct node; try exact Hdescent; try exact Hsteps.
  eapply hoare_ext; [apply visitor_class|].
  eapply hoare_bind with (R := fun _ _ => True); [intros s _; exact Logic.I|].
  intros _.
  destruct (find isAM modifiers); [|exact Hdescent].
  eapply hoare_bind with (R := fun _ _ => True); [intros s _; exact Logic.I|].
  intros _.
  eapply hoare_weaken;
    [apply (@hoare_visitEachChild otherError (fun _ => True)
              (fun _ _ => True) v)| |]; auto.
  cbn [children] in *.
  apply Forall_app in IH; destruct IH as [IHm IH].
  apply Forall_app; split; [apply Forall_app; split|].
  - eapply Forall_impl; [|apply Forall_filterOutFound; exact IHm].
    intros c Hc. eapply hoare_weaken; [exact Hc| |]; auto.
  - constructor; [|constructor]. intros s _; cbn. auto.
  - eapply Forall_impl; [|exact IH].
    intros c Hc. eapply hoare_weaken; [exact Hc| |]; auto.
Qed.

(** *** A quiet tree is returned as it is *)

Lemma quiet_unfold (node : Node) :
  quiet getText node
  = negb (triggerAt getText node)
    && forallb (quiet getText) (children node).
Proof.
  rewrite <- forallChildren_children. destruct node; reflexivity.
Qed.

Lemma find_existsb_false (p : Node -> bool) (l : list Node) :
  existsb p l = false -> find p l = None.
Proof.
  induction l as [|x l IH]; simpl; [reflexivity|].
  destruct (p x); simpl; [discriminate|exact IH].
Qed.

Lemma visitPropertyChild_other_node (parent node : Node) (s : State) :
  isAutoFlowCall node = false ->
  visitPropertyChild getText getFullText parent node s = Normal node s.
Proof.
  destruct node; try reflexivity. cbn. intros ->. reflexivity.
Qed.

Lemma visitPropertyChild_leaves (parent : Node) (l : list Node) :
  existsb isAutoFlowCall l = false ->
  Forall (leaves (visitPropertyChild getText getFullText parent)) l.
Proof.
  intros H. apply Forall_forall. intros c Hc s.
  apply visitPropertyChild_other_node.
  rewrite <- not_true_iff_false. intros Hcc.
  rewrite <- not_true_iff_false in H. apply H.
  apply existsb_exists. exists c; auto.
Qed.

(** The visit of the children of a property none of which is an
    [autoFlow] call. *)
Lemma visit_children_plain (modifiers : list Node) (name : Node)
    (token type initializer : option Node) (s : State) :
  existsb isAutoFlowCall
    (children (PropertyDeclaration modifiers name token type initializer))
  = false ->
  visitEachChild
    (visitPropertyChild getText getFullText
       (PropertyDeclaration modifiers name token type initializer))
    (PropertyDeclaration modifiers name token type initializer) s
  = Normal (PropertyDeclaration modifiers name token type initializer) s.
Proof.
  intros H. apply visitEachChild_leaves.
  apply visitPropertyChild_leaves. exact H.
Qed.

(** [visitor] on such a property: the decorator step, then the decorated
    step. *)
Lemma visitor_plain_property (modifiers : list Node) (name : Node)
    (token type initializer : option Node) (s : State) :
  existsb isAutoFlowCall
    (children (PropertyDeclaration modifiers name token type initializer))
  = false ->
  v (PropertyDeclaration modifiers name token type initializer) s
  = if JsString.arrayIncludes (functionsToAddDecoratorsTo s) (getText name)
    then Normal (PropertyDeclaration
                   (ensureDecorators modifiers modelFlowExpression)
                   name (propertyQuestionToken token) type initializer) s
    else (returned <- visitDecoratedProperty getText getFullText
                        (PropertyDeclaration modifiers name token type
                           initializer) ;;
          match returned with
          | Some result => ret result
          | None =>
              visitEachChild v
                (PropertyDeclaration modifiers name token type initializer)
          end) s.
Proof.
  intros H. cbn [visitor isPropertyDeclaration]. cbn [bind Monad_M].
  rewrite (visit_children_plain modifiers name token type initializer s H).
  cbn. destruct (JsString.arrayIncludes _ _); reflexivity.
Qed.

Lemma visitor_quiet (b : bool) (node : Node) :
  quiet getText node = true ->
  visits (fun _ => False) (untouched b) same v node.
Proof.
  induction node as [node IH] using Node_children_ind.
  rewrite quiet_unfold. intros Hq.
  apply andb_prop in Hq; destruct Hq as [Htrigger Hchildren].
  apply negb_true_iff in Htrigger.
  assert (Hvisits : Forall (visits (fun _ => False) (untouched b) same v)
                      (children node)).
  { rewrite forallb_forall in Hchildren. rewrite Forall_forall in *.
    intros c Hc. apply IH; auto. }
  assert (Hdesc : hoare (untouched b) (visitEachChild v node)
            (fun n' s => same node n' /\ untouched b s) (fun _ => False)).
  { eapply hoare_weaken; [apply hoare_visitEachChild; exact Hvisits|auto|].
    intros a s [Ha Hs]; split; [apply Ha; auto|exact Hs]. }
  destruct node; try exact Hdesc.
  - (* class *)
    eapply hoare_ext; [apply visitor_class|].
    eapply hoare_bind with (R := fun _ s => untouched b s).
    { intros s Hs; exact Hs. }
    intros _. cbn [triggerAt] in Htrigger.
    rewrite (find_existsb_false _ _ Htrigger). exact Hdesc.
  - (* property *)
    cbn [triggerAt] in Htrigger. apply orb_false_iff in Htrigger.
    destruct Htrigger as [Hdec Hcall].
    intros s Hs. rewrite visitor_plain_property by exact Hcall.
    destruct Hs as [Hl Ht]. rewrite Hl. cbn [JsString.arrayIncludes existsb].
    assert (Hnone : visitDecoratedProperty getText getFullText
                      (PropertyDeclaration modifiers node
                         questionOrExclamationToken type initializer) s
                    = Normal None s).
    { cbn [visitDecoratedProperty]. rewrite Hdec.
      destruct initializer; reflexivity. }
    cbn [bind Monad_M]. rewrite Hnone. apply Hdesc. split; assumption.
  - (* method *)
    cbn [triggerAt] in Htrigger.
    assert (Hsame : methodToProperty
              (MethodDeclaration modifiers asteriskToken node questionToken
                 typeParameters parameters type body)
            = MethodDeclaration modifiers asteriskToken node questionToken
                 typeParameters parameters type body).
    { cbn. rewrite Htrigger. destruct body; reflexivity. }
    intros s Hs. cbn [visitor isPropertyDeclaration]. rewrite Hsame.
    apply Hdesc. exact Hs.
Qed.

End VisitorFacts.

(* ================================================================== *)
(** * Invariants of a visit *)

(** ** The kinds of the nodes a descent returns *)

Lemma hoare_conj {A : Type} (P : State -> Prop) (c : M A)
    (Q Q' : A -> State -> Prop) (E E' : Exception -> Prop) :
  hoare P c Q E -> hoare P c Q' E' ->
  hoare P c (fun a s => Q a s /\ Q' a s) (fun e => E e /\ E' e).
Proof.
  intros H H' s Hs. specialize (H s Hs). specialize (H' s Hs).
  destruct (c s); auto.
Qed.

Lemma hoare_always {A B : Type} (c : M A) (k : A -> M B)
    (Q : B -> State -> Prop) :
  (forall a, hoare (fun _ => True) (k a) Q (fun _ => True)) ->
  hoare (fun _ => True) (bind c k) Q (fun _ => True).
Proof.
  intros H. eapply hoare_bind with (R := fun _ _ => True); [|exact H].
  intros s _. destruct (c s); exact Logic.I.
Qed.

(** [visitEachChild] rebuilds a node of the kind of the visited one,
    whatever the visitor returns for the children. *)
Lemma visitEachChild_kindOf (f : Node -> M Node) (node : Node) :
  hoare (fun _ => True) (visitEachChild f node)
    (fun node' _ => kindOf node' = kindOf node) (fun _ => True).
Proof.
  destruct node; cbv beta iota delta [visitEachChild];
    repeat (apply hoare_always; intros ?);
    apply hoare_ret; reflexivity.
Qed.

Lemma id_kindOf (f : Node -> Node) (node : Node) :
  kindOf (visitEachChild (m := Id) f node) = kindOf node.
Proof. destruct node; reflexivity. Qed.

(** ** A visitor that returns every child and steps the state *)

Section Steps.

Variable P : State -> Prop.
Variable g : Node -> State -> State.
Variable f : Node -> M Node.

#[local] Abbreviation run l s := (fold_left (fun s c => g c s) l s).

Lemma visitNodes_steps (l : list Node) :
  Forall (stepsTo P g f) l ->
  forall s, P s -> visitNodes f l s = Normal l (run l s) /\ P (run l s).
Proof.
  induction 1 as [|x l Hx Hl IH]; intros s Hs; [split; [reflexivity|exact Hs]|].
  destruct (Hx s Hs) as [Hfx Hgs]. destruct (IH _ Hgs) as [Hrest HP].
  split; [|exact HP].
  cbn [visitNodes bind ret Monad_M]. rewrite Hfx.
  cbn [visitNodes] in Hrest. rewrite Hrest. reflexivity.
Qed.

Lemma visitNode_steps (o : option Node) :
  Forall (stepsTo P g f) (optionToList o) ->
  forall s, P s ->
    visitNode f o s = Normal o (run (optionToList o) s)
    /\ P (run (optionToList o) s).
Proof.
  destruct o as [x|]; intros H s Hs; [|split; [reflexivity|exact Hs]].
  inversion H as [|? ? Hx]; subst. destruct (Hx s Hs) as [Hfx Hgs].
  split; [|exact Hgs].
  cbn [visitNode bind ret Monad_M]. rewrite Hfx. reflexivity.
Qed.

Lemma visit_steps (x : Node) :
  stepsTo P g f x ->
  forall s, P s -> f x s = Normal x (run [x] s) /\ P (run [x] s).
Proof. intros H s Hs. exact (H s Hs). Qed.

Ltac step_child :=
  match goal with
  | H : Forall (stepsTo P g f) ?l, Hs : P ?s
    |- context [visitNodes f ?l ?s] =>
      let Heq := fresh "Heq" in let Hs' := fresh "Hs" in
      destruct (visitNodes_steps H Hs) as [Heq Hs'];
      rewrite Heq; clear Heq H; cbv beta iota
  | H : Forall (stepsTo P g f) (optionToList ?o), Hs : P ?s
    |- context [visitNode f ?o ?s] =>
      let Heq := fresh "Heq" in let Hs' := fresh "Hs" in
      destruct (visitNode_steps o H Hs) as [Heq Hs'];
      rewrite Heq; clear Heq H; cbv beta iota
  | H : stepsTo P g f ?x, Hs : P ?s |- context [f ?x ?s] =>
      let Heq := fresh "Heq" in let Hs' := fresh "Hs" in
      destruct (visit_steps H Hs) as [Heq Hs'];
      rewrite Heq; clear Heq H; cbv beta iota
  end.

Lemma visitEachChild_steps (node : Node) :
  Forall (stepsTo P g f) (children node) ->
  forall s, P s ->
    visitEachChild f node s = Normal node (run (children node) s)
    /\ P (run (children node) s).
Proof.
  intros H s Hs. destruct node; cbn [children] in *;
    rewrite ?fold_left_app; cbn [app] in H; split_children H;
    cbv beta iota delta [visitEachChild]; cbn [bind ret Monad_M];
    repeat step_child;
    cbn [fold_left] in *; (split; [reflexivity|assumption]).
Qed.

End Steps.

(** ** What the rewrite of awaits changes *)

Lemma awaitFree_unfold (node : Node) :
  awaitFree node
  = if isFunctionLike node then true
    else negb (isAwaitExpression node) && forallb awaitFree (children node).
Proof. rewrite <- forallChildren_children. destruct node; reflexivity. Qed.

Lemma flatAwaits_unfold (node : Node) :
  flatAwaits node
  = match node with
    | AwaitExpression expression => awaitFree expression
    | _ =>
        if isFunctionLike node then true
        else forallb flatAwaits (children node)
    end.
Proof. rewrite <- forallChildren_children. destruct node; reflexivity. Qed.

Lemma map_fixed (f : Node -> Node) (l : list Node) :
  map f l = l <-> Forall (fun c => f c = c) l.
Proof.
  induction l as [|x l IH]; cbn; [split; auto|].
  split.
  - intros H. injection H as Hx Hl. constructor; [exact Hx|apply IH, Hl].
  - intros H. inversion H as [|? ? Hx Hl]; subst.
    rewrite Hx. f_equal. apply IH, Hl.
Qed.

Lemma id_visitNode_fixed (f : Node -> Node) (o : option Node) :
  Forall (fun c => f c = c) (optionToList o) -> visitNode (m := Id) f o = o.
Proof.
  destruct o as [x|]; [|reflexivity]. intros H.
  inversion H as [|? ? Hx]; subst. cbn. rewrite Hx. reflexivity.
Qed.

(** A descent whose visitor returns every child returns the node. *)
Lemma id_visitEachChild_fixed (f : Node -> Node) (node : Node) :
  Forall (fun c => f c = c) (children node) ->
  visitEachChild (m := Id) f node = node.
Proof.
  intros H. destruct node; cbn [children app] in H; split_children H;
    cbv beta iota delta [visitEachChild]; cbn [bind ret Monad_Id];
    rewrite ?id_visitNodes;
    repeat match goal with
           | H : Forall (fun c => f c = c) (optionToList ?o) |- _ =>
               rewrite (@id_visitNode_fixed f o H); clear H
           | H : Forall (fun c => f c = c) ?l |- _ =>
               apply map_fixed in H; rewrite H; clear H
           | H : f ?x = ?x |- _ => rewrite H; clear H
           end;
    reflexivity.
Qed.

Lemma forallb_Forall_eq (p : Node -> bool) (l : list Node) :
  forallb p l = true <-> Forall (fun c => p c = true) l.
Proof. rewrite forallb_forall, Forall_forall. reflexivity. Qed.

Lemma Forall_iff_in (P Q : Node -> Prop) (l : list Node) :
  Forall (fun c => P c <-> Q c) l -> Forall P l <-> Forall Q l.
Proof.
  induction 1 as [|x l Hx Hl IH]; [split; constructor|].
  split; intros H; inversion H; subst; constructor;
    solve [apply Hx; assumption | apply IH; assumption].
Qed.

Lemma forallb_map_ext_in (p q : Node -> bool) (f : Node -> Node)
    (l : list Node) :
  Forall (fun c => p (f c) = q c) l -> forallb p (map f l) = forallb q l.
Proof.
  induction 1 as [|x l Hx Hl IH]; [reflexivity|].
  cbn [map forallb]. rewrite Hx, IH. reflexivity.
Qed.

Lemma id_isAwaitExpression (f : Node -> Node) (node : Node) :
  isAwaitExpression node = false ->
  isAwaitExpression (visitEachChild (m := Id) f node) = false.
Proof. destruct node; try discriminate; reflexivity. Qed.

(** The rewrite returns the tree as it is exactly when no await is in
    it outside the nested functions. *)
Lemma replaceYield_fixed (aw node : Node) :
  replaceYieldAndCheckNested aw node = node <-> awaitFree node = true.
Proof.
  induction node as [node IH] using Node_children_ind.
  rewrite replaceYieldAndCheckNested_unfold, awaitFree_unfold.
  destruct (isFunctionLike node) eqn:Hfl.
  { destruct node; try discriminate Hfl; split; reflexivity. }
  assert (Hdescent :
    visitEachChild (m := Id) (replaceYieldAndCheckNested aw) node = node
    <-> forallb awaitFree (children node) = true).
  { rewrite forallb_Forall_eq, <- (@Forall_iff_in _ _ _ IH). split.
    - intros H. apply map_fixed. rewrite <- id_children, H. reflexivity.
    - apply id_visitEachChild_fixed. }
  destruct node; try exact Hdescent.
  cbn [isAwaitExpression negb andb]. split; discriminate.
Qed.

(** After the rewrite no await is left outside the nested functions
    exactly when the awaits were flat. *)
Lemma awaitFree_replaceYield (aw node : Node) :
  awaitFree aw = true ->
  awaitFree (replaceYieldAndCheckNested aw node) = flatAwaits node.
Proof.
  intros Haw. induction node as [node IH] using Node_children_ind.
  rewrite replaceYieldAndCheckNested_unfold, flatAwaits_unfold.
  destruct (isFunctionLike node) eqn:Hfl.
  { destruct node; try discriminate Hfl;
      rewrite awaitFree_unfold; try rewrite Hfl; reflexivity. }
  assert (Hdescent :
    awaitFree (visitEachChild (m := Id) (replaceYieldAndCheckNested aw) node)
    = negb (isAwaitExpression node) && forallb flatAwaits (children node)).
  { rewrite awaitFree_unfold, id_isFunctionLike, Hfl, id_children.
    rewrite (@forallb_map_ext_in _ _ _ _ IH).
    destruct (isAwaitExpression node) eqn:Haw'.
    - destruct node; try discriminate Haw'. reflexivity.
    - rewrite id_isAwaitExpression by exact Haw'. reflexivity. }
  destruct node; try exact Hdescent.
  rewrite awaitFree_unfold. cbn [isFunctionLike isAwaitExpression negb andb].
  cbn [children optionToList forallb].
  rewrite (awaitFree_unfold (CallExpression _ _ _)).
  cbn [isFunctionLike isAwaitExpression negb andb children app forallb].
  rewrite Haw, !andb_true_r. reflexivity.
Qed.

(** ** What every visit keeps *)

Lemma advances_refl (s : State) : advances s s.
Proof. split; [auto|]. exists []. rewrite app_nil_r. reflexivity. Qed.

Lemma advances_step (s0 s : State) (b : bool) (c : string)
    (pushed : list string) :
  advances s0 s ->
  (transformed s = true -> b = true) ->
  advances s0 (mkState b c (functionsToAddDecoratorsTo s ++ pushed)).
Proof.
  intros [Hflag [l Hl]] Hb. split; cbn.
  - auto.
  - rewrite Hl, <- app_assoc. eexists; reflexivity.
Qed.

Lemma advances_same_list (s0 s : State) (b : bool) (c : string) :
  advances s0 s ->
  (transformed s = true -> b = true) ->
  advances s0 (mkState b c (functionsToAddDecoratorsTo s)).
Proof.
  intros H Hb. pose proof (@advances_step s0 s b c [] H Hb) as H'.
  rewrite app_nil_r in H'. exact H'.
Qed.

Lemma createNewFunctionBlock_shape (fn aw : Node) :
  isArrowFunction (createNewFunctionBlock fn aw)
  || isFunctionExpression (createNewFunctionBlock fn aw)
  = isArrowFunction fn || isFunctionExpression fn.
Proof. destruct fn; reflexivity. Qed.

Lemma fnParameters_createNewFunctionBlock (fn aw : Node) :
  fnParameters (createNewFunctionBlock fn aw) = fnParameters fn.
Proof. destruct fn; reflexivity. Qed.

Section VisitInvariants.

Variable getText : Node -> string.
Variable getFullText : Node -> FullText.
Variable options : Options.
Variable resSource : SourceFile.
Variable s0 : State.

#[local] Abbreviation v := (visitor getText getFullText options resSource).
#[local] Abbreviation E := (fun _ : Exception => True).
#[local] Abbreviation I := (advances s0).
#[local] Abbreviation keeps c :=
  (hoare I c (fun _ s => I s) E).

Lemma transformFunction_keeps (fn asyncIdentifier : Node) (c : string) :
  isArrowFunction fn || isFunctionExpression fn = true ->
  keeps (transformFunction getText getFullText fn asyncIdentifier c).
Proof.
  intros Hfn s Hs. unfold transformFunction.
  destruct (isAsyncFunction fn) eqn:Hasync; cbn [negb].
  - destruct fn; try discriminate Hfn; exact Hs.
  - destruct (getFullText fn); exact Logic.I.
Qed.

Lemma setTransformed_keeps : keeps (setTransformed true).
Proof. intros s Hs. cbn. apply advances_same_list; auto. Qed.

Lemma setClassName_keeps (c : string) : keeps (setClassName c).
Proof. intros s Hs. cbn. apply advances_same_list; auto. Qed.

Lemma get_keeps : keeps get.
Proof. intros s Hs. exact Hs. Qed.

Lemma visitPropertyChild_keeps (parent node : Node) :
  keeps (visitPropertyChild getText getFullText parent node).
Proof.
  destruct node; try (apply hoare_ret; auto).
  cbn [visitPropertyChild].
  destruct (isIdentifier node && _); [|apply hoare_ret; auto].
  eapply hoare_bind with (R := fun _ s => I s).
  { destruct parent; try (intros s Hs; exact Hs).
    intros s Hs. cbn. apply advances_step; auto. }
  intros _. destruct arguments as [|fn args].
  { intros s _. exact Logic.I. }
  destruct (isArrowFunction fn || isFunctionExpression fn) eqn:Hfn;
    [|apply hoare_ret; auto].
  eapply hoare_bind; [apply setTransformed_keeps|]. intros ?.
  eapply hoare_bind; [apply get_keeps|]. intros s1.
  apply transformFunction_keeps.
  rewrite createNewFunctionBlock_shape. exact Hfn.
Qed.

(** A descent keeps the kind of the node and what its visitor keeps. *)
Lemma visitEachChild_keeps (f : Node -> M Node) (node : Node) :
  Forall (fun c => keeps (f c)) (children node) ->
  hoare I (visitEachChild f node)
    (fun node' s => kindOf node' = kindOf node /\ I s) E.
Proof.
  intros H s Hs.
  pose proof (visitEachChild_kindOf f node) as Hkind.
  specialize (Hkind s Logic.I).
  assert (Hv : Forall (visits E I (fun _ _ => True) f) (children node)).
  { eapply Forall_impl; [|exact H]. intros c Hc s1 Hs1.
    specialize (Hc s1 Hs1). destruct (f c s1); auto. }
  pose proof (@hoare_visitEachChild E I (fun _ _ => True) f node Hv)
    as Hinv.
  specialize (Hinv s Hs).
  destruct (visitEachChild f node s); [|exact Hinv].
  split; [exact Hkind|apply Hinv].
Qed.

Lemma kindOf_transformPropertyDeclaration (node : Node) (fn : option Node)
    (e : Node) :
  kindOf (transformPropertyDeclaration node fn e) = kindOf node.
Proof. destruct node; reflexivity. Qed.

Lemma addDecorator_keeps (newNode : option Node) :
  hoare I (addDecorator getText newNode)
    (fun returned s =>
       match returned, newNode with
       | Some r, Some n => kindOf r = kindOf n
       | Some _, None => False
       | None, _ => True
       end /\ I s) E.
Proof.
  destruct newNode as [[]|]; try (apply hoare_ret; auto).
  intros s Hs. cbn.
  destruct (JsString.arrayIncludes _ _); cbn; auto.
Qed.

Lemma visitDecoratedProperty_keeps (node : Node) :
  hoare I (visitDecoratedProperty getText getFullText (methodToProperty node))
    (fun returned s =>
       match returned with
       | Some r => keepsKind node r
       | None => True
       end /\ I s) E.
Proof.
  assert (Hprop : forall modifiers name token type initializer,
    (kindOf node = PropertyDeclarationKind
     \/ kindOf node = MethodDeclarationKind
        /\ hasDecorator (nodeModifiers node) autoFlow = true) ->
    hoare I (visitDecoratedProperty getText getFullText
               (PropertyDeclaration modifiers name token type initializer))
      (fun returned s =>
         match returned with
         | Some r => keepsKind node r
         | None => True
         end /\ I s) E).
  { intros modifiers name token type initializer Hnode.
    destruct initializer as [fn|]; [|apply hoare_ret; auto].
    cbn [visitDecoratedProperty].
    destruct (hasDecorator modifiers autoFlow); [|apply hoare_ret; auto].
    destruct (isArrowFunction fn || isFunctionExpression fn) eqn:Hfn;
      [|apply hoare_ret; auto].
    eapply hoare_bind; [apply setTransformed_keeps|]. intros ?.
    eapply hoare_bind; [apply get_keeps|]. intros s1.
    eapply hoare_bind;
      [apply transformFunction_keeps;
       rewrite createNewFunctionBlock_shape; exact Hfn|].
    intros fn'. apply hoare_ret. intros s Hs. split; [|exact Hs].
    unfold keepsKind. cbn [transformPropertyDeclaration kindOf].
    destruct Hnode as [Hk|[Hk Hdec]]; [left; auto|right; auto]. }
  destruct node; try (apply hoare_ret; auto).
  - apply Hprop. left. reflexivity.
  - cbn [methodToProperty].
    destruct body as [b|]; [|apply hoare_ret; auto].
    destruct (hasDecorator modifiers autoFlow) eqn:Hdec;
      [|apply hoare_ret; auto].
    apply Hprop. right. split; [reflexivity|exact Hdec].
Qed.

Lemma visitor_keeps (node : Node) : visits E I keepsKind v node.
Proof.
  unfold visits.
  induction node as [node IH] using Node_children_ind.
  assert (Hchildren : Forall (fun c => keeps (v c)) (children node)).
  { eapply Forall_impl; [|exact IH]. intros c Hc.
    eapply hoare_weaken; [exact Hc|auto|]. cbn. intros a s [_ Hs]. exact Hs. }
  assert (Hdescent : hoare I (visitEachChild v node)
            (fun node' s => keepsKind node node' /\ I s) E).
  { eapply hoare_weaken; [apply visitEachChild_keeps; exact Hchildren|auto|].
    cbn. intros a s [Hk Hs]. split; [left; exact Hk|exact Hs]. }
  assert (Hsteps : hoare I
    (newNode <- (if isPropertyDeclaration node
                 then n <- visitEachChild
                             (visitPropertyChild getText getFullText node)
                             node ;;
                      ret (Some n)
                 else ret None) ;;
     returned <- addDecorator getText newNode ;;
     match returned with
     | Some result => ret result
     | None =>
         returned <- visitDecoratedProperty getText getFullText
                       (methodToProperty node) ;;
         match returned with
         | Some result => ret result
         | None => visitEachChild v node
         end
     end)
    (fun node' s => keepsKind node node' /\ I s) E).
  { eapply hoare_bind with
      (R := fun newNode s =>
              match newNode with
              | Some n => kindOf n = kindOf node
              | None => True
              end /\ I s).
    - destruct (isPropertyDeclaration node); [|apply hoare_ret; auto].
      eapply hoare_bind;
        [apply visitEachChild_keeps; apply Forall_forall; intros c _;
         apply visitPropertyChild_keeps|].
      intros n. apply hoare_pure. intros Hn. apply hoare_ret; auto.
    - intros newNode. apply hoare_pure. intros HnewNode.
      eapply hoare_bind; [apply addDecorator_keeps|].
      intros returned. apply hoare_pure. intros Hreturned.
      destruct returned as [r|].
      + apply hoare_ret. intros s Hs. split; [|exact Hs]. left.
        destruct newNode as [n|]; [|contradiction]. congruence.
      + eapply hoare_bind; [apply visitDecoratedProperty_keeps|].
        intros [r|]; apply hoare_pure; intros Hr;
          [apply hoare_ret; auto|exact Hdescent]. }
  destruct node; try exact Hdescent; try exact Hsteps.
  eapply hoare_ext; [apply visitor_class|].
  eapply hoare_bind; [apply setClassName_keeps|]. intros ?.
  destruct (find (isAutoModelDecorator getText) modifiers);
    [|exact Hdescent].
  eapply hoare_bind; [apply setTransformed_keeps|]. intros ?.
  eapply hoare_weaken; [apply visitEachChild_keeps|auto|].
  - cbn [children] in *.
    apply Forall_app in Hchildren; destruct Hchildren as [Hm Hrest].
    apply Forall_app; split; [apply Forall_app; split|].
    + apply Forall_filterOutFound. exact Hm.
    + constructor; [|constructor]. intros s Hs. exact Hs.
    + exact Hrest.
  - cbn. intros node' s [Hk Hs]. split; [left; exact Hk|exact Hs].
Qed.

End VisitInvariants.

(** ** When a visit cannot throw *)

Lemma noFailingSite_unfold (node : Node) :
  noFailingSite node
  = safeAt node && forallb noFailingSite (children node).
Proof. rewrite <- forallChildren_children. destruct node; reflexivity. Qed.

Section SafeVisit.

Variable getText : Node -> string.
Variable getFullText : Node -> FullText.
Variable options : Options.
Variable resSource : SourceFile.

#[local] Abbreviation v := (visitor getText getFullText options resSource).
#[local] Abbreviation total c :=
  (hoare (fun _ => True) c (fun _ _ => True) (fun _ => False)).

Lemma bind_total {A B : Type} (c : M A) (k : A -> M B) :
  total c -> (forall a, total (k a)) -> total (bind c k).
Proof.
  intros Hc Hk. eapply hoare_bind with (R := fun _ _ => True); [exact Hc|].
  exact Hk.
Qed.

Lemma ret_total {A : Type} (a : A) : total (ret a).
Proof. apply hoare_ret. auto. Qed.

Lemma transformFunction_total (fn asyncIdentifier : Node) (c : string) :
  isArrowFunction fn || isFunctionExpression fn = true ->
  isAsyncFunction fn = true ->
  total (transformFunction getText getFullText
           (createNewFunctionBlock fn _awaitExpression) asyncIdentifier c).
Proof.
  intros Hfn Hasync s _.
  destruct (@transformFunction_async getText getFullText
              (createNewFunctionBlock fn _awaitExpression) asyncIdentifier c s)
    as [body [_ ->]]; [| |exact Logic.I].
  - rewrite createNewFunctionBlock_shape. exact Hfn.
  - rewrite isAsyncFunction_createNewFunctionBlock. exact Hasync.
Qed.

Lemma visitPropertyChild_total (parent node : Node) :
  safeWrapperCall node = true ->
  total (visitPropertyChild getText getFullText parent node).
Proof.
  destruct node; try (intros _; apply ret_total).
  cbn [safeWrapperCall visitPropertyChild].
  destruct (isIdentifier node && _); [|intros _; apply ret_total].
  destruct arguments as [|fn args]; [discriminate|].
  unfold safeFunction. intros Hsafe.
  apply bind_total; [destruct parent; intros s _; exact Logic.I|].
  intros _.
  destruct (isArrowFunction fn || isFunctionExpression fn) eqn:Hfn;
    [|apply ret_total].
  cbn [negb orb] in Hsafe.
  apply bind_total; [intros s _; exact Logic.I|]. intros _.
  apply bind_total; [intros s _; exact Logic.I|]. intros s1.
  apply transformFunction_total; assumption.
Qed.

Lemma addDecorator_total (newNode : option Node) :
  total (addDecorator getText newNode).
Proof.
  destruct newNode as [[]|]; try apply ret_total.
  intros s _. cbn. destruct (JsString.arrayIncludes _ _); exact Logic.I.
Qed.

Lemma visitDecoratedProperty_total (node : Node) :
  safeAt node = true ->
  total (visitDecoratedProperty getText getFullText (methodToProperty node)).
Proof.
  assert (Hprop : forall modifiers name token type fn,
    (hasDecorator modifiers autoFlow = true ->
     isArrowFunction fn || isFunctionExpression fn = true ->
     isAsyncFunction fn = true) ->
    total (visitDecoratedProperty getText getFullText
             (PropertyDeclaration modifiers name token type (Some fn)))).
  { intros modifiers name token type fn Hsafe.
    cbn [visitDecoratedProperty].
    destruct (hasDecorator modifiers autoFlow); [|apply ret_total].
    destruct (isArrowFunction fn || isFunctionExpression fn) eqn:Hfn;
      [|apply ret_total].
    apply bind_total; [intros s _; exact Logic.I|]. intros _.
    apply bind_total; [intros s _; exact Logic.I|]. intros s1.
    apply bind_total; [apply transformFunction_total; auto|].
    intros fn'. apply ret_total. }
  destruct node; try (intros _; apply ret_total).
  - cbn [safeAt methodToProperty]. intros Hsafe.
    apply andb_prop in Hsafe. destruct Hsafe as [_ Hsafe].
    destruct initializer as [fn|]; [|apply ret_total].
    apply Hprop. intros Hdec Hfn. rewrite Hdec in Hsafe.
    unfold safeFunction in Hsafe. rewrite Hfn in Hsafe. exact Hsafe.
  - cbn [safeAt methodToProperty].
    destruct body as [b|]; [|intros _; apply ret_total].
    destruct (hasDecorator modifiers autoFlow) eqn:Hdec;
      [|intros _; apply ret_total].
    cbn [negb orb]. intros Hsafe. apply Hprop. intros _ _. exact Hsafe.
Qed.

Lemma visitEachChild_total (f : Node -> M Node) (node : Node) :
  Forall (fun c => total (f c)) (children node) ->
  total (visitEachChild f node).
Proof.
  intros H.
  eapply hoare_weaken;
    [apply (@hoare_visitEachChild (fun _ => False) (fun _ => True)
              (fun _ _ => True) f node)|auto|auto].
  eapply Forall_impl; [|exact H]. intros c Hc s Hs.
  specialize (Hc s Hs). destruct (f c s); auto.
Qed.

Lemma visitor_total (node : Node) :
  noFailingSite node = true -> total (v node).
Proof.
  induction node as [node IH] using Node_children_ind.
  rewrite noFailingSite_unfold. intros Hsafe.
  apply andb_prop in Hsafe. destruct Hsafe as [Hat Hchildren].
  assert (Hvisits : Forall (fun c => total (v c)) (children node)).
  { rewrite forallb_forall in Hchildren. rewrite Forall_forall in *.
    intros c Hc. apply IH; auto. }
  pose proof (visitEachChild_total v node Hvisits) as Hdescent.
  assert (Hsteps :
    Forall (fun c => safeWrapperCall c = true) (children node) ->
    total
      (newNode <- (if isPropertyDeclaration node
                   then n <- visitEachChild
                               (visitPropertyChild getText getFullText node)
                               node ;;
                        ret (Some n)
                   else ret None) ;;
       returned <- addDecorator getText newNode ;;
       match returned with
       | Some result => ret result
       | None =>
           returned <- visitDecoratedProperty getText getFullText
                         (methodToProperty node) ;;
           match returned with
           | Some result => ret result
           | None => visitEachChild v node
           end
       end)).
  { intros Hcalls. apply bind_total.
    - destruct (isPropertyDeclaration node); [|apply ret_total].
      apply bind_total; [|intros; apply ret_total].
      apply visitEachChild_total.
      eapply Forall_impl; [|exact Hcalls]. intros c Hc.
      apply visitPropertyChild_total. exact Hc.
    - intros newNode. apply bind_total; [apply addDecorator_total|].
      intros [r|]; [apply ret_total|].
      apply bind_total; [apply visitDecoratedProperty_total; exact Hat|].
      intros [r|]; [apply ret_total|exact Hdescent]. }
  destruct node; try exact Hdescent.
  - (* class *)
    eapply hoare_ext; [apply visitor_class|].
    apply bind_total; [intros s _; exact Logic.I|]. intros _.
    destruct (find (isAutoModelDecorator getText) modifiers);
      [|exact Hdescent].
    apply bind_total; [intros s _; exact Logic.I|]. intros _.
    apply visitEachChild_total. cbn [children] in *.
    apply Forall_app in Hvisits; destruct Hvisits as [Hm Hrest].
    apply Forall_app; split; [apply Forall_app; split|].
    + apply Forall_filterOutFound. exact Hm.
    + constructor; [|constructor]. intros s _. exact Logic.I.
    + exact Hrest.
  - (* property *)
    apply Hsteps. cbn [safeAt] in Hat.
    apply andb_prop in Hat. destruct Hat as [Hcalls _].
    apply forallb_Forall_eq. exact Hcalls.
  - (* method: the wrapper-call path is not taken *)
    intros s _. cbn [visitor isPropertyDeclaration bind ret Monad_M].
    cbn [addDecorator ret Monad_M].
    pose proof (visitDecoratedProperty_total _ Hat) as Hd.
    specialize (Hd s Logic.I).
    match goal with
    | |- match (match ?c with _ => _ end) with _ => _ end =>
        destruct c as [[r|] s1|e]
    end; [exact Logic.I| |contradiction].
    specialize (Hdescent s1 Logic.I). exact Hdescent.
Qed.

End SafeVisit.

(** ** The class name that a visit records *)

Lemma classDeclarations_unfold (node : Node) :
  classDeclarations node
  = (if isClassDeclaration node then [node] else [])
    ++ flat_map classDeclarations (children node).
Proof. rewrite <- gather_children. destruct node; reflexivity. Qed.

Lemma last_default_irrelevant {A : Type} (x : A) (l : list A) (d d' : A) :
  last (x :: l) d = last (x :: l) d'.
Proof.
  revert x; induction l as [|y l IH]; intros x; [reflexivity|].
  change (last (y :: l) d = last (y :: l) d'). apply IH.
Qed.

Lemma last_app_default {A : Type} (l1 l2 : list A) (d : A) :
  last (l1 ++ l2) d = last l2 (last l1 d).
Proof.
  revert d; induction l1 as [|x l1 IH]; intros d; [reflexivity|].
  destruct l1 as [|y l1].
  - destruct l2 as [|a l2]; [reflexivity|].
    change (last (a :: l2) d = last (a :: l2) x).
    apply last_default_irrelevant.
  - change (last ((y :: l1) ++ l2) d = last l2 (last (y :: l1) d)).
    apply IH.
Qed.

Lemma last_cons_default {A : Type} (x : A) (l : list A) (d : A) :
  last (x :: l) d = last l x.
Proof. exact (last_app_default [x] l d). Qed.

Section ClassName.

Variable getText : Node -> string.
Variable getFullText : Node -> FullText.
Variable options : Options.
Variable resSource : SourceFile.

#[local] Abbreviation v := (visitor getText getFullText options resSource).
#[local] Abbreviation noNames :=
  (fun s : State => functionsToAddDecoratorsTo s = []).
#[local] Abbreviation record :=
  (fun (c : Node) (s : State) =>
     mkState (transformed s) (classNameAfter getText c (className s))
       (functionsToAddDecoratorsTo s)).

Lemma record_children (l : list Node) (s : State) :
  fold_left (fun s c => record c s) l s
  = mkState (transformed s)
      (last (map (declaredName getText) (flat_map classDeclarations l))
         (className s))
      (functionsToAddDecoratorsTo s).
Proof.
  revert s; induction l as [|c l IH]; intros s; [destruct s; reflexivity|].
  cbn [fold_left flat_map]. rewrite IH. cbn [transformed className
    functionsToAddDecoratorsTo]. unfold classNameAfter.
  rewrite map_app, last_app_default. reflexivity.
Qed.

Lemma visitor_quiet_record (node : Node) :
  quiet getText node = true -> stepsTo noNames record v node.
Proof.
  induction node as [node IH] using Node_children_ind.
  rewrite quiet_unfold. intros Hq.
  apply andb_prop in Hq; destruct Hq as [Htrigger Hchildren].
  apply negb_true_iff in Htrigger.
  assert (Hsteps : Forall (stepsTo noNames record v) (children node)).
  { rewrite forallb_forall in Hchildren. rewrite Forall_forall in *.
    intros c Hc. apply IH; auto. }
  assert (Hdescent : forall s, noNames s ->
    visitEachChild v node s
    = Normal node
        (mkState (transformed s)
           (last (map (declaredName getText)
                    (flat_map classDeclarations (children node)))
              (className s))
           (functionsToAddDecoratorsTo s))).
  { intros s Hs.
    destruct (@visitEachChild_steps noNames record v node Hsteps s Hs)
      as [Heq _].
    rewrite Heq, record_children. reflexivity. }
  assert (Hplain : isClassDeclaration node = false ->
    forall s, noNames s ->
      v node s = visitEachChild v node s ->
      v node s = Normal node (record node s) /\ noNames (record node s)).
  { intros Hclass s Hs Heq. split; [|exact Hs].
    rewrite Heq, Hdescent by exact Hs.
    unfold classNameAfter. rewrite classDeclarations_unfold, Hclass.
    reflexivity. }
  destruct node; try (intros s Hs; apply Hplain; reflexivity || assumption).
  - (* class *)
    intros s Hs. split; [|exact Hs].
    rewrite visitor_class. cbn [bind setClassName Monad_M].
    cbn [triggerAt] in Htrigger.
    rewrite (find_existsb_false _ _ Htrigger).
    rewrite Hdescent by exact Hs.
    cbn [transformed className functionsToAddDecoratorsTo].
    unfold classNameAfter. rewrite classDeclarations_unfold.
    cbn [isClassDeclaration app map]. rewrite last_cons_default.
    destruct name; reflexivity.
  - (* property *)
    cbn [triggerAt] in Htrigger. apply orb_false_iff in Htrigger.
    destruct Htrigger as [Hdec Hcall].
    intros s Hs. apply Hplain; [reflexivity|exact Hs|].
    rewrite visitor_plain_property by exact Hcall.
    rewrite Hs. cbn [JsString.arrayIncludes existsb].
    cbn [bind Monad_M visitDecoratedProperty]. rewrite Hdec.
    destruct initializer; reflexivity.
  - (* method *)
    cbn [triggerAt] in Htrigger.
    intros s Hs. apply Hplain; [reflexivity|exact Hs|].
    cbn [visitor isPropertyDeclaration methodToProperty].
    rewrite Htrigger. destruct body; reflexivity.
Qed.

(** ** The conversion of a function *)

Lemma convert_function (fn : Node) :
  isArrowFunction fn || isFunctionExpression fn = true ->
  isAsyncFunction fn = true ->
  exists body,
    fnBody fn = Some body
    /\ forall c s,
         transformFunction getText getFullText
           (createNewFunctionBlock fn _awaitExpression) _asyncExpression c s
         = Normal
             (flowCall getText fn _asyncExpression c
                (replaceYieldAndCheckNested _awaitExpression body)) s.
Proof.
  intros Hfn Hasync.
  destruct fn; try discriminate Hfn; cbn [fnBody]; eexists;
    (split; [reflexivity|]); intros c s; unfold transformFunction;
    rewrite isAsyncFunction_createNewFunctionBlock, Hasync; reflexivity.
Qed.

End ClassName.

(** ** The visit of a list, taken apart *)

Lemma visitNodes_cons (f : Node -> M Node) (x : Node) (l : list Node)
    (s : State) :
  visitNodes f (x :: l) s
  = (x' <- f x ;; l' <- visitNodes f l ;; ret (x' :: l')) s.
Proof. reflexivity. Qed.

Lemma visitNodes_cons_inv (f : Node -> M Node) (x : Node) (l l' : list Node)
    (s s' : State) :
  visitNodes f (x :: l) s = Normal l' s' ->
  exists x' rest s1,
    f x s = Normal x' s1
    /\ visitNodes f l s1 = Normal rest s'
    /\ l' = x' :: rest.
Proof.
  rewrite visitNodes_cons. cbn [bind ret Monad_M].
  destruct (f x s) as [x' s1|e] eqn:Hx; [|discriminate].
  destruct (visitNodes f l s1) as [rest s2|e] eqn:Hrest; [|discriminate].
  intros H. injection H as <- <-.
  exists x', rest, s1. repeat split; assumption || reflexivity.
Qed.

Lemma visitNodes_app_inv (f : Node -> M Node) (l1 l2 l' : list Node)
    (s s' : State) :
  visitNodes f (l1 ++ l2) s = Normal l' s' ->
  exists l1' l2' s1,
    visitNodes f l1 s = Normal l1' s1
    /\ visitNodes f l2 s1 = Normal l2' s'
    /\ l' = l1' ++ l2'.
Proof.
  rewrite visitNodes_app. cbn [bind ret Monad_M].
  destruct (visitNodes f l1 s) as [l1' s1|e] eqn:H1; [|discriminate].
  destruct (visitNodes f l2 s1) as [l2' s2|e] eqn:H2; [|discriminate].
  intros H. injection H as <- <-.
  exists l1', l2', s1. repeat split; assumption || reflexivity.
Qed.

Lemma visitNodes_length (f : Node -> M Node) (l l' : list Node)
    (s s' : State) :
  visitNodes f l s = Normal l' s' -> length l' = length l.
Proof.
  revert l' s; induction l as [|x l IH]; intros l' s H.
  - injection H as <- _. reflexivity.
  - apply visitNodes_cons_inv in H.
    destruct H as [x' [rest [s1 [_ [Hrest ->]]]]].
    cbn [length]. f_equal. exact (IH _ _ Hrest).
Qed.

(** ** The members of a class *)

Lemma noClassDeclaration_unfold (node : Node) :
  noClassDeclaration node
  = negb (isClassDeclaration node)
    && forallb noClassDeclaration (children node).
Proof.
  unfold noClassDeclaration at 1. rewrite classDeclarations_unfold.
  destruct (isClassDeclaration node); [reflexivity|].
  cbn [app negb andb].
  induction (children node) as [|c l IH]; [reflexivity|].
  cbn [flat_map forallb]. unfold noClassDeclaration at 1.
  destruct (classDeclarations c); [exact IH|reflexivity].
Qed.

Section ClassMembers.

Variable getText : Node -> string.
Variable getFullText : Node -> FullText.
Variable options : Options.
Variable resSource : SourceFile.

#[local] Abbreviation v := (visitor getText getFullText options resSource).

Lemma visitor_import (package : string) (s : State) :
  v (Examples.namespaceImport package) s
  = Normal (Examples.namespaceImport package) s.
Proof. reflexivity. Qed.

(** The visit of the children of a property up to its initializer, when
    none of them is a wrapper call. *)
Lemma visit_property_initializer (modifiers : list Node) (name : Node)
    (token type : option Node) (init : Node) (s : State) :
  existsb isAutoFlowCall (modifiers ++ [name] ++ optionToList type) = false ->
  visitEachChild
    (visitPropertyChild getText getFullText
       (PropertyDeclaration modifiers name token type (Some init)))
    (PropertyDeclaration modifiers name token type (Some init)) s
  = (init' <- visitPropertyChild getText getFullText
                (PropertyDeclaration modifiers name token type (Some init))
                init ;;
     ret (PropertyDeclaration modifiers name token type (Some init'))) s.
Proof.
  intros Hplain.
  apply existsb_app_false in Hplain. destruct Hplain as [Hm Hplain].
  apply (existsb_app_false _ [name]) in Hplain. destruct Hplain as [Hn Ht].
  cbv beta iota delta [visitEachChild]. cbn [bind Monad_M].
  rewrite (@visitNodes_leaves _ _ s
             (@visitPropertyChild_leaves getText getFullText _ _ Hm)).
  cbn [existsb] in Hn. rewrite orb_false_r in Hn.
  rewrite (@visitPropertyChild_other_node getText getFullText _ _ s Hn).
  rewrite (@visitNode_leaves _ _ s
             (@visitPropertyChild_leaves getText getFullText _ _ Ht)).
  cbn [visitNode bind ret Monad_M].
  destruct (visitPropertyChild _ _ _ _ _); reflexivity.
Qed.

Lemma visitNodes_advances (l l' : list Node) (s s' : State) :
  visitNodes v l s = Normal l' s' -> advances s s'.
Proof.
  intros Heq.
  assert (Hv : Forall (visits (fun _ => True) (advances s) keepsKind v) l).
  { apply Forall_forall. intros c _. apply visitor_keeps. }
  pose proof (hoare_visitNodes Hv) as Hh.
  specialize (Hh s (advances_refl s)). rewrite Heq in Hh. apply Hh.
Qed.

Lemma visitor_advances (node node' : Node) (s s' : State) :
  v node s = Normal node' s' -> advances s s'.
Proof.
  intros Heq.
  pose proof (@visitor_keeps getText getFullText options resSource s node)
    as H.
  specialize (H s (advances_refl s)). rewrite Heq in H. apply H.
Qed.

Lemma advances_trans (s1 s2 s3 : State) :
  advances s1 s2 -> advances s2 s3 -> advances s1 s3.
Proof.
  intros [Hf [l Hl]] [Hf' [l' Hl']]. split; [auto|].
  exists (l ++ l'). rewrite Hl', Hl, app_assoc. reflexivity.
Qed.

(** *** A visit of a tree without class declarations keeps the class
    name *)

Section ClassNameKept.

Variable c : string.

#[local] Abbreviation named := (fun s : State => className s = c).
#[local] Abbreviation keepsName cmp :=
  (hoare named cmp (fun _ s => named s) (fun _ => True)).

Lemma transformFunction_keepsName (fn asyncIdentifier : Node)
    (cn : string) :
  keepsName (transformFunction getText getFullText fn asyncIdentifier cn).
Proof.
  intros s Hs.
  pose proof (transformFunction_state getText getFullText fn asyncIdentifier
                cn s) as H.
  destruct (transformFunction _ _ _ _ _ _) as [a s'|e];
    [rewrite H; exact Hs|exact Logic.I].
Qed.

Lemma visitPropertyChild_keepsName (parent node : Node) :
  keepsName (visitPropertyChild getText getFullText parent node).
Proof.
  destruct node; try (apply hoare_ret; auto).
  cbn [visitPropertyChild].
  destruct (isIdentifier node && _); [|apply hoare_ret; auto].
  eapply hoare_bind with (R := fun _ s => named s).
  { destruct parent; intros s Hs; exact Hs. }
  intros _. destruct arguments as [|fn args].
  { intros s _. exact Logic.I. }
  destruct (isArrowFunction fn || isFunctionExpression fn);
    [|apply hoare_ret; auto].
  eapply hoare_bind with (R := fun _ s => named s);
    [intros s Hs; exact Hs|]. intros _.
  eapply hoare_bind with (R := fun _ s => named s);
    [intros s Hs; exact Hs|]. intros s1.
  apply transformFunction_keepsName.
Qed.

Lemma addDecorator_keepsName (newNode : option Node) :
  keepsName (addDecorator getText newNode).
Proof.
  destruct newNode as [[]|]; try (apply hoare_ret; auto).
  intros s Hs. cbn. destruct (JsString.arrayIncludes _ _); exact Hs.
Qed.

Lemma visitDecoratedProperty_keepsName (node : Node) :
  keepsName (visitDecoratedProperty getText getFullText node).
Proof.
  destruct node; try (apply hoare_ret; auto).
  destruct initializer as [fn|]; [|apply hoare_ret; auto].
  cbn [visitDecoratedProperty].
  destruct (hasDecorator modifiers autoFlow); [|apply hoare_ret; auto].
  destruct (isArrowFunction fn || isFunctionExpression fn);
    [|apply hoare_ret; auto].
  eapply hoare_bind with (R := fun _ s => named s);
    [intros s Hs; exact Hs|]. intros _.
  eapply hoare_bind with (R := fun _ s => named s);
    [intros s Hs; exact Hs|]. intros s1.
  eapply hoare_bind; [apply transformFunction_keepsName|].
  intros fn'. apply hoare_ret. auto.
Qed.

Lemma visitEachChild_keepsName (f : Node -> M Node) (node : Node) :
  Forall (fun child => keepsName (f child)) (children node) ->
  keepsName (visitEachChild f node).
Proof.
  intros H.
  eapply hoare_weaken;
    [apply (@hoare_visitEachChild (fun _ => True) named
              (fun _ _ => True) f node)|auto|cbn; intros a s [_ Hs]; exact Hs].
  eapply Forall_impl; [|exact H]. intros child Hc s Hs.
  specialize (Hc s Hs). destruct (f child s); auto.
Qed.

Lemma visitor_keepsName (node : Node) :
  noClassDeclaration node = true -> keepsName (v node).
Proof.
  induction node as [node IH] using Node_children_ind.
  rewrite noClassDeclaration_unfold. intros Hnone.
  apply andb_prop in Hnone. destruct Hnone as [Hclass Hchildren].
  assert (Hvisits : Forall (fun child => keepsName (v child))
                      (children node)).
  { rewrite forallb_forall in Hchildren. rewrite Forall_forall in *.
    intros child Hc. apply IH; auto. }
  pose proof (visitEachChild_keepsName v node Hvisits) as Hdescent.
  assert (Hsteps : keepsName
    (newNode <- (if isPropertyDeclaration node
                 then n <- visitEachChild
                             (visitPropertyChild getText getFullText node)
                             node ;;
                      ret (Some n)
                 else ret None) ;;
     returned <- addDecorator getText newNode ;;
     match returned with
     | Some result => ret result
     | None =>
         returned <- visitDecoratedProperty getText getFullText
                       (methodToProperty node) ;;
         match returned with
         | Some result => ret result
         | None => visitEachChild v node
         end
     end)).
  { eapply hoare_bind with (R := fun _ s => named s).
    - destruct (isPropertyDeclaration node); [|apply hoare_ret; auto].
      eapply hoare_bind;
        [apply visitEachChild_keepsName; apply Forall_forall; intros child _;
         apply visitPropertyChild_keepsName|].
      intros n. apply hoare_ret; auto.
    - intros newNode.
      eapply hoare_bind; [apply addDecorator_keepsName|].
      intros [r|]; [apply hoare_ret; auto|].
      eapply hoare_bind; [apply visitDecoratedProperty_keepsName|].
      intros [r|]; [apply hoare_ret; auto|exact Hdescent]. }
  destruct node; try exact Hdescent; try exact Hsteps.
  discriminate Hclass.
Qed.

Lemma visitNodes_keepsName (l l' : list Node) (s s' : State) :
  forallb noClassDeclaration l = true ->
  visitNodes v l s = Normal l' s' ->
  className s = c -> className s' = c.
Proof.
  intros Hnone Heq Hs.
  assert (Hv : Forall (visits (fun _ => True) named (fun _ _ => True) v) l).
  { apply forallb_Forall_eq in Hnone.
    eapply Forall_impl; [|exact Hnone]. intros child Hc s1 Hs1.
    pose proof (visitor_keepsName child Hc) as Hk.
    specialize (Hk s1 Hs1). destruct (v child s1); auto. }
  pose proof (hoare_visitNodes Hv) as Hh.
  specialize (Hh s Hs). rewrite Heq in Hh. apply Hh.
Qed.

End ClassNameKept.

Lemma forallb_filterOutFound (q p : Node -> bool) (l : list Node) :
  forallb q l = true -> forallb q (filterOutFound p l) = true.
Proof.
  intros H. apply forallb_Forall_eq. apply Forall_filterOutFound.
  apply forallb_Forall_eq. exact H.
Qed.

(** A member of a class is visited with the name of the class in
    [className] when no class declaration is in the parts of the class
    that are visited before it; the members keep their positions. *)
Lemma visitor_class_member (modifiers : list Node) (cn : string)
    (typeParameters heritageClauses before after : list Node)
    (member node' : Node) (s s' : State) :
  forallb noClassDeclaration
    (modifiers ++ typeParameters ++ heritageClauses ++ before) = true ->
  v (ClassDeclaration modifiers (Some (Identifier cn)) typeParameters
       heritageClauses (before ++ [member] ++ after)) s
  = Normal node' s' ->
  exists modifiers' typeParameters' heritageClauses' before' member' after'
         s1 s2,
    node'
    = ClassDeclaration modifiers' (Some (Identifier cn)) typeParameters'
        heritageClauses' (before' ++ [member'] ++ after')
    /\ length before' = length before
    /\ length after' = length after
    /\ className s1 = getText (Identifier cn)
    /\ v member s1 = Normal member' s2
    /\ advances s2 s'.
Proof.
  intros Hnone H.
  rewrite !forallb_app in Hnone.
  apply andb_prop in Hnone. destruct Hnone as [Hm Hnone].
  apply andb_prop in Hnone. destruct Hnone as [Ht Hnone].
  apply andb_prop in Hnone. destruct Hnone as [Hh Hb].
  assert (Hdescent : forall M s0,
    forallb noClassDeclaration M = true ->
    className s0 = getText (Identifier cn) ->
    visitEachChild v
      (ClassDeclaration M (Some (Identifier cn)) typeParameters
         heritageClauses (before ++ [member] ++ after)) s0
    = Normal node' s' ->
    exists modifiers' typeParameters' heritageClauses' before' member' after'
           s1 s2,
      node'
      = ClassDeclaration modifiers' (Some (Identifier cn)) typeParameters'
          heritageClauses' (before' ++ [member'] ++ after')
      /\ length before' = length before
      /\ length after' = length after
      /\ className s1 = getText (Identifier cn)
      /\ v member s1 = Normal member' s2
      /\ advances s2 s').
  { clear H. intros M s0 HM Hs0 H.
    cbv beta iota delta [visitEachChild] in H.
    cbn [bind ret Monad_M visitNode] in H.
    destruct (visitNodes v M s0) as [M' sa|e] eqn:HvM; [|discriminate H].
    change (v (Identifier cn) sa) with (Normal (Identifier cn) sa) in H.
    cbv beta iota in H.
    destruct (visitNodes v typeParameters sa) as [T' sb|e] eqn:HvT;
      [|discriminate H].
    destruct (visitNodes v heritageClauses sb) as [H' sc|e] eqn:HvH;
      [|discriminate H].
    destruct (visitNodes v (before ++ [member] ++ after) sc)
      as [members' sd|e] eqn:Hmembers; [|discriminate H].
    injection H as <- <-.
    apply visitNodes_app_inv in Hmembers.
    destruct Hmembers as [before' [rest [s1 [Hbefore [Hrest ->]]]]].
    apply visitNodes_cons_inv in Hrest.
    destruct Hrest as [member' [after' [s2 [Hmember [Hafter ->]]]]].
    exists M', T', H', before', member', after', s1, s2.
    split; [reflexivity|].
    split; [eapply visitNodes_length; exact Hbefore|].
    split; [eapply visitNodes_length; exact Hafter|].
    split; [|split; [exact Hmember|eapply visitNodes_advances; exact Hafter]].
    eapply visitNodes_keepsName; [exact Hb|exact Hbefore|].
    eapply visitNodes_keepsName; [exact Hh|exact HvH|].
    eapply visitNodes_keepsName; [exact Ht|exact HvT|].
    eapply visitNodes_keepsName; [exact HM|exact HvM|exact Hs0]. }
  rewrite visitor_class in H. cbn [bind setClassName Monad_M] in H.
  destruct (find (isAutoModelDecorator getText) modifiers).
  - cbn [bind setTransformed Monad_M] in H.
    apply (Hdescent _ _) in H; [exact H| |reflexivity].
    rewrite forallb_app. rewrite forallb_filterOutFound by exact Hm.
    reflexivity.
  - apply (Hdescent _ _ Hm) in H; [exact H|reflexivity].
Qed.

(** The visit of [fn = autoFlow(async (input) => body)]. *)
Lemma visitor_input_function (body : Node) (s : State) :
  (forall t, getText (Identifier t) = t) ->
  v (PropertyDeclaration [] (Identifier "fn") None None
       (Some (CallExpression (Identifier "autoFlow") []
                [ArrowFunction [Token SyntaxKind.AsyncKeyword] []
                   [ParameterDeclaration [] None (Identifier "input") None
                      None None]
                   None (Token SyntaxKind.EqualsGreaterThanToken) body]))) s
  = Normal
      (PropertyDeclaration [Decorator modelFlowExpression]
         (Identifier "fn") None None
         (Some (CallExpression _asyncExpression []
                  [FunctionExpression []
                     (Some (Token SyntaxKind.AsteriskToken)) None []
                     [ParameterDeclaration [] None (Identifier "this") None
                        (Some (TypeReferenceNode (Identifier (className s))
                                 []))
                        None;
                      ParameterDeclaration [] None (Identifier "input") None
                        None None]
                     None
                     (replaceYieldAndCheckNested _awaitExpression body)])))
      (mkState true (className s) (functionsToAddDecoratorsTo s ++ ["fn"])).
Proof.
  intros Hid.
  cbn [visitor isPropertyDeclaration]. cbn [bind Monad_M].
  rewrite visit_property_initializer by reflexivity.
  cbn. rewrite (Hid "input"). cbn. rewrite (Hid "fn").
  rewrite existsb_app. cbn. rewrite orb_true_r. reflexivity.
Qed.

End ClassMembers.

(* ================================================================== *)
(** * The claims of the specification *)

Import Examples.
Import Scenarios.

(** ** End to end *)

(** C1 as stated fails: a unit that contains the property is not always
    returned rewritten.  In [class Store { fn = autoFlow(async (input) =>
    { return await callApi(input); }); save = autoFlow(() => {}) }] the
    function of [save] is not async and the transformer throws: no unit
    is returned.  In [class Store { load = autoFlow(async () => { class
    Inner { fn = autoFlow(...) } }) }] the property is inside a function
    that is converted as a whole: the visitor does not reach it, and it
    is in the returned unit as it was. *)
Lemma end_to_end_context_counterexample :
  (exists e, transform storeWithPlainFunction noOptions = Throws e)
  /\ transform storeWithInnerClass noOptions
     = Returns
         (sourceUnit "x.ts"
            [ImportDeclaration []
               (Some (ImportClause false None
                        (Some (NamespaceImport (UniqueName "mobxKs")))))
               (StringLiteral "mobx-keystone");
             classDeclaration [] "Store"
               [property
                  [Decorator
                     (PropertyAccessExpression (UniqueName "mobxKs")
                        (Identifier "modelFlow"))]
                  "load"
                  (CallExpression
                     (PropertyAccessExpression (UniqueName "mobxKs")
                        (Identifier "_async")) []
                     [FunctionExpression [] (Some asterisk) None []
                        [thisParameter "Store"] None
                        (block [classDeclaration [] "Inner"
                                  [callApiProperty]])])]]).
Proof. split; [eexists|]; reflexivity. Qed.

(** C1, amended.  Let a class declaration named [className] have the
    property [fn = autoFlow(async (input) => body)] among its members,
    with no class declaration inside its modifiers, type parameters,
    heritage clauses and earlier members, and let the host give an
    identifier its text.

    Whenever the visitor visits the class and returns, the flag is set
    and the class comes back with its members at their positions and, in
    the place of the property, [@mobxKs.modelFlow fn =
    mobxKs._async(function* (this: className, input) body')], where
    [body'] is [body] rewritten with [mobxKs._await] and [mobxKs] is the
    generated name of the namespace import.

    When the class is a statement of the unit and the transformer, with
    the default configuration, returns a unit, that unit has the file
    name, flags and directives of the input, its first statement is the
    namespace import of ['mobx-keystone'] bound to the generated name,
    and after it come the statements of the input at their positions,
    the class rewritten as above.

    The rewrite of [{ return await callApi(input); }] is
    [{ return yield* mobxKs._await(callApi(input)); }]. *)
Theorem end_to_end_autoFlow_call (getText : Node -> string)
    (getFullText : Node -> FullText) (className : string) (body : Node)
    (modifiers typeParameters heritageClauses before after : list Node) :
  let mobxKs := UniqueName "mobxKs" in
  let adapter :=
    fun name => PropertyAccessExpression mobxKs (Identifier name) in
  let class :=
    ClassDeclaration modifiers (Some (Identifier className)) typeParameters
      heritageClauses
      (before
       ++ [property [] "fn"
             (call "autoFlow" [asyncArrow [parameter "input"] body])]
       ++ after) in
  let converted :=
    PropertyDeclaration [Decorator (adapter "modelFlow")] (Identifier "fn")
      None None
      (Some (CallExpression (adapter "_async") []
               [FunctionExpression [] (Some asterisk) None []
                  [thisParameter className; parameter "input"] None
                  (replaceYieldAndCheckNested (adapter "_await") body)])) in
  let rewritten := fun class' =>
    exists modifiers' typeParameters' heritageClauses' before' after',
      class'
      = ClassDeclaration modifiers' (Some (Identifier className))
          typeParameters' heritageClauses'
          (before' ++ [converted] ++ after')
      /\ length before' = length before
      /\ length after' = length after in
  (forall t, getText (Identifier t) = t) ->
  forallb noClassDeclaration
    (modifiers ++ typeParameters ++ heritageClauses ++ before) = true ->
  (forall options resSource s class' s',
     visitor getText getFullText options resSource class s
     = Normal class' s' ->
     transformed s' = true /\ rewritten class')
  /\ (forall source pre post result,
        statements source = pre ++ [class] ++ post ->
        visitSourceFile getText getFullText source noOptions
        = Returns result ->
        exists pre' class' post',
          result
          = updateSourceFile (fileName source)
              (ImportDeclaration []
                 (Some (ImportClause false None
                          (Some (NamespaceImport mobxKs))))
                 (StringLiteral "mobx-keystone")
               :: pre' ++ [class'] ++ post')
              (isDeclarationFile source) (referencedFiles source)
              (typeReferenceDirectives source) (hasNoDefaultLib source)
              (libReferenceDirectives source)
          /\ length pre' = length pre
          /\ length post' = length post
          /\ rewritten class')
  /\ replaceYieldAndCheckNested (adapter "_await") callApiBody
     = block [returnStatement
                (YieldExpression (Some asterisk)
                   (Some (CallExpression (adapter "_await") []
                            [call "callApi" [Identifier "input"]])))].
Proof.
  intros mobxKs adapter class converted rewritten Hid Hnone.
  assert (Hclass : forall options resSource s class' s',
    visitor getText getFullText options resSource class s
    = Normal class' s' ->
    transformed s' = true /\ rewritten class').
  { intros options resSource s class' s' Hvisit.
    eapply visitor_class_member in Hvisit; [|exact Hnone].
    destruct Hvisit
      as [modifiers' [typeParameters' [heritageClauses' [before' [member'
           [after' [s1 [s2 [-> [Hb [Ha [Hname [Hmember Hadv]]]]]]]]]]]]].
    unfold property, call, asyncArrow, parameter, asyncKeyword, arrowToken
      in Hmember.
    rewrite visitor_input_function in Hmember by exact Hid.
    injection Hmember as <- <-.
    split; [apply Hadv; reflexivity|].
    exists modifiers', typeParameters', heritageClauses', before', after'.
    rewrite Hname, Hid. repeat split; assumption. }
  split; [exact Hclass|]. split; [|reflexivity].
  intros source pre post result Hstatements Hreturns.
  unfold visitSourceFile in Hreturns.
  cbn [addImportMobxStatement statements fileName isDeclarationFile
       referencedFiles typeReferenceDirectives hasNoDefaultLib
       libReferenceDirectives] in Hreturns.
  rewrite visitNodes_cons in Hreturns. cbn [bind Monad_M] in Hreturns.
  rewrite (visitor_import getText getFullText noOptions _
             (mobxPackageOf noOptions) initialState) in Hreturns.
  rewrite Hstatements in Hreturns.
  match type of Hreturns with
  | context [visitNodes ?f ?l ?s] =>
      destruct (visitNodes f l s) as [l' sf|e] eqn:Hvisit;
        [|discriminate Hreturns]
  end.
  apply visitNodes_app_inv in Hvisit.
  destruct Hvisit as [pre' [rest [s1 [Hpre [Hrest ->]]]]].
  apply visitNodes_cons_inv in Hrest.
  destruct Hrest as [class' [post' [s2 [Hvisit [Hpost ->]]]]].
  destruct (Hclass _ _ _ _ _ Hvisit) as [Hflag Hrewritten].
  assert (Hfinal : transformed sf = true).
  { eapply visitNodes_advances in Hpost. apply Hpost. exact Hflag. }
  cbn [ret Monad_M] in Hreturns. rewrite Hfinal in Hreturns.
  injection Hreturns as <-.
  exists pre', class', post'.
  split; [reflexivity|].
  split; [eapply visitNodes_length; exact Hpre|].
  split; [eapply visitNodes_length; exact Hpost|exact Hrewritten].
Qed.

Lemma end_to_end_autoFlow_call_witness :
  exists pre' class' post',
    sourceUnit "x.ts"
      [ImportDeclaration []
         (Some (ImportClause false None
                  (Some (NamespaceImport (UniqueName "mobxKs")))))
         (StringLiteral "mobx-keystone");
       OtherNode SyntaxKind.VariableStatement
         [OtherNode SyntaxKind.VariableDeclarationList
            [OtherNode SyntaxKind.VariableDeclaration
               [Identifier "limit"; OtherNode SyntaxKind.NumericLiteral []]]];
       classDeclaration [] "Store"
         [property [] "count" (OtherNode SyntaxKind.NumericLiteral []);
          PropertyDeclaration
            [Decorator
               (PropertyAccessExpression (UniqueName "mobxKs")
                  (Identifier "modelFlow"))]
            (Identifier "fn") None None
            (Some (CallExpression
                     (PropertyAccessExpression (UniqueName "mobxKs")
                        (Identifier "_async")) []
                     [FunctionExpression [] (Some asterisk) None []
                        [thisParameter "Store"; parameter "input"] None
                        (block
                           [returnStatement
                              (YieldExpression (Some asterisk)
                                 (Some
                                    (CallExpression
                                       (PropertyAccessExpression
                                          (UniqueName "mobxKs")
                                          (Identifier "_await")) []
                                       [call "callApi"
                                          [Identifier "input"]])))])]));
          MethodDeclaration [] None (Identifier "reset") None [] [] None
            (Some (block []))];
       expressionStatement (Identifier "done")]
    = updateSourceFile "x.ts"
        (ImportDeclaration []
           (Some (ImportClause false None
                    (Some (NamespaceImport (UniqueName "mobxKs")))))
           (StringLiteral "mobx-keystone")
         :: pre' ++ [class'] ++ post')
        false [] [] false []
    /\ length pre' = 1
    /\ length post' = 1
    /\ exists modifiers' typeParameters' heritageClauses' before' after',
         class'
         = ClassDeclaration modifiers' (Some (Identifier "Store"))
             typeParameters' heritageClauses'
             (before'
              ++ [PropertyDeclaration
                    [Decorator
                       (PropertyAccessExpression (UniqueName "mobxKs")
                          (Identifier "modelFlow"))]
                    (Identifier "fn") None None
                    (Some (CallExpression
                             (PropertyAccessExpression (UniqueName "mobxKs")
                                (Identifier "_async")) []
                             [FunctionExpression [] (Some asterisk) None []
                                [thisParameter "Store"; parameter "input"]
                                None
                                (replaceYieldAndCheckNested
                                   (PropertyAccessExpression
                                      (UniqueName "mobxKs")
                                      (Identifier "_await"))
                                   callApiBody)]))]
              ++ after')
         /\ length before' = 1
         /\ length after' = 1.
Proof.
  exact (proj1 (proj2
    (@end_to_end_autoFlow_call sourceText sourceFullText "Store" callApiBody
       [] [] []
       [property [] "count" (OtherNode SyntaxKind.NumericLiteral [])]
       [MethodDeclaration [] None (Identifier "reset") None [] [] None
          (Some (block []))]
       (fun t => eq_refl) eq_refl))
    storeUnit
    [OtherNode SyntaxKind.VariableStatement
       [OtherNode SyntaxKind.VariableDeclarationList
          [OtherNode SyntaxKind.VariableDeclaration
             [Identifier "limit"; OtherNode SyntaxKind.NumericLiteral []]]]]
    [expressionStatement (Identifier "done")] _ eq_refl eq_refl).
Defined.

(** The two other surface forms on the same function, in [class Test]:
    [@autoFlow fn = async (input) => { return await callApi(input); }] and
    [@autoFlow async fn(input) { return await callApi(input); }] both give
    [@mobxKs.modelFlow fn = mobxKs._async(function* (this: Test, input)
    { return yield* mobxKs._await(callApi(input)); })]. *)
Lemma end_to_end_decorated_forms (path : string) :
  let converted :=
    Returns
      (sourceUnit path
         [namespaceImport "mobx-keystone";
          classDeclaration [] "Test"
            [property [Decorator modelFlowExpression] "fn"
               (asyncGenerator [thisParameter "Test"; parameter "input"]
                  (block [returnStatement
                            (yieldAwait
                               (call "callApi" [Identifier "input"]))]))]]) in
  transform
    (sourceUnit path
       [classDeclaration [] "Test"
          [property [decorator "autoFlow"] "fn"
             (asyncArrow [parameter "input"] callApiBody)]])
    noOptions
  = converted
  /\ transform
       (sourceUnit path
          [classDeclaration [] "Test"
             [MethodDeclaration [decorator "autoFlow"; asyncKeyword] None
                (Identifier "fn") None [] [parameter "input"] None
                (Some callApiBody)]])
       noOptions
     = converted.
Proof. split; reflexivity. Qed.

(** An explicit [this] parameter is not doubled:
    [fn = autoFlow(async function (this: Test, input) {})]. *)
Lemma end_to_end_explicit_this (path : string) :
  transform
    (sourceUnit path
       [classDeclaration [] "Test"
          [property [] "fn"
             (call "autoFlow"
                [FunctionExpression [asyncKeyword] None None []
                   [thisParameter "Test"; parameter "input"] None
                   (block [])])]])
    noOptions
  = Returns
      (sourceUnit path
         [namespaceImport "mobx-keystone";
          classDeclaration [] "Test"
            [property [Decorator modelFlowExpression] "fn"
               (asyncGenerator [thisParameter "Test"; parameter "input"]
                  (block []))]]).
Proof. reflexivity. Qed.

(** ** The no-op guarantee *)

(** C2 fails on the code.  The unit [@registered('autoModel') class
    Test {}] has no [@autoFlow] and no [@autoModel] annotation and no
    wrapper call: its only annotation is named [registered].  The
    transformer does not return it as it is.  The class test of the
    visitor goes by the text of a modifier, which here includes
    [autoModel]: the annotation is deleted, the identity annotation is
    put in its place and the import is added.  The source announces
    classes marked with [@autoModel], and the decorators of the flow
    path are told by their name. *)
Theorem noop_broken_by_text_match :
  hasDecorator (nodeModifiers registeredClass) "autoModel" = false
  /\ hasDecorator (nodeModifiers registeredClass) autoFlow = false
  /\ isAutoFlowCall (call "registered" [StringLiteral "autoModel"]) = false
  /\ transform (sourceUnit "a/b/Test.ts" [registeredClass]) noOptions
     = Returns
         (sourceUnit "a/b/Test.ts"
            [ImportDeclaration []
               (Some (ImportClause false None
                        (Some (NamespaceImport (UniqueName "mobxKs")))))
               (StringLiteral "mobx-keystone");
             classDeclaration
               [Decorator
                  (CallExpression
                     (PropertyAccessExpression (UniqueName "mobxKs")
                        (Identifier "model")) []
                     [StringLiteral "a/b/Test.ts"])]
               "Test" []])
  /\ transform (sourceUnit "a/b/Test.ts" [registeredClass]) noOptions
     <> Returns (sourceUnit "a/b/Test.ts" [registeredClass]).
Proof. repeat split; try reflexivity. discriminate. Qed.

(** ** Nested functions *)

(** C3.  When [createNewFunctionBlock] converts a function, the nested
    function-like nodes of the new body are the nested function-like
    nodes of the old body, node for node and in the same order, and the
    rewrite returns each of them as it is: no await inside a nested
    function is rewritten. *)
Theorem nested_functions_untouched (fn body : Node) :
  isArrowFunction fn || isFunctionExpression fn = true ->
  fnBody fn = Some body ->
  exists body',
    fnBody (createNewFunctionBlock fn _awaitExpression) = Some body'
    /\ nestedFunctions body' = nestedFunctions body
    /\ Forall (fun nested =>
                 isFunctionLike nested = true
                 /\ replaceYieldAndCheckNested _awaitExpression nested
                    = nested)
         (nestedFunctions body).
Proof.
  intros Hfn Hbody.
  exists (replaceYieldAndCheckNested _awaitExpression body).
  split; [|split].
  - destruct fn; try discriminate Hfn; cbn in *; congruence.
  - apply replaceYield_nestedFunctions. reflexivity.
  - eapply Forall_impl; [|apply nestedFunctions_functionLike].
    intros nested H. split; [exact H|].
    apply replaceYield_functionLike. exact H.
Qed.

Lemma nested_functions_untouched_witness :
  exists body',
    fnBody (createNewFunctionBlock outerArrow _awaitExpression) = Some body'
    /\ nestedFunctions body' = [nestedArrow]
    /\ Forall (fun nested =>
                 isFunctionLike nested = true
                 /\ replaceYieldAndCheckNested _awaitExpression nested
                    = nested)
         [nestedArrow].
Proof.
  exact (@nested_functions_untouched outerArrow outerBody eq_refl eq_refl).
Defined.

(** The conversion of [async () => { await a(); async () => await b(); }]:
    the outer await is rewritten, the nested function is not. *)
Lemma createNewFunctionBlock_outerArrow :
  createNewFunctionBlock outerArrow _awaitExpression
  = asyncArrow []
      (block [expressionStatement (yieldAwait (call "a" []));
              expressionStatement nestedArrow]).
Proof. reflexivity. Qed.

(** ** The annotations of a converted declaration *)

(** C4 as stated fails.  The property
    [@foo @autoFlow @modelFlow fn = async () => {}] is rewritten through
    the decorated-property form and the first modifier of the result is
    [@foo], which is no flow annotation: [ensureDecorators] adds nothing
    when a bare [@modelFlow] is among the modifiers. *)
Lemma flow_annotation_first_counterexample :
  visitor sourceText sourceFullText noOptions emptyUnit annotatedProperty
    initialState
  = Normal
      (property [decorator "foo"; decorator "modelFlow"] "fn"
         (asyncGenerator [thisParameter ""] (block [])))
      (mkState true "" [])
  /\ hasDecorator (nodeModifiers annotatedProperty) autoFlow = true
  /\ decorator "foo" <> Decorator modelFlowExpression
  /\ isSpecificDecorator (decorator "foo") modelFlow = false.
Proof. repeat split; try reflexivity. discriminate. Qed.

(** C4, amended.  A declaration with [@autoFlow] that is a property with
    an async function value, or a method with a body (which
    [methodToProperty] turns into such a property), and none of whose
    children is an [autoFlow] call, is rewritten to a property whose
    modifiers are [ensureDecorators] of the original ones.  That list has
    no [@autoFlow] and no async keyword.  When the original list has no
    bare [@modelFlow], its first element is the decorator of the flow
    reference; when it has one, nothing is added and the list is the
    original one without the async keyword and [@autoFlow]. *)
Theorem flow_annotation_normalised (getText : Node -> string)
    (getFullText : Node -> FullText)
    (options : Options) (resSource : SourceFile)
    (decl : Node) (modifiers : list Node) (name : Node)
    (token type : option Node) (fn : Node) (s : State) :
  hasDecorator (nodeModifiers decl) autoFlow = true ->
  methodToProperty decl
  = PropertyDeclaration modifiers name token type (Some fn) ->
  isArrowFunction fn || isFunctionExpression fn = true ->
  isAsyncFunction fn = true ->
  existsb isAutoFlowCall (children decl) = false ->
  let res := ensureDecorators modifiers modelFlowExpression in
  (exists initializer s',
     visitor getText getFullText options resSource decl s
     = Normal (PropertyDeclaration res name (propertyQuestionToken token)
                 type initializer) s')
  /\ hasDecorator res autoFlow = false
  /\ existsb isAsyncKeyword res = false
  /\ (hasDecorator modifiers modelFlow = false ->
      res = Decorator modelFlowExpression :: filter keptModifier modifiers)
  /\ (hasDecorator modifiers modelFlow = true ->
      res = filter keptModifier modifiers).
Proof.
  intros Hdec Hprop Hfn Hasync Hplain res.
  split; [|apply ensureDecorators_spec].
  pose proof (transformFunction_async getText getFullText
                (createNewFunctionBlock fn _awaitExpression)) as Htf.
  assert (Hfn' : isArrowFunction (createNewFunctionBlock fn _awaitExpression)
                 || isFunctionExpression
                      (createNewFunctionBlock fn _awaitExpression) = true)
    by (destruct fn; try discriminate Hfn; reflexivity).
  assert (Hasync' : isAsyncFunction
                      (createNewFunctionBlock fn _awaitExpression) = true)
    by (rewrite isAsyncFunction_createNewFunctionBlock; exact Hasync).
  destruct decl; try discriminate Hprop.
  - (* the property form *)
    cbn [methodToProperty] in Hprop. injection Hprop as -> -> -> -> ->.
    cbn [nodeModifiers] in Hdec.
    rewrite visitor_plain_property by exact Hplain.
    destruct (JsString.arrayIncludes _ _); [eauto|].
    cbn [visitDecoratedProperty]. rewrite Hdec, Hfn.
    cbn [bind ret Monad_M setTransformed get className].
    destruct (Htf _asyncExpression (className s)
                (mkState true (className s) (functionsToAddDecoratorsTo s))
                Hfn' Hasync') as [body [_ ->]].
    cbn [transformPropertyDeclaration]. eauto.
  - (* the method form *)
    cbn [nodeModifiers] in Hdec. cbn [methodToProperty] in Hprop.
    destruct body as [b|]; [|discriminate Hprop].
    rewrite Hdec in Hprop. injection Hprop as <- <- <- <- <-.
    cbn [visitor isPropertyDeclaration methodToProperty].
    rewrite Hdec. cbn [bind ret Monad_M addDecorator visitDecoratedProperty].
    rewrite Hdec. cbn [isArrowFunction isFunctionExpression orb].
    cbn [bind ret Monad_M setTransformed get className].
    destruct (Htf _asyncExpression (className s)
                (mkState true (className s) (functionsToAddDecoratorsTo s))
                Hfn' Hasync') as [body [_ Heq]].
    rewrite Heq.
    cbn [transformPropertyDeclaration]. eauto.
Qed.

Lemma flow_annotation_normalised_witness :
  (exists initializer s',
     visitor sourceText sourceFullText noOptions emptyUnit annotatedMethod
       initialState
     = Normal
         (PropertyDeclaration [Decorator modelFlowExpression]
            (Identifier "fn") None None initializer) s')
  /\ hasDecorator [Decorator modelFlowExpression] autoFlow = false
  /\ existsb isAsyncKeyword [Decorator modelFlowExpression] = false.
Proof.
  pose proof (@flow_annotation_normalised sourceText sourceFullText noOptions
                emptyUnit annotatedMethod
                [decorator "autoFlow"; asyncKeyword] (Identifier "fn")
                None None
                (FunctionExpression [decorator "autoFlow"; asyncKeyword]
                   None (Some (Identifier "fn")) [] [] None (block []))
                initialState eq_refl eq_refl eq_refl eq_refl eq_refl) as H.
  cbv zeta in H. destruct H as [Hvisit [Hflow [Hasync _]]].
  split; [exact Hvisit|]. split; [exact Hflow|exact Hasync].
Defined.

(** ** The class identity *)

(** C5 fails on the code.  The class [@autoModelLike class Test {}] has
    no annotation named [autoModel], and the rewriter fires on it: the
    test of the visitor is that the text of a modifier includes
    [autoModel], not that the modifier is the decorator of that name.
    The annotation [@autoModelLike] is deleted and the identity
    annotation is put in its place.  The source says that it removes the
    autoModel decorator, and [isSpecificDecorator], which the flow path
    uses, tells a decorator by its name. *)
Theorem class_rewriter_fires_on_lookalike :
  hasDecorator (nodeModifiers lookalikeClass) "autoModel" = false
  /\ isSpecificDecorator (decorator "autoModelLike") "autoModel" = false
  /\ transform (sourceUnit "a/b/Test.ts" [lookalikeClass]) noOptions
     = Returns
         (sourceUnit "a/b/Test.ts"
            [ImportDeclaration []
               (Some (ImportClause false None
                        (Some (NamespaceImport (UniqueName "mobxKs")))))
               (StringLiteral "mobx-keystone");
             classDeclaration
               [Decorator
                  (CallExpression
                     (PropertyAccessExpression (UniqueName "mobxKs")
                        (Identifier "model")) []
                     [StringLiteral "a/b/Test.ts"])]
               "Test" []]).
Proof. repeat split; reflexivity. Qed.

(** What the visitor does with a class.  The rewriter fires exactly when
    the text of one of the modifiers includes [autoModel].  Then the
    first such modifier is dropped, the identity annotation is added
    after the remaining ones, its sole argument being the configured
    function applied to the file name of the unit, or the file name
    itself when no function is configured, and the flag is set; the
    children of that class are visited next.  Otherwise the children of
    the class as it is are visited and the flag keeps its value.  Either
    way the class name is recorded. *)
Lemma class_identity_rewriter (getText : Node -> string)
    (getFullText : Node -> FullText)
    (options : Options) (resSource : SourceFile)
    (modifiers : list Node) (name : option Node)
    (typeParameters heritageClauses members : list Node) (s : State) :
  let v := visitor getText getFullText options resSource in
  let isTrigger := fun x => JsString.includes (getText x) "autoModel" in
  let identity :=
    match generateModelNameFromFilename options with
    | Some f => f (fileName resSource)
    | None => fileName resSource
    end in
  let named := fun b =>
    mkState b (match name with Some n => getText n | None => "" end)
      (functionsToAddDecoratorsTo s) in
  v (ClassDeclaration modifiers name typeParameters heritageClauses members) s
  = if existsb isTrigger modifiers
    then visitEachChild v
           (ClassDeclaration
              (filterOutFound isTrigger modifiers
                 ++ [identityAnnotation identity])
              name typeParameters heritageClauses members)
           (named true)
    else visitEachChild v
           (ClassDeclaration modifiers name typeParameters heritageClauses
              members)
           (named (transformed s)).
Proof.
  intros v isTrigger identity named. unfold v.
  rewrite visitor_class. cbn [bind Monad_M setClassName].
  change (isAutoModelDecorator getText) with isTrigger.
  destruct (find isTrigger modifiers) as [d|] eqn:Hfind.
  - assert (existsb isTrigger modifiers = true) as ->.
    { apply existsb_exists. exists d. apply find_some in Hfind. exact Hfind. }
    reflexivity.
  - assert (existsb isTrigger modifiers = false) as ->.
    { rewrite <- not_true_iff_false. intros H.
      apply existsb_exists in H. destruct H as [x [Hx Hp]].
      apply (find_none _ _ Hfind) in Hx. congruence. }
    reflexivity.
Qed.

(** The examples of the specification: [@autoModel class Test {}] in the
    unit at [path], without and with a name-derivation function. *)
Lemma class_identity_examples (path : string) (f : string -> string) :
  transform
    (sourceUnit path [classDeclaration [decorator "autoModel"] "Test" []])
    noOptions
  = Returns
      (sourceUnit path
         [namespaceImport "mobx-keystone";
          classDeclaration [identityAnnotation path] "Test" []])
  /\ transform
       (sourceUnit path [classDeclaration [decorator "autoModel"] "Test" []])
       (mkOptions None (Some f))
     = Returns
         (sourceUnit path
            [namespaceImport "mobx-keystone";
             classDeclaration [identityAnnotation (f path)] "Test" []]).
Proof. split; reflexivity. Qed.

(** ** Idempotence of the annotation normalizer *)

(** C6 fails on the code.  On the empty modifier list, with the flow
    reference that [visitSourceFile] passes, one run of [ensureDecorators]
    gives one decorator and a second run gives two: [hasDecorator] looks
    for a decorator that is the bare identifier [modelFlow], and the
    decorator that [ensureDecorators] adds is a property access. *)
Theorem ensureDecorators_not_idempotent :
  ensureDecorators [] modelFlowExpression = [Decorator modelFlowExpression]
  /\ ensureDecorators (ensureDecorators [] modelFlowExpression)
       modelFlowExpression
     = [Decorator modelFlowExpression; Decorator modelFlowExpression]
  /\ ensureDecorators (ensureDecorators [] modelFlowExpression)
       modelFlowExpression
     <> ensureDecorators [] modelFlowExpression.
Proof. repeat split; try reflexivity. discriminate. Qed.

(** The same for every modifier list without a bare [@modelFlow]. *)
Lemma ensureDecorators_twice_absent (modifiers : list Node) :
  hasDecorator modifiers modelFlow = false ->
  ensureDecorators (ensureDecorators modifiers modelFlowExpression)
    modelFlowExpression
  = Decorator modelFlowExpression
      :: ensureDecorators modifiers modelFlowExpression.
Proof.
  intros H. rewrite (ensureDecorators_eq modifiers).
  rewrite hasDecorator_kept_modelFlow, H.
  rewrite ensureDecorators_eq. cbn [filter keptModifier isAsyncKeyword
    isSpecificDecorator modelFlowExpression
    createMobxKsPropertyAccessExpression isIdentifier andb negb].
  rewrite filter_keptModifier_idem.
  rewrite hasDecorator_existsb. cbn [existsb isSpecificDecorator
    modelFlowExpression createMobxKsPropertyAccessExpression isIdentifier
    andb orb].
  rewrite <- hasDecorator_existsb, hasDecorator_kept_modelFlow, H.
  reflexivity.
Qed.

(** ** Functions that are not async *)

(** C7.  For an arrow function or a function expression [fn] without the
    async keyword, [transformFunction] throws: the error "Could not
    resolve expression as async function" with the text of [fn] when the
    host has that text, and otherwise what [fn.getFullText()] throws
    while the message is built.  So the visit of a property
    [name = autoFlow(fn)] throws, and so does the visit of a property
    [@autoFlow name = fn] that reaches the conversion (its name was not
    pushed and no other child is an [autoFlow] call); neither returns a
    node. *)
Theorem non_async_function_throws (getText : Node -> string)
    (getFullText : Node -> FullText)
    (options : Options) (resSource : SourceFile) (fn : Node) :
  isArrowFunction fn || isFunctionExpression fn = true ->
  existsb isAsyncKeyword (nodeModifiers fn) = false ->
  (forall asyncIdentifier className s,
     transformFunction getText getFullText fn asyncIdentifier className s
     = Thrown
         match getFullText fn with
         | HasText text =>
             Error (errorMessage
               ("Could not resolve expression as async function: " ++ text))
         | NoText failure => textFailureException failure
         end)
  /\ (forall modifiers name token type callee typeArguments rest s,
        isIdentifier callee
        && JsString.startsWith (identifierText callee) autoFlow = true ->
        throws (visitor getText getFullText options resSource
                  (PropertyDeclaration modifiers name token type
                     (Some (CallExpression callee typeArguments (fn :: rest))))
                  s))
  /\ (forall modifiers name token type s,
        hasDecorator modifiers autoFlow = true ->
        existsb isAutoFlowCall (modifiers ++ [name] ++ optionToList type)
        = false ->
        JsString.arrayIncludes (functionsToAddDecoratorsTo s) (getText name)
        = false ->
        throws (visitor getText getFullText options resSource
                  (PropertyDeclaration modifiers name token type (Some fn))
                  s)).
Proof.
  intros Hfn Hasync.
  assert (Hna : forall aw, isAsyncFunction (createNewFunctionBlock fn aw)
                           = false).
  { intros aw. rewrite isAsyncFunction_createNewFunctionBlock.
    apply not_async_without_keyword. exact Hasync. }
  split; [|split].
  - intros. apply transformFunction_not_async.
    apply not_async_without_keyword. exact Hasync.
  - intros modifiers name token type callee typeArguments rest s Hcallee.
    cbn [visitor isPropertyDeclaration]. apply throws_bind.
    apply throws_bind. cbv beta iota delta [visitEachChild].
    apply bind_throws; intros modifiers' s1.
    apply bind_throws; intros name' s2.
    apply bind_throws; intros type' s3.
    apply throws_bind. cbn [visitNode]. apply throws_bind.
    cbn [visitPropertyChild]. rewrite Hcallee, Hfn.
    apply bind_throws; intros _ s4.
    apply bind_throws; intros _ s5.
    apply bind_throws; intros s6 s7.
    rewrite transformFunction_not_async by apply Hna. exact Logic.I.
  - intros modifiers name token type s Hdec Hplain Hname.
    rewrite visitor_plain_property.
    + rewrite Hname. apply throws_bind.
      cbn [visitDecoratedProperty]. rewrite Hdec, Hfn.
      apply bind_throws; intros _ s1.
      apply bind_throws; intros s2 s3.
      apply throws_bind.
      rewrite transformFunction_not_async by apply Hna. exact Logic.I.
    + cbn [children]. rewrite !existsb_app in *. cbn [optionToList existsb].
      rewrite (function_not_autoFlowCall fn Hfn).
      apply orb_false_iff in Hplain. destruct Hplain as [-> Hplain].
      cbn [app existsb] in Hplain.
      apply orb_false_iff in Hplain. destruct Hplain as [-> ->].
      reflexivity.
Qed.

Lemma non_async_function_throws_witness :
  transformFunction sourceText sourceFullText notAsync _asyncExpression "Store"
    initialState
  = Thrown (Error (errorMessage
      ("Could not resolve expression as async function: "
         ++ sourceText notAsync)))
  /\ throws (visitor sourceText sourceFullText noOptions emptyUnit
               (property [] "save" (call "autoFlow" [notAsync]))
               initialState)
  /\ throws (visitor sourceText sourceFullText noOptions emptyUnit
               (property [decorator "autoFlow"] "save" notAsync)
               initialState).
Proof.
  pose proof (@non_async_function_throws sourceText sourceFullText noOptions
                emptyUnit notAsync eq_refl eq_refl) as [Hf [Hcall Hdec]].
  split; [apply Hf|]. split.
  - apply (Hcall [] (Identifier "save") None None (Identifier "autoFlow")
             [] [] initialState eq_refl).
  - apply (Hdec [decorator "autoFlow"] (Identifier "save") None None
             initialState eq_refl eq_refl eq_refl).
Defined.

(** The unit [class Store { save = autoFlow(() => {}) }] is not
    transformed: the transformer throws. *)
Lemma non_async_unit_throws :
  transform
    (sourceUnit "store.ts"
       [classDeclaration [] "Store"
          [property [] "save" (call "autoFlow" [notAsync])]])
    noOptions
  = Throws (Error (errorMessage
      "Could not resolve expression as async function: () => { }")).
Proof. reflexivity. Qed.

(** ** An argument that is no function *)

(** What the visitor does with a property [name = autoFlow(arg, ...)]
    whose first argument is no function: the name is pushed, the flag
    keeps its value, nothing is thrown, and the property comes back with
    its modifiers normalized. *)
Lemma visitor_unsupported_argument (getText : Node -> string)
    (getFullText : Node -> FullText)
    (options : Options) (resSource : SourceFile)
    (modifiers : list Node) (name : Node) (token type : option Node)
    (callee : Node) (typeArguments : list Node) (arg : Node)
    (rest : list Node) (s : State) :
  isIdentifier callee
  && JsString.startsWith (identifierText callee) autoFlow = true ->
  isArrowFunction arg || isFunctionExpression arg = false ->
  existsb isAutoFlowCall (modifiers ++ [name] ++ optionToList type) = false ->
  visitor getText getFullText options resSource
    (PropertyDeclaration modifiers name token type
       (Some (CallExpression callee typeArguments (arg :: rest)))) s
  = Normal
      (PropertyDeclaration (ensureDecorators modifiers modelFlowExpression)
         name (propertyQuestionToken token) type
         (Some (CallExpression callee typeArguments (arg :: rest))))
      (mkState (transformed s) (className s)
         (functionsToAddDecoratorsTo s ++ [getText name])).
Proof.
  intros Hcallee Harg Hplain.
  apply existsb_app_false in Hplain. destruct Hplain as [Hm Hplain].
  apply (existsb_app_false _ [name]) in Hplain. destruct Hplain as [Hn Ht].
  cbn [visitor isPropertyDeclaration]. cbn [bind Monad_M].
  cbv beta iota delta [visitEachChild]. cbn [bind Monad_M].
  rewrite (@visitNodes_leaves _ _ s
             (@visitPropertyChild_leaves getText getFullText _ _ Hm)).
  cbn [existsb] in Hn. rewrite orb_false_r in Hn.
  rewrite (@visitPropertyChild_other_node getText getFullText _ _ s Hn).
  rewrite (@visitNode_leaves _ _ s
             (@visitPropertyChild_leaves getText getFullText _ _ Ht)).
  cbn [visitNode visitPropertyChild bind Monad_M]. rewrite Hcallee, Harg.
  cbn [bind ret Monad_M pushFunctionToAddDecoratorsTo addDecorator get
       functionsToAddDecoratorsTo].
  rewrite arrayIncludes_snoc. reflexivity.
Qed.


(** C8 fails on the code.  In the class
    [{ load = autoFlow(async () => {}); save = autoFlow(handler) }] the
    argument of the second call is an identifier.  The visitor pushes the
    name [save] before it looks at the argument, so the decorator step
    rewrites the modifiers of [save]; the conversion of [load] sets the
    flag, and the returned unit has [@mobxKs.modelFlow] on [save]. *)
Theorem unsupported_argument_gets_decorator :
  transform unsupportedArgumentUnit noOptions
  = Returns
      (sourceUnit "store.ts"
         [namespaceImport "mobx-keystone";
          classDeclaration [] "Store"
            [property [Decorator modelFlowExpression] "load"
               (asyncGenerator [thisParameter "Store"] (block []));
             property [Decorator modelFlowExpression] "save"
               (call "autoFlow" [Identifier "handler"])]]).
Proof. reflexivity. Qed.

(** Alone in its unit the same property comes back as it is: nothing sets
    the flag and the unit of the input is returned. *)
Lemma unsupported_argument_alone :
  transform
    (sourceUnit "store.ts"
       [classDeclaration [] "Store"
          [property [] "save" (call "autoFlow" [Identifier "handler"])]])
    noOptions
  = Returns
      (sourceUnit "store.ts"
         [classDeclaration [] "Store"
            [property [] "save" (call "autoFlow" [Identifier "handler"])]]).
Proof. reflexivity. Qed.

(** ** The unreachable error *)

(** C9.  No visit of a node, from any state, and no transformation of a
    unit ends in the error "Could not resolve property declaration": the
    branch that throws it is entered with a property declaration only. *)
Theorem unresolved_property_unreachable (getText : Node -> string)
    (getFullText : Node -> FullText)
    (options : Options) (resSource source : SourceFile) (node : Node)
    (s : State) :
  throwsUnresolvedProperty
    (visitor getText getFullText options resSource node s) = false
  /\ throwsUnresolvedProperty
       (outcomeCompletion (visitSourceFile getText getFullText source options))
     = false.
Proof.
  assert (Hother : forall (A : Type) (c : Completion A),
            match c with
            | Normal _ _ => True
            | Thrown e => otherError e
            end -> throwsUnresolvedProperty c = false).
  { intros A [a s'|[m|m]] H; try reflexivity.
    unfold throwsUnresolvedProperty.
    destruct (String.eqb_spec m
                (errorMessage "Could not resolve property declaration"))
      as [->|]; [|reflexivity].
    exfalso. apply H. reflexivity. }
  split.
  - apply Hother.
    exact (@visitor_other getText getFullText options resSource node s
             Logic.I).
  - apply Hother. unfold visitSourceFile.
    set (res := addImportMobxStatement source (mobxPackageOf options)
                  mobxNamespaceImport).
    pose proof (@hoare_visitNodes otherError (fun _ => True)
                  (fun _ _ => True)
                  (visitor getText getFullText options res)
                  (statements res)) as H.
    assert (Forall (visits otherError (fun _ => True) (fun _ _ => True)
                      (visitor getText getFullText options res))
              (statements res)) as Hall.
    { apply Forall_forall. intros c _.
      eapply hoare_weaken; [apply visitor_other| |]; auto. }
    specialize (H Hall initialState Logic.I).
    destruct (visitNodes (visitor getText getFullText options res)
                (statements res) initialState) as [l s'|e];
      [destruct (transformed s'); exact Logic.I|exact H].
Qed.

(** ** The form of the trigger decorator *)

(** C10 as stated fails.  The only decorator of
    [@autoFlow() fn = autoFlow(async () => {})] is written as a call, and
    the property does not pass through the default descent, which would
    return it as it is: the wrapper-call path rewrites it. *)
Lemma call_form_decorator_descent_counterexample :
  forallb isCallOrAccessDecorator (nodeModifiers callFormWrapperProperty)
  = true
  /\ hasDecorator (nodeModifiers callFormWrapperProperty) autoFlow = false
  /\ visitor sourceText sourceFullText noOptions emptyUnit
       callFormWrapperProperty initialState
     = Normal
         (property
            [Decorator modelFlowExpression; Decorator (call "autoFlow" [])]
            "fn" (asyncGenerator [thisParameter ""] (block [])))
         (mkState true "" ["fn"])
  /\ visitEachChild (visitor sourceText sourceFullText noOptions emptyUnit)
       callFormWrapperProperty initialState
     = Normal callFormWrapperProperty initialState.
Proof. repeat split; reflexivity. Qed.

(** C10, amended.  [isSpecificDecorator] accepts a decorator for
    [autoFlow] only when its expression is an identifier with the text
    [autoFlow]; it accepts no decorator written as a call or as a property
    access.  A property or a method whose modifiers have no bare
    [@autoFlow] (each is such a call or access, or anything else that is
    not [@autoFlow]) is not touched by the decorator paths: the method
    stays a method and the decorated-property step returns nothing.  When
    the wrapper-call path is idle as well (the declaration is a method, or
    a property none of whose children is an [autoFlow] call and whose name
    was not pushed), the visit is the default descent into the children of
    the declaration. *)
Theorem autoFlow_decorator_bare_identifier_only
    (getText : Node -> string) (getFullText : Node -> FullText)
    (options : Options) (resSource : SourceFile) (decl : Node) (s : State) :
  isPropertyDeclaration decl || isMethodDeclaration decl = true ->
  forallb (fun x => isCallOrAccessDecorator x
                    || negb (isSpecificDecorator x autoFlow))
    (nodeModifiers decl) = true ->
  wrapperPathIdle getText decl s = true ->
  let v := visitor getText getFullText options resSource in
  (forall x, isSpecificDecorator x autoFlow = true ->
     exists e, x = Decorator e /\ isIdentifier e = true
               /\ identifierText e = "autoFlow")
  /\ (forall x, isCallOrAccessDecorator x = true ->
       isSpecificDecorator x autoFlow = false)
  /\ hasDecorator (nodeModifiers decl) autoFlow = false
  /\ methodToProperty decl = decl
  /\ visitDecoratedProperty getText getFullText decl s = Normal None s
  /\ v decl s = visitEachChild v decl s.
Proof.
  intros Hkind Hforms Hidle v.
  pose proof (hasDecorator_no_bare _ autoFlow Hforms) as Hdec.
  split; [intros x; apply isSpecificDecorator_bare|].
  split; [intros x; apply isSpecificDecorator_call_or_access|].
  split; [exact Hdec|].
  destruct decl; try discriminate Hkind; cbn [nodeModifiers] in Hdec.
  - (* property *)
    cbn [wrapperPathIdle] in Hidle. apply andb_prop in Hidle.
    destruct Hidle as [Hcalls Hname].
    apply negb_true_iff in Hcalls. apply negb_true_iff in Hname.
    assert (Hnone : visitDecoratedProperty getText getFullText
                      (PropertyDeclaration modifiers decl
                         questionOrExclamationToken type initializer) s
                    = Normal None s).
    { cbn [visitDecoratedProperty]. rewrite Hdec.
      destruct initializer; reflexivity. }
    repeat split; [exact Hnone|].
    unfold v. rewrite visitor_plain_property by exact Hcalls.
    rewrite Hname. cbn [bind Monad_M]. rewrite Hnone. reflexivity.
  - (* method *)
    assert (Hsame : methodToProperty
              (MethodDeclaration modifiers asteriskToken decl questionToken
                 typeParameters parameters type body)
            = MethodDeclaration modifiers asteriskToken decl questionToken
                 typeParameters parameters type body).
    { cbn [methodToProperty]. rewrite Hdec. destruct body; reflexivity. }
    repeat split; [exact Hsame|].
    unfold v. cbn [visitor isPropertyDeclaration]. rewrite Hsame. reflexivity.
Qed.

Lemma autoFlow_decorator_bare_identifier_only_witness :
  hasDecorator (nodeModifiers callFormMethod) autoFlow = false
  /\ visitor sourceText sourceFullText noOptions emptyUnit callFormMethod
       initialState
     = Normal callFormMethod initialState.
Proof.
  pose proof (@autoFlow_decorator_bare_identifier_only sourceText sourceFullText
                noOptions emptyUnit callFormMethod initialState
                eq_refl eq_refl eq_refl) as H.
  cbv zeta in H. destruct H as [_ [_ [Hdec [_ [_ Hvisit]]]]].
  split; [exact Hdec|]. rewrite Hvisit. reflexivity.
Defined.

(* ================================================================== *)
(** * Properties of the whole visit *)

(** ** The unit that is returned *)

(** The package of the import: the configured one, and ['mobx-keystone']
    when none or the empty string is configured. *)
Lemma mobxPackageOf_cases (options : Options) :
  mobxPackageOf options
  = match mobxKeystonePackage options with
    | Some (String c p) => String c p
    | _ => "mobx-keystone"
    end.
Proof.
  unfold mobxPackageOf. destruct (mobxKeystonePackage options) as [[|c p]|];
    reflexivity.
Qed.

(** A unit that the transformer returns is the unit of the input itself,
    or it is the input with the namespace import of the configured
    package in front of its statements: same file name, same flags and
    directives, and statement by statement a node of the same kind (a
    method with [@autoFlow] may have become a property).  No statement is
    added besides the import, none is dropped, none is moved. *)
Theorem visitSourceFile_result (getText : Node -> string)
    (getFullText : Node -> FullText)
    (source : SourceFile) (options : Options) (result : SourceFile) :
  visitSourceFile getText getFullText source options = Returns result ->
  result = source
  \/ exists statements',
       result
       = updateSourceFile (fileName source)
           (namespaceImport (mobxPackageOf options) :: statements')
           (isDeclarationFile source) (referencedFiles source)
           (typeReferenceDirectives source) (hasNoDefaultLib source)
           (libReferenceDirectives source)
       /\ Forall2 keepsKind (statements source) statements'.
Proof.
  unfold visitSourceFile.
  cbn [addImportMobxStatement statements fileName isDeclarationFile
       referencedFiles typeReferenceDirectives hasNoDefaultLib
       libReferenceDirectives].
  rewrite visitNodes_cons. cbn [bind Monad_M].
  rewrite (visitor_import getText getFullText options _
             (mobxPackageOf options) initialState).
  set (v := visitor getText getFullText options _).
  assert (Hv : Forall (visits (fun _ => True) (advances initialState)
                         keepsKind v) (statements source)).
  { apply Forall_forall. intros c _. apply visitor_keeps. }
  pose proof (hoare_visitNodes Hv) as Hh.
  specialize (Hh initialState (advances_refl initialState)).
  destruct (visitNodes v (statements source) initialState) as [l' s'|e];
    cbn [ret Monad_M]; [|discriminate].
  destruct (transformed s'); intros H; injection H as <-.
  - right. exists l'. split; [reflexivity|apply Hh].
  - left. reflexivity.
Qed.

Lemma visitSourceFile_result_witness :
  sourceUnit "store.ts"
    [namespaceImport "mobx-keystone";
     classDeclaration [] "Store"
       [property [Decorator modelFlowExpression] "load"
          (asyncGenerator [thisParameter "Store"] (block []))]]
  = sourceUnit "store.ts"
      [classDeclaration [] "Store"
         [property [] "load" (call "autoFlow" [asyncArrow [] (block [])])]]
  \/ exists statements',
       sourceUnit "store.ts"
         [namespaceImport "mobx-keystone";
          classDeclaration [] "Store"
            [property [Decorator modelFlowExpression] "load"
               (asyncGenerator [thisParameter "Store"] (block []))]]
       = updateSourceFile "store.ts"
           (namespaceImport "mobx-keystone" :: statements')
           false [] [] false []
       /\ Forall2 keepsKind
            [classDeclaration [] "Store"
               [property [] "load"
                  (call "autoFlow" [asyncArrow [] (block [])])]]
            statements'.
Proof.
  exact (@visitSourceFile_result sourceText sourceFullText
           (sourceUnit "store.ts"
              [classDeclaration [] "Store"
                 [property [] "load"
                    (call "autoFlow" [asyncArrow [] (block [])])]])
           noOptions _ eq_refl).
Defined.

(** The transformer returns a unit, and throws nothing, when no
    statement of the input has a failing site: every wrapper call among
    the children of a property has a first argument, and every function
    that the visitor would convert (the first argument of such a call,
    the value of a property with [@autoFlow], a method with [@autoFlow]
    and a body) is async. *)
Theorem no_failing_site_returns (getText : Node -> string)
    (getFullText : Node -> FullText)
    (source : SourceFile) (options : Options) :
  forallb noFailingSite (statements source) = true ->
  exists result,
    visitSourceFile getText getFullText source options = Returns result.
Proof.
  intros Hsafe. unfold visitSourceFile.
  cbn [addImportMobxStatement statements fileName isDeclarationFile
       referencedFiles typeReferenceDirectives hasNoDefaultLib
       libReferenceDirectives].
  rewrite visitNodes_cons. cbn [bind Monad_M].
  rewrite (visitor_import getText getFullText options _
             (mobxPackageOf options) initialState).
  set (v := visitor getText getFullText options _).
  assert (Hv : Forall (visits (fun _ => False) (fun _ => True)
                         (fun _ _ => True) v) (statements source)).
  { apply forallb_Forall_eq in Hsafe.
    eapply Forall_impl; [|exact Hsafe]. intros c Hc s Hs.
    pose proof (@visitor_total getText getFullText options
                  (addImportMobxStatement source (mobxPackageOf options)
                     mobxNamespaceImport) c Hc) as Ht.
    specialize (Ht s Logic.I). fold v in Ht. destruct (v c s); auto. }
  pose proof (hoare_visitNodes Hv) as Hh.
  specialize (Hh initialState Logic.I).
  destruct (visitNodes v (statements source) initialState) as [l' s'|e];
    cbn [ret Monad_M]; [|contradiction].
  destruct (transformed s'); eexists; reflexivity.
Qed.

Lemma no_failing_site_returns_witness :
  exists result, transform unsupportedArgumentUnit noOptions = Returns result.
Proof.
  exact (@no_failing_site_returns sourceText sourceFullText
           unsupportedArgumentUnit noOptions eq_refl).
Defined.

(** ** Units without triggers *)

(** A unit in which no node is a trigger as the visitor recognises them
    (no class with a modifier whose text includes [autoModel], no
    property or method with a bare [@autoFlow], no property with a child
    that is a call of an identifier starting with [autoFlow]) is
    returned by the [return source] of the last line: the result is the
    unit that was given, so the injected import is not in it, and
    nothing is thrown. *)
Theorem noop_without_trigger (getText : Node -> string)
    (getFullText : Node -> FullText)
    (source : SourceFile) (options : Options) :
  forallb (quiet getText) (statements source) = true ->
  visitSourceFile getText getFullText source options = Returns source.
Proof.
  intros Hq. unfold visitSourceFile.
  set (resSource := addImportMobxStatement source (mobxPackageOf options)
                      mobxNamespaceImport).
  set (v := visitor getText getFullText options resSource).
  assert (Hstmts : hoare (untouched false) (visitNodes v (statements source))
            (fun l' s => Forall2 same (statements source) l'
                         /\ untouched false s) (fun _ => False)).
  { apply hoare_visitNodes. apply Forall_forall. intros c Hc.
    apply visitor_quiet. rewrite forallb_forall in Hq. auto. }
  specialize (Hstmts initialState (conj eq_refl eq_refl)).
  cbn [statements resSource addImportMobxStatement visitNodes].
  change (v (ImportDeclaration []
               (Some (ImportClause false None
                        (Some (NamespaceImport mobxNamespaceImport))))
               (StringLiteral (mobxPackageOf options))))
    with (fun s : State =>
            Normal (ImportDeclaration []
               (Some (ImportClause false None
                        (Some (NamespaceImport mobxNamespaceImport))))
               (StringLiteral (mobxPackageOf options))) s).
  cbn [bind ret Monad_M].
  destruct (visitNodes v (statements source) initialState) as [l' s'|e];
    [|contradiction].
  destruct Hstmts as [_ [_ Ht]]. rewrite Ht. reflexivity.
Qed.

Lemma noop_without_trigger_witness :
  forallb (quiet sourceText) (statements quietUnit) = true
  /\ transform quietUnit noOptions = Returns quietUnit.
Proof.
  split; [reflexivity|].
  apply (@noop_without_trigger sourceText sourceFullText quietUnit noOptions).
  reflexivity.
Defined.

(** ** What a visit of a node keeps *)

Section VisitKeeps.

Variable getText : Node -> string.
Variable getFullText : Node -> FullText.
Variable options : Options.
Variable resSource : SourceFile.

#[local] Abbreviation v := (visitor getText getFullText options resSource).

(** A visit never clears the flag [transformed] and never removes or
    reorders the pushed names: the list after the visit is the list
    before it with names added at its end.  A name that was pushed stays
    for the rest of the unit. *)
Theorem visitor_state_only_advances (node node' : Node) (s s' : State) :
  v node s = Normal node' s' -> advances s s'.
Proof.
  intros Heq.
  pose proof (@visitor_keeps getText getFullText options resSource s node)
    as H.
  specialize (H s (advances_refl s)). rewrite Heq in H. apply H.
Qed.

(** A visit returns a node of the kind of the visited one, with one
    exception: a method with [@autoFlow] may come back as a property.  A
    class stays a class, a property a property, and every other node
    keeps its kind. *)
Theorem visitor_keeps_kind (node node' : Node) (s s' : State) :
  v node s = Normal node' s' -> keepsKind node node'.
Proof.
  intros Heq.
  pose proof (@visitor_keeps getText getFullText options resSource s node)
    as H.
  specialize (H s (advances_refl s)). rewrite Heq in H. apply H.
Qed.

End VisitKeeps.

Lemma visitor_state_only_advances_witness :
  advances (mkState false "Store" ["save"])
    (mkState true "Store" ["save"; "load"]).
Proof.
  exact (@visitor_state_only_advances sourceText sourceFullText noOptions
           emptyUnit
           (property [] "load" (call "autoFlow" [asyncArrow [] (block [])]))
           _ (mkState false "Store" ["save"]) _ eq_refl).
Defined.

Lemma visitor_keeps_kind_witness :
  keepsKind annotatedMethod
    (property [Decorator modelFlowExpression] "fn"
       (asyncGenerator [thisParameter ""] (block []))).
Proof.
  exact (@visitor_keeps_kind sourceText sourceFullText noOptions emptyUnit
           annotatedMethod _ initialState _ eq_refl).
Defined.

(** ** The wrapper call *)

Section WrapperCall.

Variable getText : Node -> string.
Variable getFullText : Node -> FullText.
Variable options : Options.
Variable resSource : SourceFile.

#[local] Abbreviation v := (visitor getText getFullText options resSource).

(** A property [name = callee<...>(fn, ...)], where [callee] is an
    identifier that starts with [autoFlow] and [fn] is an async arrow
    function or function expression, is rewritten as a whole: the
    modifiers are normalized, the initializer is the adapter call on a
    generator function with the parameters of [fn] (after [this] typed by
    the recorded class name, unless [fn] has a parameter named [this])
    and with the body of [fn] rewritten by [replaceYieldAndCheckNested]
    only.  The callee, the type arguments and the arguments after the
    first are dropped; the name is pushed and the flag is set. *)
Theorem wrapper_call_conversion (modifiers : list Node) (name : Node)
    (token type : option Node) (callee : Node) (typeArguments : list Node)
    (fn : Node) (rest : list Node) (s : State) :
  isIdentifier callee
  && JsString.startsWith (identifierText callee) autoFlow = true ->
  isArrowFunction fn || isFunctionExpression fn = true ->
  isAsyncFunction fn = true ->
  existsb isAutoFlowCall (modifiers ++ [name] ++ optionToList type) = false ->
  exists body,
    fnBody fn = Some body
    /\ v (PropertyDeclaration modifiers name token type
            (Some (CallExpression callee typeArguments (fn :: rest)))) s
       = Normal
           (PropertyDeclaration
              (ensureDecorators modifiers modelFlowExpression) name
              (propertyQuestionToken token) type
              (Some (flowCall getText fn _asyncExpression (className s)
                       (replaceYieldAndCheckNested _awaitExpression body))))
           (mkState true (className s)
              (functionsToAddDecoratorsTo s ++ [getText name])).
Proof.
  intros Hcallee Hfn Hasync Hplain.
  destruct (convert_function getText getFullText fn Hfn Hasync)
    as [body [Hbody Hconv]].
  exists body. split; [exact Hbody|].
  cbn [visitor isPropertyDeclaration]. cbn [bind Monad_M].
  rewrite visit_property_initializer by exact Hplain.
  cbn [visitPropertyChild bind Monad_M]. rewrite Hcallee, Hfn.
  cbn [bind ret Monad_M pushFunctionToAddDecoratorsTo setTransformed get
       className transformed functionsToAddDecoratorsTo].
  rewrite Hconv.
  cbn [bind ret Monad_M addDecorator get functionsToAddDecoratorsTo].
  rewrite arrayIncludes_snoc. reflexivity.
Qed.

(** A wrapper call without arguments makes the visit throw a type error:
    the first argument is read and tested before anything else is
    looked at. *)
Theorem wrapper_call_without_argument_throws (modifiers : list Node)
    (name : Node) (token type : option Node) (callee : Node)
    (typeArguments : list Node) (s : State) :
  isIdentifier callee
  && JsString.startsWith (identifierText callee) autoFlow = true ->
  existsb isAutoFlowCall (modifiers ++ [name] ++ optionToList type) = false ->
  exists message,
    v (PropertyDeclaration modifiers name token type
         (Some (CallExpression callee typeArguments []))) s
    = Thrown (TypeError message).
Proof.
  intros Hcallee Hplain. eexists.
  cbn [visitor isPropertyDeclaration]. cbn [bind Monad_M].
  rewrite visit_property_initializer by exact Hplain.
  cbn [visitPropertyChild bind Monad_M]. rewrite Hcallee.
  reflexivity.
Qed.

(** A property none of whose children is a wrapper call, and whose name
    was pushed before, comes back with its modifiers normalized and
    nothing else changed: the decorator step goes by the text of the
    name alone.  Its initializer is not converted, also when the
    property has [@autoFlow], and its children are not visited; the flag
    keeps its value. *)
Theorem pushed_name_decorates_property (modifiers : list Node) (name : Node)
    (token type initializer : option Node) (s : State) :
  existsb isAutoFlowCall
    (children (PropertyDeclaration modifiers name token type initializer))
  = false ->
  JsString.arrayIncludes (functionsToAddDecoratorsTo s) (getText name)
  = true ->
  v (PropertyDeclaration modifiers name token type initializer) s
  = Normal
      (PropertyDeclaration (ensureDecorators modifiers modelFlowExpression)
         name (propertyQuestionToken token) type initializer) s.
Proof.
  intros Hplain Hpushed.
  rewrite visitor_plain_property by exact Hplain.
  rewrite Hpushed. reflexivity.
Qed.

(** ** The decorated forms *)

(** A property with [@autoFlow] and an async function value, or a method
    with [@autoFlow], the async keyword, no asterisk and a body, on which
    the wrapper-call path is idle, is rewritten to a property with the
    same name: the modifiers are normalized and the initializer is the
    adapter call on the generator function, as for a wrapper call.  For a
    method the return type annotation becomes the type annotation of the
    property and the type parameters are dropped.  The flag is set and
    no name is pushed. *)
Theorem decorated_conversion (decl : Node) (modifiers : list Node)
    (name : Node) (token type : option Node) (fn : Node) (s : State) :
  hasDecorator (nodeModifiers decl) autoFlow = true ->
  methodToProperty decl
  = PropertyDeclaration modifiers name token type (Some fn) ->
  isArrowFunction fn || isFunctionExpression fn = true ->
  isAsyncFunction fn = true ->
  wrapperPathIdle getText decl s = true ->
  exists body,
    fnBody fn = Some body
    /\ v decl s
       = Normal
           (PropertyDeclaration
              (ensureDecorators modifiers modelFlowExpression) name
              (propertyQuestionToken token) type
              (Some (flowCall getText fn _asyncExpression (className s)
                       (replaceYieldAndCheckNested _awaitExpression body))))
           (mkState true (className s) (functionsToAddDecoratorsTo s)).
Proof.
  intros Hdec Hprop Hfn Hasync Hidle.
  destruct (convert_function getText getFullText fn Hfn Hasync)
    as [body [Hbody Hconv]].
  exists body. split; [exact Hbody|].
  destruct decl; try discriminate Hprop.
  - (* the property form *)
    cbn [methodToProperty] in Hprop. injection Hprop as -> -> -> -> ->.
    cbn [nodeModifiers] in Hdec. cbn [wrapperPathIdle] in Hidle.
    apply andb_prop in Hidle. destruct Hidle as [Hplain Hname].
    apply negb_true_iff in Hplain. apply negb_true_iff in Hname.
    rewrite visitor_plain_property by exact Hplain.
    rewrite Hname. cbn [visitDecoratedProperty]. rewrite Hdec, Hfn.
    cbn [bind ret Monad_M setTransformed get className].
    rewrite Hconv. reflexivity.
  - (* the method form *)
    cbn [nodeModifiers] in Hdec. cbn [methodToProperty] in Hprop.
    destruct body0 as [b|]; [|discriminate Hprop].
    rewrite Hdec in Hprop. injection Hprop as <- <- <- <- <-.
    cbn [visitor isPropertyDeclaration methodToProperty].
    rewrite Hdec. cbn [bind ret Monad_M addDecorator visitDecoratedProperty].
    rewrite Hdec. cbn [isArrowFunction isFunctionExpression orb].
    cbn [bind ret Monad_M setTransformed get className].
    rewrite Hconv. reflexivity.
Qed.

(** A method with [@autoFlow] and a body that is not async, or that is
    a generator, is not converted and not left alone: the visit
    throws. *)
Theorem decorated_method_not_async_throws (modifiers : list Node)
    (asteriskToken : option Node) (name : Node) (questionToken : option Node)
    (typeParameters parameters : list Node) (type : option Node)
    (body : Node) (s : State) :
  hasDecorator modifiers autoFlow = true ->
  isAsyncFunction
    (MethodDeclaration modifiers asteriskToken name questionToken
       typeParameters parameters type (Some body)) = false ->
  throws
    (v (MethodDeclaration modifiers asteriskToken name questionToken
          typeParameters parameters type (Some body)) s).
Proof.
  intros Hdec Hasync.
  cbn [visitor isPropertyDeclaration methodToProperty].
  rewrite Hdec. cbn [bind ret Monad_M addDecorator visitDecoratedProperty].
  rewrite Hdec. cbn [isArrowFunction isFunctionExpression orb].
  cbn [bind ret Monad_M setTransformed get className].
  rewrite transformFunction_not_async; [exact Logic.I|].
  rewrite isAsyncFunction_createNewFunctionBlock. exact Hasync.
Qed.

(** ** The class name *)

(** A visit of a tree without triggers, started with no name pushed,
    returns the tree and leaves in [className] the name of the last
    class declaration it met, also when the visit has left that class:
    the name is never restored.  A function converted afterwards gets
    its [this] typed by that name. *)
Theorem quiet_visit_records_last_class (node : Node) (s : State) :
  quiet getText node = true ->
  functionsToAddDecoratorsTo s = [] ->
  v node s
  = Normal node
      (mkState (transformed s) (classNameAfter getText node (className s))
         []).
Proof.
  intros Hq Hs.
  destruct (@visitor_quiet_record getText getFullText options resSource
              node Hq s Hs) as [Heq _].
  rewrite Heq, Hs. reflexivity.
Qed.

End WrapperCall.

Lemma wrapper_call_conversion_witness :
  exists body,
    fnBody (asyncArrow [parameter "id"] (block [])) = Some body
    /\ visitor sourceText sourceFullText noOptions emptyUnit
         (property [] "load"
            (CallExpression (Identifier "autoFlowAction")
               [OtherNode SyntaxKind.KeywordType []]
               [asyncArrow [parameter "id"] (block []);
                OtherNode SyntaxKind.NumericLiteral []]))
         (mkState false "Store" [])
       = Normal
           (PropertyDeclaration
              (ensureDecorators [] modelFlowExpression) (Identifier "load")
              (propertyQuestionToken None) None
              (Some (flowCall sourceText
                       (asyncArrow [parameter "id"] (block []))
                       _asyncExpression "Store"
                       (replaceYieldAndCheckNested _awaitExpression body))))
           (mkState true "Store" ([] ++ [sourceText (Identifier "load")])).
Proof.
  exact (@wrapper_call_conversion sourceText sourceFullText noOptions emptyUnit
           [] (Identifier "load") None None (Identifier "autoFlowAction")
           [OtherNode SyntaxKind.KeywordType []]
           (asyncArrow [parameter "id"] (block []))
           [OtherNode SyntaxKind.NumericLiteral []]
           (mkState false "Store" []) eq_refl eq_refl eq_refl eq_refl).
Defined.

(** The same call in its unit: [class Store { load =
    autoFlowAction<void>(async (id) => {}, 1) }] becomes
    [class Store { @mobxKs.modelFlow load =
    mobxKs._async(function* (this: Store, id) {}) }]. *)
Lemma prefix_call_unit :
  transform prefixCallUnit noOptions
  = Returns
      (sourceUnit "store.ts"
         [namespaceImport "mobx-keystone";
          classDeclaration [] "Store"
            [property [Decorator modelFlowExpression] "load"
               (asyncGenerator [thisParameter "Store"; parameter "id"]
                  (block []))]]).
Proof. reflexivity. Qed.

Lemma wrapper_call_without_argument_throws_witness :
  exists message,
    visitor sourceText sourceFullText noOptions emptyUnit wrapperWithoutArgument
      initialState
    = Thrown (TypeError message).
Proof.
  exact (@wrapper_call_without_argument_throws sourceText sourceFullText
           noOptions emptyUnit [] (Identifier "load") None None
           (Identifier "autoFlow") [] initialState eq_refl eq_refl).
Defined.

Lemma pushed_name_decorates_property_witness :
  visitor sourceText sourceFullText noOptions emptyUnit plainLoad
    (mkState true "B" ["load"])
  = Normal
      (PropertyDeclaration (ensureDecorators [] modelFlowExpression)
         (Identifier "load") (propertyQuestionToken None) None
         (Some (OtherNode SyntaxKind.NumericLiteral [])))
      (mkState true "B" ["load"]).
Proof.
  exact (@pushed_name_decorates_property sourceText sourceFullText noOptions
           emptyUnit [] (Identifier "load") None None
           (Some (OtherNode SyntaxKind.NumericLiteral []))
           (mkState true "B" ["load"]) eq_refl eq_refl).
Defined.

(** In [class A { load = autoFlow(async () => {}) } class B { load = 5 }]
    the property of [B] gets the flow decorator: the name [load] was
    pushed in [A]. *)
Lemma same_name_in_another_class :
  transform sameNameUnit noOptions
  = Returns
      (sourceUnit "stores.ts"
         [namespaceImport "mobx-keystone";
          classDeclaration [] "A"
            [property [Decorator modelFlowExpression] "load"
               (asyncGenerator [thisParameter "A"] (block []))];
          classDeclaration [] "B"
            [property [Decorator modelFlowExpression] "load"
               (OtherNode SyntaxKind.NumericLiteral [])]]).
Proof. reflexivity. Qed.

Lemma decorated_conversion_witness :
  exists body,
    fnBody
      (FunctionExpression [decorator "autoFlow"; asyncKeyword] None
         (Some (Identifier "load"))
         [OtherNode SyntaxKind.TypeParameter [Identifier "T"]]
         [parameter "id"]
         (Some (TypeReferenceNode (Identifier "Result") []))
         (block [returnStatement
                   (AwaitExpression (call "fetchOne" [Identifier "id"]))]))
    = Some body
    /\ visitor sourceText sourceFullText noOptions emptyUnit typedMethod
         (mkState false "Store" [])
       = Normal
           (PropertyDeclaration
              (ensureDecorators [decorator "autoFlow"; asyncKeyword]
                 modelFlowExpression)
              (Identifier "load") (propertyQuestionToken None)
              (Some (TypeReferenceNode (Identifier "Result") []))
              (Some (flowCall sourceText
                       (FunctionExpression
                          [decorator "autoFlow"; asyncKeyword] None
                          (Some (Identifier "load"))
                          [OtherNode SyntaxKind.TypeParameter
                             [Identifier "T"]]
                          [parameter "id"]
                          (Some (TypeReferenceNode (Identifier "Result") []))
                          (block [returnStatement
                                    (AwaitExpression
                                       (call "fetchOne"
                                          [Identifier "id"]))]))
                       _asyncExpression "Store"
                       (replaceYieldAndCheckNested _awaitExpression body))))
           (mkState true "Store" []).
Proof.
  exact (@decorated_conversion sourceText sourceFullText noOptions emptyUnit
           typedMethod [decorator "autoFlow"; asyncKeyword]
           (Identifier "load") None
           (Some (TypeReferenceNode (Identifier "Result") []))
           (FunctionExpression [decorator "autoFlow"; asyncKeyword] None
              (Some (Identifier "load"))
              [OtherNode SyntaxKind.TypeParameter [Identifier "T"]]
              [parameter "id"]
              (Some (TypeReferenceNode (Identifier "Result") []))
              (block [returnStatement
                        (AwaitExpression
                           (call "fetchOne" [Identifier "id"]))]))
           (mkState false "Store" []) eq_refl eq_refl eq_refl eq_refl
           eq_refl).
Defined.

(** The method [@autoFlow async load<T>(id): Result
    { return await fetchOne(id); }] of [class Store] becomes
    [@mobxKs.modelFlow load: Result = mobxKs._async(function*
    (this: Store, id) { return yield* mobxKs._await(fetchOne(id)); })]. *)
Lemma typed_method_conversion :
  visitor sourceText sourceFullText noOptions emptyUnit typedMethod
    (mkState false "Store" [])
  = Normal
      (PropertyDeclaration [Decorator modelFlowExpression]
         (Identifier "load") None
         (Some (TypeReferenceNode (Identifier "Result") []))
         (Some (asyncGenerator [thisParameter "Store"; parameter "id"]
                  (block [returnStatement
                            (yieldAwait
                               (call "fetchOne" [Identifier "id"]))]))))
      (mkState true "Store" []).
Proof. reflexivity. Qed.

Lemma decorated_method_not_async_throws_witness :
  throws
    (visitor sourceText sourceFullText noOptions emptyUnit generatorMethod
       initialState).
Proof.
  exact (@decorated_method_not_async_throws sourceText sourceFullText noOptions
           emptyUnit [decorator "autoFlow"; asyncKeyword] (Some asterisk)
           (Identifier "load") None [] [] None (block []) initialState
           eq_refl eq_refl).
Defined.

Lemma quiet_visit_records_last_class_witness :
  visitor sourceText sourceFullText noOptions emptyUnit outerWithInner
    initialState
  = Normal outerWithInner
      (mkState false (classNameAfter sourceText outerWithInner "") []).
Proof.
  exact (@quiet_visit_records_last_class sourceText sourceFullText noOptions
           emptyUnit outerWithInner initialState eq_refl eq_refl).
Defined.

(** In [class Outer { helper() { class Inner {} }
    load = autoFlow(async () => {}) }] the function of [load] gets
    [this: Inner]: the visit of [helper] has left [Inner] in
    [className]. *)
Lemma this_type_after_nested_class :
  classNameAfter sourceText outerWithInner "" = "Inner"
  /\ visitor sourceText sourceFullText noOptions emptyUnit outerWithInnerAndFlow
       initialState
     = Normal
         (classDeclaration [] "Outer"
            [MethodDeclaration [] None (Identifier "helper") None [] [] None
               (Some (block [classDeclaration [] "Inner" []]));
             property [Decorator modelFlowExpression] "load"
               (asyncGenerator [thisParameter "Inner"] (block []))])
         (mkState true "Inner" ["load"]).
Proof. split; reflexivity. Qed.

(** A class expression records no name: in a unit whose only class is
    [class { load = autoFlow(async () => {}) }], written as an
    expression, the function of [load] gets [this] typed by the empty
    name that [className] starts with. *)
Lemma this_type_in_class_expression :
  visitor sourceText sourceFullText noOptions emptyUnit classExpressionWithFlow
    initialState
  = Normal
      (OtherNode SyntaxKind.ClassExpression
         [property [Decorator modelFlowExpression] "load"
            (asyncGenerator [thisParameter ""] (block []))])
      (mkState true "" ["load"]).
Proof. reflexivity. Qed.

(** ** The rewrite of awaits, as a whole *)

(** [replaceYieldAndCheckNested] returns the tree as it is exactly when
    the tree has no await expression outside its function-like nodes:
    the rewrite changes a body if and only if there is an await for it
    to replace. *)
Theorem await_rewrite_fixed (aw node : Node) :
  replaceYieldAndCheckNested aw node = node <-> awaitFree node = true.
Proof. apply replaceYield_fixed. Qed.

(** After the rewrite with the await adapter, no await expression is
    left outside the function-like nodes exactly when the awaits of the
    input were flat.  The operand of an await is passed to the adapter
    as it is, so an await inside the operand of another one stays in the
    generator function. *)
Theorem converted_body_await_free (node : Node) :
  awaitFree (replaceYieldAndCheckNested _awaitExpression node)
  = flatAwaits node.
Proof. apply awaitFree_replaceYield. reflexivity. Qed.

(** A second run of the rewrite changes nothing exactly when the awaits
    of the input were flat: on [await f(await g())] the first run leaves
    the inner await, which a second run would rewrite. *)
Theorem await_rewrite_idempotent_iff_flat (node : Node) :
  replaceYieldAndCheckNested _awaitExpression
    (replaceYieldAndCheckNested _awaitExpression node)
  = replaceYieldAndCheckNested _awaitExpression node
  <-> flatAwaits node = true.
Proof.
  rewrite replaceYield_fixed, awaitFree_replaceYield by reflexivity.
  reflexivity.
Qed.

(** [await f(await g())] becomes [yield* mobxKs._await(f(await g()))]. *)
Lemma await_in_operand_stays :
  replaceYieldAndCheckNested _awaitExpression awaitInOperand
  = yieldAwait (call "f" [AwaitExpression (call "g" [])])
  /\ flatAwaits awaitInOperand = false.
Proof. split; reflexivity. Qed.
